(** * First-line support scheduling: the store client and the bootstrap

    A shallow embedding of [api/clients/scheduling.py] (class
    [SchedulingClient]) and of [init_default_data] in [api/main.py],
    together with the properties of the specification that concern them.

    The client talks to a PostgreSQL store through one connection opened
    with [autocommit=True].  The embedding makes that store explicit:

    - the three tables are lists of rows; the column types and the
      [PRIMARY KEY] and [FOREIGN KEY] clauses of the DDL in [init] are part
      of the meaning of the statements ([Sql]).  The store does not promise
      the order in which a query without [ORDER BY] returns the rows (an
      [UPDATE] writes a new version of a row, which a scan can meet at
      another place), so the list of a table stands for its rows and not
      for the order of a scan: what is stated of [employees], which
      [get_employees] reads without [ORDER BY], after a statement that
      rewrites its rows is stated row by row or up to the order of the
      rows;
    - a method is a function from the state of the world (store, connection
      handle, the client's flags) to a result and a new state; a Python
      exception is the result [Raise], and the state reached when it was
      raised is kept, as in Python;
    - whether a connection attempt or a statement is answered by the store
      is decided by a script of outcomes carried in the world, so that the
      [try]/[except] paths of the client can be exercised. *)

From Stdlib Require Import List String Ascii ZArith QArith Bool Lia.
From Stdlib Require Import Sorted Permutation.
Import ListNotations.
#[local] Open Scope string_scope.
#[local] Open Scope Z_scope.

(** ** Python results and the method monad *)

Inductive exn : Type :=
| OperationalError      (* psycopg: the store did not answer, or the handle is closed *)
| ForeignKeyViolation   (* psycopg.errors: a REFERENCES clause rejected the statement *)
| UniqueViolation       (* psycopg.errors: a PRIMARY KEY rejected an INSERT *)
| StringDataRightTruncation  (* psycopg.errors: a value too long for its VARCHAR *)
| NumericValueOutOfRange     (* psycopg.errors: a value outside the range of INT *)
| AttributeError        (* a method called on [None] *)
| ZeroDivisionError     (* [i % 0] *)
| NotAvailable.         (* the plain [Exception] raised at the end of [await_up] *)

Inductive result (A : Type) : Type :=
| Ok (a : A)
| Raise (e : exn).
Arguments Ok {A} a.
Arguments Raise {A} e.

(** ** Rows and tables *)

(** JSON values, for the [metadata] column. *)
#[warnings="-register-all"]
Inductive json : Type :=
| JNull
| JBool (b : bool)
| JNum (n : Z)
| JStr (s : string)
| JArr (l : list json)
| JObj (l : list (string * json)).

Definition metadata_t : Type := list (string * json).

Record Employee : Type := mkEmployee {
  employee_number : string;
  name : string;
  first_line_support_count : Z;
  known_absences : list string;
  metadata : metadata_t
}.

Record Schedule : Type := mkSchedule {
  date : string;
  first_line_support : string
}.

(** The row of [rules] whose [id] is ['system_rules']; the client never
    names another row of that table. *)
Record Rules : Type := mkRules {
  max_days_per_week : Z;
  preferred_balance : Q
}.

Record DB : Type := mkDB {
  employees : list Employee;
  schedules : list Schedule;
  rules : option Rules
}.

Definition set_employees (l : list Employee) (d : DB) : DB :=
  mkDB l (schedules d) (rules d).
Definition set_schedules (l : list Schedule) (d : DB) : DB :=
  mkDB (employees d) l (rules d).
Definition set_rules (r : option Rules) (d : DB) : DB :=
  mkDB (employees d) (schedules d) r.

(** ** The SQL statements of the client

    A statement either answers with a value and a new store, or raises and
    leaves the store as it was (each statement is atomic; with
    [autocommit=True] it is also committed on its own). *)

Definition stmt (A : Type) : Type := DB -> result (A * DB).

Module Sql.

Definition has_employee (number : string) (d : DB) : bool :=
  existsb (fun e => employee_number e =? number)%string (employees d).

Definition has_schedule (date_str : string) (d : DB) : bool :=
  existsb (fun s => date s =? date_str)%string (schedules d).

Definition references (number : string) (s : Schedule) : bool :=
  (first_line_support s =? number)%string.

(** *** Column types

    A value is converted to the type of its column when it is stored (in
    the [VALUES] of an [INSERT] or the [SET] of an [UPDATE]), before the
    statement looks at the rows; a value that is only compared in a
    [WHERE] clause is not converted.

    [VARCHAR(n)]: a value of at most [n] characters is stored as it is; a
    longer one is cut to [n] characters when what is cut off is spaces
    only, and is refused otherwise.  (A [string] is read as a sequence of
    characters.)  [INT]: a value outside the 32-bit range is refused. *)
Fixpoint spaces_only (s : string) : bool :=
  match s with
  | EmptyString => true
  | String c tl => Ascii.eqb c " "%char && spaces_only tl
  end.

Definition varchar (n : nat) (s : string) : result string :=
  if (String.length s <=? n)%nat then Ok s
  else if spaces_only (substring n (String.length s - n) s)
       then Ok (substring 0 n s)
       else Raise StringDataRightTruncation.

Definition integer (z : Z) : result Z :=
  if (-2147483648 <=? z) && (z <=? 2147483647) then Ok z
  else Raise NumericValueOutOfRange.

Definition stored_as {A B : Type} (value : result A) (q : A -> stmt B) : stmt B :=
  fun d =>
  match value with
  | Ok a => q a d
  | Raise e => Raise e
  end.

(** [CREATE SCHEMA IF NOT EXISTS] and the three [CREATE TABLE IF NOT
    EXISTS]: the store of the embedding has the namespace and the tables, so
    the guarded DDL changes nothing. *)
Definition create_if_not_exists : stmt unit := fun d => Ok (tt, d).

(** [SELECT 1] *)
Definition select_1 : stmt unit := fun d => Ok (tt, d).

(** [INSERT INTO employees (...) VALUES (...) ON CONFLICT (employee_number)
    DO UPDATE SET name, known_absences, metadata = EXCLUDED....]: first on
    values that have the types of their columns, [employee_number
    VARCHAR(36)], [name VARCHAR(255)] and [first_line_support_count INT],
    then on the values as they are given. *)
Definition upsert_employee_row (number nm : string) (count : Z)
    (absences : list string) (md : metadata_t) : stmt unit := fun d =>
  if has_employee number d then
    Ok (tt, set_employees
              (map (fun e => if (employee_number e =? number)%string
                             then mkEmployee (employee_number e) nm
                                    (first_line_support_count e) absences md
                             else e) (employees d)) d)
  else
    Ok (tt, set_employees
              (employees d ++ [mkEmployee number nm count absences md]) d).

Definition upsert_employee (number nm : string) (count : Z)
    (absences : list string) (md : metadata_t) : stmt unit :=
  stored_as (varchar 36 number) (fun number =>
  stored_as (varchar 255 nm) (fun nm =>
  stored_as (integer count) (fun count =>
  upsert_employee_row number nm count absences md))).

(** [SELECT ... FROM employees WHERE employee_number = %s], [fetchone] *)
Definition select_employee (number : string) : stmt (option Employee) := fun d =>
  Ok (find (fun e => employee_number e =? number)%string (employees d), d).

(** [SELECT ... FROM employees], [fetchall] *)
Definition select_employees : stmt (list Employee) := fun d =>
  Ok (employees d, d).

(** [UPDATE employees SET name, first_line_support_count, known_absences,
    metadata WHERE employee_number = %s]: on values of the column types,
    then on the values as they are given.  The list keeps the rewritten
    row at its place; a later scan of the store need not. *)
Definition update_employee_row (nm : string) (count : Z) (absences : list string)
    (md : metadata_t) (number : string) : stmt unit := fun d =>
  Ok (tt, set_employees
            (map (fun e => if (employee_number e =? number)%string
                           then mkEmployee (employee_number e) nm count absences md
                           else e) (employees d)) d).

Definition update_employee (nm : string) (count : Z) (absences : list string)
    (md : metadata_t) (number : string) : stmt unit :=
  stored_as (varchar 255 nm) (fun nm =>
  stored_as (integer count) (fun count =>
  update_employee_row nm count absences md number)).

(** [SELECT date FROM schedules WHERE first_line_support = %s] *)
Definition select_dates_of (number : string) : stmt (list string) := fun d =>
  Ok (map date (filter (references number) (schedules d)), d).

(** [DELETE FROM schedules WHERE first_line_support = %s] *)
Definition delete_schedules_of (number : string) : stmt unit := fun d =>
  Ok (tt, set_schedules
            (filter (fun s => negb (references number s)) (schedules d)) d).

(** [DELETE FROM employees WHERE employee_number = %s]; the answer is
    [cursor.rowcount].  The [FOREIGN KEY] of [schedules] has no [ON DELETE]
    action: a row that is still referenced cannot be deleted. *)
Definition delete_employee (number : string) : stmt nat := fun d =>
  let hit := filter (fun e => employee_number e =? number)%string (employees d) in
  if andb (negb (Nat.eqb (List.length hit) 0)) (existsb (references number) (schedules d))
  then Raise ForeignKeyViolation
  else Ok (List.length hit,
           set_employees
             (filter (fun e => negb (employee_number e =? number)%string)
                     (employees d)) d).

(** [INSERT INTO schedules (date, first_line_support) VALUES (%s, %s)
    ON CONFLICT (date) DO UPDATE SET first_line_support = EXCLUDED....];
    the new reference is checked against [employees] on both paths.  First
    on values of the column types, [date VARCHAR(10)] and
    [first_line_support VARCHAR(36)], then on the values as they are
    given. *)
Definition upsert_schedule_row (date_str number : string) : stmt unit := fun d =>
  if negb (has_employee number d) then Raise ForeignKeyViolation
  else if has_schedule date_str d then
    Ok (tt, set_schedules
              (map (fun s => if (date s =? date_str)%string
                             then mkSchedule (date s) number else s)
                   (schedules d)) d)
  else Ok (tt, set_schedules (schedules d ++ [mkSchedule date_str number]) d).

Definition upsert_schedule (date_str number : string) : stmt unit :=
  stored_as (varchar 10 date_str) (fun date_str =>
  stored_as (varchar 36 number) (fun number =>
  upsert_schedule_row date_str number)).

(** [SELECT date, first_line_support FROM schedules WHERE date = %s] *)
Definition select_schedule (date_str : string) : stmt (option Schedule) := fun d =>
  Ok (find (fun s => date s =? date_str)%string (schedules d), d).

(** The [WHERE] clauses that [get_schedules] assembles.  Text is compared
    character by character, which on canonical [YYYY-MM-DD] dates is the
    calendar order. *)
Inductive clause : Type :=
| DateGe (bound : string)    (* "date >= %s" *)
| DateLe (bound : string).   (* "date <= %s" *)

Definition holds (s : Schedule) (c : clause) : bool :=
  match c with
  | DateGe bound => (bound <=? date s)%string
  | DateLe bound => (date s <=? bound)%string
  end.

(** [ORDER BY date ASC] *)
Fixpoint insert_by_date (s : Schedule) (l : list Schedule) : list Schedule :=
  match l with
  | [] => [s]
  | x :: tl => if (date s <=? date x)%string then s :: l
               else x :: insert_by_date s tl
  end.

Definition order_by_date (l : list Schedule) : list Schedule :=
  fold_right insert_by_date [] l.

(** [SELECT date, first_line_support FROM schedules [WHERE c1 [AND c2]]
    ORDER BY date ASC], [fetchall] *)
Definition select_schedules (where_clauses : list clause) : stmt (list Schedule) :=
  fun d =>
  Ok (order_by_date
        (filter (fun s => forallb (holds s) where_clauses) (schedules d)), d).

(** [UPDATE schedules SET first_line_support = %s WHERE date = %s]; the
    answer is [cursor.rowcount].  A row that is rewritten must reference an
    employee.  First on a value of the column type, then on the value as
    it is given; the date is only compared. *)
Definition update_schedule_row (number date_str : string) : stmt nat := fun d =>
  let hit := filter (fun s => date s =? date_str)%string (schedules d) in
  if andb (negb (Nat.eqb (List.length hit) 0)) (negb (has_employee number d))
  then Raise ForeignKeyViolation
  else Ok (List.length hit,
           set_schedules
             (map (fun s => if (date s =? date_str)%string
                            then mkSchedule (date s) number else s)
                  (schedules d)) d).

Definition update_schedule (number date_str : string) : stmt nat :=
  stored_as (varchar 36 number) (fun number =>
  update_schedule_row number date_str).

(** [DELETE FROM schedules WHERE date = %s]; the answer is
    [cursor.rowcount]. *)
Definition delete_schedule (date_str : string) : stmt nat := fun d =>
  Ok (List.length (filter (fun s => date s =? date_str)%string (schedules d)),
      set_schedules
        (filter (fun s => negb (date s =? date_str)%string) (schedules d)) d).

(** [UPDATE employees SET first_line_support_count = 0]; as for every
    [UPDATE], the order of the list is not that of a later scan. *)
Definition reset_counts : stmt unit := fun d =>
  Ok (tt, set_employees
            (map (fun e => mkEmployee (employee_number e) (name e) 0
                             (known_absences e) (metadata e)) (employees d)) d).

(** [SELECT first_line_support, COUNT( * ) FROM schedules GROUP BY
    first_line_support], [fetchall]: one pair for each employee number that
    occurs in [schedules]. *)
Definition count_of (number : string) (l : list Schedule) : Z :=
  Z.of_nat (List.length (filter (references number) l)).

Definition select_counts : stmt (list (string * Z)) := fun d =>
  Ok (map (fun number => (number, count_of number (schedules d)))
          (nodup string_dec (map first_line_support (schedules d))), d).

(** [UPDATE employees SET first_line_support_count = %s
    WHERE employee_number = %s].  The value written is a number of rows
    that the store has just counted in [schedules]; a table is taken to
    hold fewer than 2^31 rows, so that the value fits the [INT] column. *)
Definition set_count (count : Z) (number : string) : stmt unit := fun d =>
  Ok (tt, set_employees
            (map (fun e => if (employee_number e =? number)%string
                           then mkEmployee (employee_number e) (name e) count
                                  (known_absences e) (metadata e)
                           else e) (employees d)) d).

(** [SELECT ... FROM rules WHERE id = 'system_rules'], [fetchone] *)
Definition select_rules : stmt (option Rules) := fun d => Ok (rules d, d).

(** [INSERT INTO rules (id, max_days_per_week, preferred_balance)
    VALUES ('system_rules', %s, %s)], [max_days_per_week] being an [INT] *)
Definition insert_rules_row (m : Z) (b : Q) : stmt unit := fun d =>
  match rules d with
  | Some _ => Raise UniqueViolation
  | None => Ok (tt, set_rules (Some (mkRules m b)) d)
  end.

Definition insert_rules (m : Z) (b : Q) : stmt unit :=
  stored_as (integer m) (fun m => insert_rules_row m b).

(** [UPDATE rules SET max_days_per_week = %s, preferred_balance = %s
    WHERE id = 'system_rules']; the answer is [cursor.rowcount]. *)
Definition update_rules_row (m : Z) (b : Q) : stmt nat := fun d =>
  match rules d with
  | Some _ => Ok (1%nat, set_rules (Some (mkRules m b)) d)
  | None => Ok (0%nat, d)
  end.

Definition update_rules (m : Z) (b : Q) : stmt nat :=
  stored_as (integer m) (fun m => update_rules_row m b).

End Sql.

(** ** The world of a client

    [conn] is the attribute [self.conn]: [None], a live psycopg connection,
    or a connection object whose [closed] is true (a closed connection is
    still a truthy object).  [outcomes] scripts the store: each connection
    attempt and each statement sent on a live connection takes the next
    outcome; when the script is used up the store answers. *)

Inductive handle : Type := NoConn | Open | Closed.

Inductive outcome : Type :=
| Good    (* the store answers *)
| Fail    (* the attempt or statement raises; the connection stays usable *)
| Drop.   (* it raises and the connection is found closed afterwards *)

Record World : Type := mkWorld {
  db : DB;
  conn : handle;
  _is_query_service_ready : bool;
  _tables_created : bool;
  outcomes : list outcome;
  slept : list Q            (* the arguments of [time.sleep], oldest first *)
}.

Definition with_db (d : DB) (w : World) : World :=
  mkWorld d (conn w) (_is_query_service_ready w) (_tables_created w)
          (outcomes w) (slept w).
Definition with_conn (c : handle) (w : World) : World :=
  mkWorld (db w) c (_is_query_service_ready w) (_tables_created w)
          (outcomes w) (slept w).
Definition with_ready (b : bool) (w : World) : World :=
  mkWorld (db w) (conn w) b (_tables_created w) (outcomes w) (slept w).
Definition with_tables_created (b : bool) (w : World) : World :=
  mkWorld (db w) (conn w) (_is_query_service_ready w) b (outcomes w) (slept w).
Definition with_outcomes (o : list outcome) (w : World) : World :=
  mkWorld (db w) (conn w) (_is_query_service_ready w) (_tables_created w)
          o (slept w).
Definition with_slept (l : list Q) (w : World) : World :=
  mkWorld (db w) (conn w) (_is_query_service_ready w) (_tables_created w)
          (outcomes w) l.

Definition M (A : Type) : Type := World -> result A * World.

Definition ret {A : Type} (a : A) : M A := fun w => (Ok a, w).

Definition raise {A : Type} (e : exn) : M A := fun w => (Raise e, w).

Definition bind {A B : Type} (m : M A) (k : A -> M B) : M B := fun w =>
  match m w with
  | (Ok a, w') => k a w'
  | (Raise e, w') => (Raise e, w')
  end.

(** [try: m  except Exception as e: handler e] *)
Definition try_except {A : Type} (m : M A) (handler : exn -> M A) : M A :=
  fun w =>
  match m w with
  | (Ok a, w') => (Ok a, w')
  | (Raise e, w') => handler e w'
  end.

Declare Scope py_scope.
Delimit Scope py_scope with py.
Notation "x <- c1 ;; c2" := (bind c1 (fun x => c2))
  (at level 100, c1 at next level, right associativity) : py_scope.
Notation "' pat <- c1 ;; c2" := (bind c1 (fun x => match x with pat => c2 end))
  (at level 100, pat pattern, c1 at next level, right associativity) : py_scope.
Notation "c1 ;; c2" := (bind c1 (fun _ => c2))
  (at level 100, right associativity) : py_scope.
#[local] Open Scope py_scope.

Fixpoint for_each {A : Type} (l : list A) (body : A -> M unit) : M unit :=
  match l with
  | [] => ret tt
  | x :: tl => body x ;; for_each tl body
  end.

(** The next outcome of the script, and the world with the script moved
    past it. *)
Definition pop (w : World) : World := with_outcomes (tl (outcomes w)) w.

Definition next_outcome (w : World) : outcome * World :=
  (hd Good (outcomes w), pop w).

(** [psycopg.connect(..., autocommit=True)] and the assignment of its
    result to [self.conn]. *)
Definition psycopg_connect : M unit := fun w =>
  let (o, w1) := next_outcome w in
  match o with
  | Good => (Ok tt, with_conn Open w1)
  | Fail | Drop => (Raise OperationalError, w1)
  end.

(** [with self.conn.cursor() as cursor: cursor.execute(q)] for one
    statement [q], with the fetch that follows it. *)
Definition execute {A : Type} (q : stmt A) : M A := fun w =>
  match conn w with
  | NoConn => (Raise AttributeError, w)
  | Closed => (Raise OperationalError, w)
  | Open =>
      let (o, w1) := next_outcome w in
      match o with
      | Good => match q (db w1) with
                | Ok (a, d) => (Ok a, with_db d w1)
                | Raise e => (Raise e, w1)
                end
      | Fail => (Raise OperationalError, w1)
      | Drop => (Raise OperationalError, with_conn Closed w1)
      end
  end.

(** [time.sleep(delay)] *)
Definition sleep (delay : Q) : M unit := fun w =>
  (Ok tt, with_slept (slept w ++ [delay]) w).

(** [min(max_delay, delay * 1.5)] *)
Definition next_delay (max_delay delay : Q) : Q :=
  let grown := (delay * (3 # 2))%Q in
  if Qle_bool max_delay grown then max_delay else grown.

(** ** SchedulingClient: connection and initialisation *)

(** [_init_default_rules]: failures are logged and swallowed. *)
Definition _init_default_rules : M unit :=
  try_except
    (existing_rules <- execute Sql.select_rules ;;
     match existing_rules with
     | None => execute (Sql.insert_rules 3 (2 # 10))
     | Some _ => ret tt
     end)
    (fun _ => ret tt).

(** The part of [init] that follows its connection loop (from
    [if self._tables_created: return] on). *)
Definition init_tables : M unit := fun w =>
  if _tables_created w then (Ok tt, w)
  else
    try_except
      (execute Sql.create_if_not_exists ;;     (* CREATE SCHEMA *)
       execute Sql.create_if_not_exists ;;     (* CREATE TABLE employees *)
       execute Sql.create_if_not_exists ;;     (* CREATE TABLE schedules *)
       execute Sql.create_if_not_exists ;;     (* CREATE TABLE rules *)
       (fun w1 => (Ok tt, with_tables_created true w1)) ;;
       _init_default_rules)
      (fun e => raise e) w.

(** [connect]: one call of [psycopg.connect]; the parameters [max_retries],
    [initial_delay] and [max_delay] of the signature are not read by the
    body.  [self.init()] is called once [self.conn] has been assigned, so the
    guard [not self.conn] of [init]'s loop is false at that call and [init]
    runs as [init_tables]; whatever it raises is logged and dropped. *)
Definition connect (max_retries : nat) (initial_delay max_delay : Q) : M unit :=
  try_except
    (psycopg_connect ;;
     try_except init_tables (fun _ => ret tt))
    (fun conn_err => raise conn_err).

Definition connect_default : M unit := connect 30 1 10.

(** The loop of [init]:
    [while not self.conn and connection_attempts < max_retries].
    [remaining] is [max_retries - connection_attempts].  When
    [self.connect()] returns, [self.conn] is set ([connect_sets_conn]
    below) and the guard ends the loop. *)
Fixpoint init_loop (remaining : nat) (max_delay connection_delay : Q) : M unit :=
  fun w =>
  match conn w, remaining with
  | NoConn, S remaining' =>
      try_except connect_default
        (fun e =>
           match remaining' with
           | S _ =>                      (* connection_attempts < max_retries *)
               sleep connection_delay ;;
               init_loop remaining' max_delay (next_delay max_delay connection_delay)
           | O => raise e
           end) w
  | _, _ => (Ok tt, w)
  end.

Definition init (max_retries : nat) (initial_delay max_delay : Q) : M unit :=
  init_loop max_retries max_delay initial_delay ;;
  init_tables.

(** [if not self.conn or self.conn.closed: self.connect()], the first
    statement of every store method; it stands outside the method's [try]. *)
Definition connect_if_needed : M unit := fun w =>
  match conn w with
  | Open => (Ok tt, w)
  | NoConn | Closed => connect_default w
  end.

(** The [for attempt in range(1, max_retries + 1)] loop of [await_up];
    [attempts_left] counts the iterations still to run. *)
Fixpoint await_loop (attempts_left : nat) (max_delay delay : Q) : M unit :=
  match attempts_left with
  | O => raise NotAvailable
  | S attempts_left' =>
      try_except
        (execute Sql.select_1 ;;
         (fun w => (Ok tt, with_ready true w)))
        (fun _ =>
           sleep delay ;;
           try_except
             (fun w => match conn w with
                       | Closed => connect_default w
                       | _ => (Ok tt, w)
                       end)
             (fun _ => ret tt) ;;
           await_loop attempts_left' max_delay (next_delay max_delay delay))
  end.

Definition await_up (max_retries : nat) (initial_delay max_delay : Q) : M unit :=
  fun w =>
  if _is_query_service_ready w then (Ok tt, w)
  else
    ((fun w1 => match conn w1 with
                | NoConn => connect_default w1
                | _ => (Ok tt, w1)
                end) ;;
     await_loop max_retries max_delay initial_delay) w.

Definition await_up_default : M unit := await_up 30 1 10.

(** [close] *)
Definition close : M unit := fun w =>
  match conn w with
  | Open => (Ok tt, with_conn Closed w)
  | _ => (Ok tt, w)
  end.

(** ** SchedulingClient: employees *)

(** [x or default] for an optional argument (an empty list or dict is as
    good as [None] there). *)
Definition or_else {A : Type} (x : option A) (default : A) : A :=
  match x with
  | Some v => v
  | None => default
  end.

Definition create_employee (name employee_number : string)
    (known_absences : option (list string)) (metadata : option metadata_t)
    : M string :=
  connect_if_needed ;;
  let known_absences := or_else known_absences [] in
  let metadata := or_else metadata [] in
  try_except
    (execute (Sql.upsert_employee employee_number name 0 known_absences metadata) ;;
     ret employee_number)
    (fun e => raise e).

(** psycopg hands the two JSONB columns back decoded, so the
    [isinstance(..., str)] branches do not apply. *)
Definition get_employee (employee_number : string) : M (option Employee) :=
  connect_if_needed ;;
  try_except
    (execute (Sql.select_employee employee_number))
    (fun _ => ret None).

Definition get_employees : M (list Employee) :=
  connect_if_needed ;;
  await_up_default ;;
  try_except
    (execute Sql.select_employees)
    (fun e => raise e).

(** An item of the [updates] dict of [update_employee], by key.  The values
    have the type of their column; a key that is not a column only lands in
    the local dict. *)
Inductive employee_item : Type :=
| Item_name (value : string)
| Item_first_line_support_count (value : Z)
| Item_known_absences (value : list string)
| Item_metadata (value : metadata_t)
| Item_employee_number (value : string)
| Item_other (key : string).

(** [employee[key] = value] *)
Definition setitem (employee : Employee) (item : employee_item) : Employee :=
  match item with
  | Item_name v =>
      mkEmployee (employee_number employee) v (first_line_support_count employee)
                 (known_absences employee) (metadata employee)
  | Item_first_line_support_count v =>
      mkEmployee (employee_number employee) (name employee) v
                 (known_absences employee) (metadata employee)
  | Item_known_absences v =>
      mkEmployee (employee_number employee) (name employee)
                 (first_line_support_count employee) v (metadata employee)
  | Item_metadata v =>
      mkEmployee (employee_number employee) (name employee)
                 (first_line_support_count employee) (known_absences employee) v
  | Item_employee_number v =>
      mkEmployee v (name employee) (first_line_support_count employee)
                 (known_absences employee) (metadata employee)
  | Item_other _ => employee
  end.

Definition update_employee (employee_number : string)
    (updates : list employee_item) : M bool :=
  connect_if_needed ;;
  try_except
    (employee <- get_employee employee_number ;;
     match employee with
     | None => ret false
     | Some employee =>
         let employee := fold_left setitem updates employee in
         execute (Sql.update_employee (name employee)
                    (first_line_support_count employee)
                    (known_absences employee) (metadata employee)
                    employee_number) ;;
         ret true
     end)
    (fun _ => ret false).

Definition delete_employee (employee_number : string) : M bool :=
  connect_if_needed ;;
  try_except
    (employee <- get_employee employee_number ;;
     match employee with
     | None => ret false
     | Some _ =>
         affected_schedules <- execute (Sql.select_dates_of employee_number) ;;
         match affected_schedules with
         | [] => ret tt
         | _ :: _ => execute (Sql.delete_schedules_of employee_number)
         end ;;
         rows_deleted <- execute (Sql.delete_employee employee_number) ;;
         ret (0 <? rows_deleted)%nat
     end)
    (fun _ => ret false).

(** ** SchedulingClient: schedules *)

(** The [try] block of [_update_employee_counts]: reset every count, read
    the counts per employee, write them back one by one. *)
Definition count_statements : M unit :=
  execute Sql.reset_counts ;;
  employee_counts <- execute Sql.select_counts ;;
  for_each employee_counts
    (fun '(emp_id, count) => execute (Sql.set_count count emp_id)).

(** [_update_employee_counts]: a failure of its statements is logged and
    swallowed. *)
Definition _update_employee_counts : M unit :=
  connect_if_needed ;;
  try_except count_statements (fun _ => ret tt).

Definition create_schedule (date_str employee_number : string) : M string :=
  connect_if_needed ;;
  try_except
    (execute (Sql.upsert_schedule date_str employee_number) ;;
     _update_employee_counts ;;
     ret date_str)
    (fun e => raise e).

Definition get_schedule (date_str : string) : M (option Schedule) :=
  connect_if_needed ;;
  try_except
    (execute (Sql.select_schedule date_str))
    (fun _ => ret None).

(** The truth value of an optional string argument: [None] and the empty
    string are false. *)
Definition truthy (s : option string) : bool :=
  match s with
  | Some s => negb (s =? "")%string
  | None => false
  end.

Definition get_schedules (start_date end_date : option string)
    : M (list Schedule) :=
  connect_if_needed ;;
  await_up_default ;;
  try_except
    (let where_clauses : list Sql.clause := [] in
     let where_clauses :=
       if truthy start_date
       then (where_clauses ++ [Sql.DateGe (or_else start_date "")])%list
       else where_clauses in
     let where_clauses :=
       if truthy end_date
       then (where_clauses ++ [Sql.DateLe (or_else end_date "")])%list
       else where_clauses in
     execute (Sql.select_schedules where_clauses))
    (fun e => raise e).

Definition update_schedule (date_str employee_number : string) : M bool :=
  connect_if_needed ;;
  try_except
    (schedule <- get_schedule date_str ;;
     match schedule with
     | None => ret false
     | Some _ =>
         rows_updated <- execute (Sql.update_schedule employee_number date_str) ;;
         if (0 <? rows_updated)%nat
         then _update_employee_counts ;; ret true
         else ret false
     end)
    (fun _ => ret false).

Definition delete_schedule (date_str : string) : M bool :=
  connect_if_needed ;;
  try_except
    (schedule <- get_schedule date_str ;;
     match schedule with
     | None => ret false
     | Some _ =>
         rows_deleted <- execute (Sql.delete_schedule date_str) ;;
         if (0 <? rows_deleted)%nat
         then _update_employee_counts ;; ret true
         else ret false
     end)
    (fun _ => ret false).

(** ** SchedulingClient: rules *)

Definition default_rules : Rules := mkRules 3 (2 # 10).

Definition get_rules : M Rules :=
  connect_if_needed ;;
  try_except
    (result <- execute Sql.select_rules ;;
     result <- match result with
               | None => _init_default_rules ;; execute Sql.select_rules
               | Some _ => ret result
               end ;;
     match result with
     | None => ret default_rules
     | Some r => ret r
     end)
    (fun _ => ret default_rules).

(** An item of the [updates] dict of [update_rules]; a value may be
    [None]. *)
Inductive rule_item : Type :=
| Rule_max_days_per_week (value : option Z)
| Rule_preferred_balance (value : option Q)
| Rule_other (key : string).

(** [if value is not None: current_rules[key] = value] *)
Definition set_rule (current_rules : Rules) (item : rule_item) : Rules :=
  match item with
  | Rule_max_days_per_week (Some v) => mkRules v (preferred_balance current_rules)
  | Rule_preferred_balance (Some v) => mkRules (max_days_per_week current_rules) v
  | _ => current_rules
  end.

Definition update_rules (updates : list rule_item) : M bool :=
  connect_if_needed ;;
  try_except
    (current_rules <- get_rules ;;
     let current_rules := fold_left set_rule updates current_rules in
     rows_updated <- execute (Sql.update_rules (max_days_per_week current_rules)
                                (preferred_balance current_rules)) ;;
     (if Nat.eqb rows_updated 0
      then execute (Sql.insert_rules (max_days_per_week current_rules)
                      (preferred_balance current_rules))
      else ret tt) ;;
     ret true)
    (fun _ => ret false).

(** ** main.py: the bootstrap [init_default_data]

    A [datetime.date] is its day number, counted from 1970-01-01 in the
    proleptic Gregorian calendar: [d + timedelta(days=i)] is [d + i] and
    [(a - b).days] is [a - b]. *)

Definition days_from_civil (y m d : Z) : Z :=
  let y := if m <=? 2 then y - 1 else y in
  let era := y / 400 in
  let yoe := y - era * 400 in
  let doy := (153 * (if 2 <? m then m - 3 else m + 9) + 2) / 5 + d - 1 in
  let doe := yoe * 365 + yoe / 4 - yoe / 100 + doy in
  era * 146097 + doe - 719468.

Definition civil_from_days (z : Z) : Z * Z * Z :=
  let z := z + 719468 in
  let era := z / 146097 in
  let doe := z - era * 146097 in
  let yoe := (doe - doe / 1460 + doe / 36524 - doe / 146096) / 365 in
  let doy := doe - (365 * yoe + yoe / 4 - yoe / 100) in
  let mp := (5 * doy + 2) / 153 in
  let d := doy - (153 * mp + 2) / 5 + 1 in
  let m := if mp <? 10 then mp + 3 else mp - 9 in
  ((if m <=? 2 then yoe + era * 400 + 1 else yoe + era * 400), m, d).

Definition digit (n : Z) : ascii := ascii_of_nat (48 + Z.to_nat (n mod 10)).

Definition two_digits (n : Z) : string :=
  String (digit (n / 10)) (String (digit n) EmptyString).

Definition four_digits (n : Z) : string :=
  String (digit (n / 1000)) (String (digit (n / 100)) (two_digits n)).

(** [day.strftime("%Y-%m-%d")], for the years 1000 to 9999 *)
Definition strftime_ymd (day : Z) : string :=
  let '(y, m, d) := civil_from_days day in
  (four_digits y ++ "-" ++ two_digits m ++ "-" ++ two_digits d)%string.

(** [datetime(2024, 1, 1).date()] *)
Definition reference_date : Z := days_from_civil 2024 1 1.

(** The dicts of [default_employees]. *)
Record DefaultEmployee : Type := mkDefault {
  d_name : string;
  d_employee_number : string;
  d_known_absences : list string
}.

Definition absence_patterns : list (string * Z) :=
  [("EMP001", 3); ("EMP002", 5); ("EMP004", 7)].

Definition default_employees : list DefaultEmployee :=
  [mkDefault "Lars Larsson" "EMP001" [];
   mkDefault "Dagobert Dagobertsson" "EMP002" [];
   mkDefault "Karl-Gustav Karlgustavsson" "EMP003" [];
   mkDefault "Kerstin Kerstinsdotter" "EMP004" [];
   mkDefault "Maj-Britt Majbrittdotter" "EMP005" []].

(** [absence_patterns[employee_id]], when the key is there *)
Fixpoint pattern_of (employee_id : string) (patterns : list (string * Z))
    : option Z :=
  match patterns with
  | [] => None
  | (k, v) :: tl => if (k =? employee_id)%string then Some v
                    else pattern_of employee_id tl
  end.

(** The inner loop [for i in range(30)] that collects the absences. *)
Definition pattern_absences (today pattern_days : Z) : list string :=
  fold_left
    (fun absences i =>
       let check_date := today + Z.of_nat i in
       let days_since_reference := check_date - reference_date in
       if days_since_reference mod pattern_days =? 0
       then (absences ++ [strftime_ymd check_date])%list
       else absences)
    (seq 0 30) [].

(** [default_employees] after the loop that fills in [known_absences]. *)
Definition with_absences (today : Z) (emps : list DefaultEmployee)
    : list DefaultEmployee :=
  map (fun emp =>
         match pattern_of (d_employee_number emp) absence_patterns with
         | Some pattern_days =>
             mkDefault (d_name emp) (d_employee_number emp)
                       (pattern_absences today pattern_days)
         | None => emp
         end) emps.

(** [date_str in e["known_absences"]] *)
Definition absent_on (date_str : string) (e : DefaultEmployee) : bool :=
  existsb (fun a => (a =? date_str)%string) (d_known_absences e).

(** [l[i % len(l)]] *)
Definition item_mod {A : Type} (l : list A) (i : nat) : result A :=
  match nth_error l (i mod List.length l) with
  | Some x => Ok x
  | None => Raise ZeroDivisionError
  end.

(** The choice of [emp_number] in the front-fill loop. *)
Definition choose_employee (emps : list DefaultEmployee) (i : nat)
    (date_str : string) : result string :=
  let available_employees := filter (fun e => negb (absent_on date_str e)) emps in
  match available_employees with
  | _ :: _ =>
      match item_mod available_employees i with
      | Ok e => Ok (d_employee_number e)
      | Raise x => Raise x
      end
  | [] =>
      match item_mod emps i with
      | Ok e => Ok (d_employee_number e)
      | Raise x => Raise x
      end
  end.

(** One iteration of [for i in range(7)]. *)
Definition front_fill_day (today : Z) (emps : list DefaultEmployee) (i : nat)
    : M unit :=
  let day := today + Z.of_nat i in
  let date_str := strftime_ymd day in
  existing_schedule <- get_schedule date_str ;;
  match existing_schedule with
  | Some _ => ret tt                                   (* continue *)
  | None =>
      emp_number <- (fun w => (choose_employee emps i date_str, w)) ;;
      try_except
        (create_schedule date_str emp_number ;; ret tt)
        (fun _ => ret tt)
  end.

Definition front_fill (today : Z) (emps : list DefaultEmployee) : M unit :=
  for_each (seq 0 7) (front_fill_day today emps).

Definition init_default_data (today : Z) : M unit :=
  employees <- get_employees ;;
  let default_employees := with_absences today default_employees in
  match employees with
  | [] =>
      for_each default_employees
        (fun emp =>
           try_except
             (create_employee (d_name emp) (d_employee_number emp)
                              (Some (d_known_absences emp)) None ;;
              ret tt)
             (fun _ => ret tt))
  | _ :: _ =>
      for_each default_employees
        (fun emp =>
           try_except
             (existing_employee <- get_employee (d_employee_number emp) ;;
              match existing_employee with
              | Some _ =>
                  update_employee (d_employee_number emp)
                    [Item_known_absences (d_known_absences emp)] ;;
                  ret tt
              | None => ret tt
              end)
             (fun _ => ret tt))
  end ;;
  front_fill today default_employees.

(** * Properties *)

(** ** Vocabulary of the statements *)

(** No failure is scripted. *)
Definition calm (w : World) : Prop := Forall (fun o => o = Good) (outcomes w).

(** A live connection and no failure scripted. *)
Definition steady (w : World) : Prop := conn w = Open /\ calm w.

(** A method [keeps] a relation [P] between the store before and the store
    after, if every run of it does, whatever its result and the script. *)
Definition keeps {A : Type} (P : DB -> DB -> Prop) (m : M A) : Prop :=
  forall w r w', m w = (r, w') -> P (db w) (db w').

(** A statement keeps [P] when it does so each time it answers. *)
Definition stmt_keeps {A : Type} (P : DB -> DB -> Prop) (q : stmt A) : Prop :=
  forall d a d', q d = Ok (a, d') -> P d d'.

(** The two tables that carry the duty data are the same. *)
Definition same_tables (d d' : DB) : Prop :=
  employees d' = employees d /\ schedules d' = schedules d.

(** The employee row stored under a number, and its duty count. *)
Definition stored (number : string) (d : DB) : option Employee :=
  find (fun e => employee_number e =? number)%string (employees d).

Definition stored_count (number : string) (d : DB) : option Z :=
  option_map first_line_support_count (stored number d).

(** Invariant 2 of the data model: every stored duty count is the number of
    schedule rows that reference the employee. *)
Definition counts_consistent (d : DB) : Prop :=
  Forall (fun e => first_line_support_count e
                   = Sql.count_of (employee_number e) (schedules d))
         (employees d).

(** The [PRIMARY KEY] of [employees]. *)
Definition employee_keys_unique (d : DB) : Prop :=
  NoDup (map employee_number (employees d)).

(** An employee row with its duty count replaced. *)
Definition with_count (count : Z) (e : Employee) : Employee :=
  mkEmployee (employee_number e) (name e) count (known_absences e) (metadata e).

(** The [employees] table after a reconciliation that ran to its end. *)
Definition reconciled (emps : list Employee) (scheds : list Schedule)
    : list Employee :=
  map (fun e => with_count (Sql.count_of (employee_number e) scheds) e) emps.

(** The tables after the two [DELETE]s of [delete_employee]. *)
Definition without_employee (number : string) (emps : list Employee)
    : list Employee :=
  filter (fun e => negb (employee_number e =? number)%string) emps.

Definition without_references (number : string) (scheds : list Schedule)
    : list Schedule :=
  filter (fun s => negb (Sql.references number s)) scheds.

(** A method never turns the handle back into [None]. *)
Definition holds_conn {A : Type} (m : M A) : Prop :=
  forall w r w', m w = (r, w') -> conn w <> NoConn -> conn w' <> NoConn.

(** The [employees] table after the upsert of [create_employee]. *)
Definition upsert_rows (number nm : string) (absences : list string)
    (md : metadata_t) (emps : list Employee) : list Employee :=
  if existsb (fun e => employee_number e =? number)%string emps
  then map (fun e => if (employee_number e =? number)%string
                     then mkEmployee (employee_number e) nm
                            (first_line_support_count e) absences md
                     else e) emps
  else emps ++ [mkEmployee number nm 0 absences md].

(** The [employees] table after the [UPDATE] of [update_employee] wrote the
    merged record [m] over the rows that bear [number]. *)
Definition overwrite_rows (number : string) (m : Employee)
    (emps : list Employee) : list Employee :=
  map (fun e => if (employee_number e =? number)%string
                then mkEmployee (employee_number e) (name m)
                       (first_line_support_count m) (known_absences m)
                       (metadata m)
                else e) emps.

(** The value under the key [first_line_support_count] of an [updates]
    dict, if the key is there; and the same for the keys [name],
    [known_absences] and [metadata]. *)
Definition supplied_count (updates : list employee_item) : option Z :=
  fold_left (fun acc item =>
               match item with
               | Item_first_line_support_count v => Some v
               | _ => acc
               end) updates None.

Definition supplied_name (updates : list employee_item) : option string :=
  fold_left (fun acc item =>
               match item with
               | Item_name v => Some v
               | _ => acc
               end) updates None.

Definition supplied_absences (updates : list employee_item)
    : option (list string) :=
  fold_left (fun acc item =>
               match item with
               | Item_known_absences v => Some v
               | _ => acc
               end) updates None.

Definition supplied_metadata (updates : list employee_item) : option metadata_t :=
  fold_left (fun acc item =>
               match item with
               | Item_metadata v => Some v
               | _ => acc
               end) updates None.

(** The row that [update_employee] is to leave under [number]: each column
    holds the value supplied under its key, or else the value of [before];
    the number is not a column that is written. *)
Definition updated_row (number : string) (updates : list employee_item)
    (before : Employee) : Employee :=
  mkEmployee number
    (or_else (supplied_name updates) (name before))
    (or_else (supplied_count updates) (first_line_support_count before))
    (or_else (supplied_absences updates) (known_absences before))
    (or_else (supplied_metadata updates) (metadata before)).

(** The calls a user of the client can make, the three schedule mutations
    apart. *)
Inductive call : Type :=
| Call_connect
| Call_init
| Call_await_up
| Call_close
| Call_create_employee (nm number : string) (absences : option (list string))
                       (md : option metadata_t)
| Call_get_employee (number : string)
| Call_get_employees
| Call_update_employee (number : string) (updates : list employee_item)
| Call_delete_employee (number : string)
| Call_get_schedule (date_str : string)
| Call_get_schedules (start_date end_date : option string)
| Call_get_rules
| Call_update_rules (updates : list rule_item).

(** The world after a call, whatever it returned or raised. *)
Definition after (c : call) (w : World) : World :=
  match c with
  | Call_connect => snd (connect_default w)
  | Call_init => snd (init 30 1 10 w)
  | Call_await_up => snd (await_up_default w)
  | Call_close => snd (close w)
  | Call_create_employee nm number absences md =>
      snd (create_employee nm number absences md w)
  | Call_get_employee number => snd (get_employee number w)
  | Call_get_employees => snd (get_employees w)
  | Call_update_employee number updates => snd (update_employee number updates w)
  | Call_delete_employee number => snd (delete_employee number w)
  | Call_get_schedule date_str => snd (get_schedule date_str w)
  | Call_get_schedules a b => snd (get_schedules a b w)
  | Call_get_rules => snd (get_rules w)
  | Call_update_rules updates => snd (update_rules updates w)
  end.

Definition after_all (calls : list call) (w : World) : World :=
  fold_left (fun w c => after c w) calls w.

(** Calls that are not meant to change the duty count stored for
    [number]: every call but an [update_employee] of that employee that
    carries the key, and the deletion of that employee. *)
Definition leaves_count (number : string) (c : call) : Prop :=
  match c with
  | Call_update_employee n updates => n <> number \/ supplied_count updates = None
  | Call_delete_employee n => n <> number
  | _ => True
  end.

(** The reading of a range bound by [get_schedules]: a bound that is
    omitted or empty does not bound. *)
Definition effective (bound : option string) : option string :=
  match bound with
  | Some "" => None
  | _ => bound
  end.

Definition above (lo : option string) (s : Schedule) : bool :=
  match lo with
  | Some lo => (lo <=? date s)%string
  | None => true
  end.

Definition below (hi : option string) (s : Schedule) : bool :=
  match hi with
  | Some hi => (date s <=? hi)%string
  | None => true
  end.

(** The rows of a range, with the bounds as [get_schedules] reads them... *)
Definition in_range (start_date end_date : option string) (s : Schedule) : bool :=
  above (effective start_date) s && below (effective end_date) s.

(** ... and with every bound that is given taken as a bound. *)
Definition in_stated_range (start_date end_date : option string) (s : Schedule)
    : bool :=
  above start_date s && below end_date s.

(** Ascending by date. *)
Definition ascending (l : list Schedule) : Prop :=
  Sorted (fun x y => (date x <=? date y)%string = true) l.

(** The relation kept by every call that leaves the count of [n] alone: a
    count that is stored stays stored. *)
Definition count_kept (n : string) (d d' : DB) : Prop :=
  forall v, stored_count n d = Some v -> stored_count n d' = Some v.

(** The same employee numbers, row by row. *)
Definition same_numbers (d d' : DB) : Prop :=
  map employee_number (employees d') = map employee_number (employees d).

(** The [schedules] table after the upsert of [create_schedule]. *)
Definition upsert_schedule_rows (date_str number : string)
    (scheds : list Schedule) : list Schedule :=
  if existsb (fun s => date s =? date_str)%string scheds
  then map (fun s => if (date s =? date_str)%string
                     then mkSchedule (date s) number else s) scheds
  else scheds ++ [mkSchedule date_str number].

(** The schedule rows of a date. *)
Definition rows_on (date_str : string) (d : DB) : list Schedule :=
  filter (fun s => date s =? date_str)%string (schedules d).

(** The date at offset [i] of the window that starts [today], and the
    employees of the bootstrap that are not listed as absent on a date. *)
Definition window_date (today : Z) (i : nat) : string :=
  strftime_ymd (today + Z.of_nat i).

Definition eligible (emps : list DefaultEmployee) (date_str : string)
    : list DefaultEmployee :=
  filter (fun e => if in_dec string_dec date_str (d_known_absences e)
                   then false else true) emps.

(** The employee numbers fit the column [first_line_support]. *)
Definition numbers_fit (emps : list DefaultEmployee) : Prop :=
  Forall (fun e => (String.length (d_employee_number e) <= 36)%nat) emps.

(** The names fit the column [name]. *)
Definition names_fit (emps : list DefaultEmployee) : Prop :=
  Forall (fun e => (String.length (d_name e) <= 255)%nat) emps.

(** What one day of the front-fill does to the rows of its date: rows that
    exist stay; otherwise the chosen employee is assigned, provided the
    store knows the employee (if not, [create_schedule] raises and the
    failure is logged and dropped). *)
Definition day_filled (emps : list DefaultEmployee) (today : Z) (i : nat)
    (before after : DB) : Prop :=
  match rows_on (window_date today i) before with
  | _ :: _ => rows_on (window_date today i) after = rows_on (window_date today i) before
  | [] =>
      forall k, choose_employee emps i (window_date today i) = Ok k ->
        rows_on (window_date today i) after
        = if Sql.has_employee k before
          then [mkSchedule (window_date today i) k]
          else []
  end.

(** Sample rows and worlds for the concrete runs below. *)
Definition ada : Employee := mkEmployee "E1" "Ada" 0 [] [].
Definition bob : Employee := mkEmployee "E2" "Bob" 0 [] [].

(** A store with two employees and three duties, entered out of order. *)
Definition office : DB :=
  mkDB [with_count 2 ada; with_count 1 bob]
       [mkSchedule "2024-02-03" "E1"; mkSchedule "2024-02-01" "E1";
        mkSchedule "2024-02-02" "E2"]
       None.

(** A client that holds a live connection to a store whose tables were
    created, with a script of outcomes to come. *)
Definition live (d : DB) (script : list outcome) : World :=
  mkWorld d Open true true script [].

(** A client that has not connected yet. *)
Definition fresh (d : DB) (script : list outcome) : World :=
  mkWorld d NoConn false false script [].

(** The world after a caller has set the duty count of [E1] to 7. *)
Definition tampered : World :=
  snd (update_employee "E1" [Item_first_line_support_count 7] (live office [])).

(** 2024-03-01, and the store once the five default employees have been
    created on that day. *)
Definition march_1 : Z := days_from_civil 2024 3 1.


(** Invariant 1 of the data model: every schedule row references a stored
    employee. *)
Definition references_resolve (d : DB) : Prop :=
  forall s, In s (schedules d) -> Sql.has_employee (first_line_support s) d = true.

(** The first [k] delays of a backoff that starts at [delay]. *)
Fixpoint backoff (max_delay delay : Q) (k : nat) : list Q :=
  match k with
  | O => []
  | S k' => delay :: backoff max_delay (next_delay max_delay delay) k'
  end.

(** The [rules] row after the seeding of [_init_default_rules]. *)
Definition seeded (r : option Rules) : option Rules :=
  match r with
  | Some r => Some r
  | None => Some default_rules
  end.

(** The value that an [updates] dict of [update_rules] carries under the
    key [max_days_per_week], or under [preferred_balance], if the key is
    there with a value that is not [None]; and the rules that
    [update_rules] is to leave: each column holds the value supplied for
    it, or else the value of [before]. *)
Definition supplied_max_days (updates : list rule_item) : option Z :=
  fold_left (fun acc item =>
               match item with
               | Rule_max_days_per_week (Some v) => Some v
               | _ => acc
               end) updates None.

Definition supplied_balance (updates : list rule_item) : option Q :=
  fold_left (fun acc item =>
               match item with
               | Rule_preferred_balance (Some v) => Some v
               | _ => acc
               end) updates None.

Definition updated_rules (updates : list rule_item) (before : Rules) : Rules :=
  mkRules (or_else (supplied_max_days updates) (max_days_per_week before))
          (or_else (supplied_balance updates) (preferred_balance before)).

(** The range of the column type [INT]. *)
Definition in_int_range (z : Z) : Prop := -2147483648 <= z <= 2147483647.

(** What a row of [employees] says apart from the duty count. *)
Definition profile (e : Employee) : string * string * list string * metadata_t :=
  (employee_number e, name e, known_absences e, metadata e).

(** The same employees up to their duty counts, and up to the order of
    the rows. *)
Definition same_profiles (d d' : DB) : Prop :=
  Permutation (map profile (employees d')) (map profile (employees d)).

(** Every stored duty count is 0 or the number of schedule rows that
    reference the employee. *)
Definition counts_zero_or_right (d : DB) : Prop :=
  Forall (fun e => first_line_support_count e = 0
                   \/ first_line_support_count e
                      = Sql.count_of (employee_number e) (schedules d))
         (employees d).

Create HintDb steady.
Create HintDb keeps.

(** ** Column types *)

Lemma varchar_fits n s : (String.length s <= n)%nat -> Sql.varchar n s = Ok s.
Proof.
  intros H. unfold Sql.varchar. now rewrite (proj2 (Nat.leb_le _ _) H).
Qed.

Lemma integer_fits z :
  -2147483648 <= z <= 2147483647 -> Sql.integer z = Ok z.
Proof.
  intros [H1 H2]. unfold Sql.integer.
  now rewrite (proj2 (Z.leb_le _ _) H1), (proj2 (Z.leb_le _ _) H2).
Qed.

Lemma integer_inv z z' : Sql.integer z = Ok z' -> z' = z.
Proof. unfold Sql.integer. destruct (_ && _); [now intros [= <-] | discriminate]. Qed.

Lemma stored_as_inv {A B} (v : result A) (q : A -> stmt B) d b d' :
  Sql.stored_as v q d = Ok (b, d') -> exists a, v = Ok a /\ q a d = Ok (b, d').
Proof. unfold Sql.stored_as. destruct v as [a|e]; [eauto | discriminate]. Qed.

(** ** Worlds in which the store answers *)

Lemma calm_hd w : calm w -> hd Good (outcomes w) = Good.
Proof.
  unfold calm. destruct (outcomes w) as [|o l]; simpl; trivial.
  intros H. now inversion H.
Qed.

Lemma calm_pop w : calm w -> calm (pop w).
Proof.
  unfold calm, pop. simpl. destruct (outcomes w) as [|o l]; simpl; trivial.
  intros H. now inversion H.
Qed.

Lemma steady_pop w : steady w -> steady (pop w).
Proof. intros [Hc Hk]. split; [exact Hc | now apply calm_pop]. Qed.

Lemma steady_with_db d w : steady w -> steady (with_db d w).
Proof. intros [Hc Hk]. split; assumption. Qed.

Lemma steady_with_ready b w : steady w -> steady (with_ready b w).
Proof. intros [Hc Hk]. split; assumption. Qed.

Lemma steady_with_tables_created b w : steady w -> steady (with_tables_created b w).
Proof. intros [Hc Hk]. split; assumption. Qed.

Lemma steady_calm w : steady w -> calm w.
Proof. now intros [_ H]. Qed.

#[local] Hint Resolve calm_pop steady_pop steady_with_db steady_with_ready
  steady_with_tables_created steady_calm : steady.

(** On a steady world a statement is answered. *)
Lemma execute_steady {A} (q : stmt A) w :
  steady w ->
  execute q w = match q (db w) with
                | Ok (a, d) => (Ok a, with_db d (pop w))
                | Raise e => (Raise e, pop w)
                end.
Proof.
  intros [Hc Hk]. unfold execute, next_outcome. rewrite Hc, (calm_hd _ Hk).
  reflexivity.
Qed.

Lemma connect_if_needed_steady w : steady w -> connect_if_needed w = (Ok tt, w).
Proof. intros [Hc _]. unfold connect_if_needed. now rewrite Hc. Qed.

(** Whatever the script, a statement that raises leaves the store as it
    was, and one that returns has run on a live connection. *)
Lemma execute_inv {A} (q : stmt A) w r w' :
  execute q w = (r, w') ->
  (exists e, r = Raise e /\ db w' = db w) \/
  (exists a, r = Ok a /\ q (db w) = Ok (a, db w') /\ conn w = Open /\ conn w' = Open).
Proof.
  unfold execute, next_outcome. destruct (conn w) eqn:Hc.
  - intros [= <- <-]. left. eauto.
  - destruct (hd Good (outcomes w)).
    + simpl. destruct (q (db w)) as [[a d]|e] eqn:Hq.
      * intros [= <- <-]. right. exists a. simpl. auto.
      * intros [= <- <-]. left. eauto.
    + intros [= <- <-]. left. eauto.
    + intros [= <- <-]. left. eauto.
  - intros [= <- <-]. left. eauto.
Qed.

(** ** Relations that the methods keep *)

Section Keeps.
Variable P : DB -> DB -> Prop.
Hypothesis P_refl : forall d, P d d.
Hypothesis P_trans : forall a b c, P a b -> P b c -> P a c.

Lemma keeps_ret {A} (a : A) : keeps P (ret a).
Proof. intros w r w' [= <- <-]. apply P_refl. Qed.

Lemma keeps_raise {A} e : keeps P (@raise A e).
Proof. intros w r w' [= <- <-]. apply P_refl. Qed.

Lemma keeps_bind {A B} (m : M A) (k : A -> M B) :
  keeps P m -> (forall a, keeps P (k a)) -> keeps P (bind m k).
Proof.
  intros Hm Hk w r w'. unfold bind.
  destruct (m w) as [[a|e] w1] eqn:E; intros H.
  - eapply P_trans; [eapply Hm; exact E | eapply Hk; exact H].
  - injection H as <- <-. eapply Hm; exact E.
Qed.

Lemma keeps_try {A} (m : M A) (h : exn -> M A) :
  keeps P m -> (forall e, keeps P (h e)) -> keeps P (try_except m h).
Proof.
  intros Hm Hh w r w'. unfold try_except.
  destruct (m w) as [[a|e] w1] eqn:E; intros H.
  - injection H as <- <-. eapply Hm; exact E.
  - eapply P_trans; [eapply Hm; exact E | eapply Hh; exact H].
Qed.

Lemma keeps_for_each {A} (l : list A) (body : A -> M unit) :
  (forall x, keeps P (body x)) -> keeps P (for_each l body).
Proof.
  intros Hb. induction l as [|x l IH]; simpl.
  - apply keeps_ret.
  - apply keeps_bind; auto.
Qed.

Lemma keeps_execute {A} (q : stmt A) : stmt_keeps P q -> keeps P (execute q).
Proof.
  intros Hq w r w' H. apply execute_inv in H.
  destruct H as [(e & _ & ->) | (a & _ & Hd & _)].
  - apply P_refl.
  - eapply Hq; exact Hd.
Qed.

(** A step that does not touch the store. *)
Lemma keeps_same_db {A} (m : M A) :
  (forall w, db (snd (m w)) = db w) -> keeps P m.
Proof.
  intros H w r w' E. specialize (H w). rewrite E in H. simpl in H.
  rewrite H. apply P_refl.
Qed.

Lemma keeps_psycopg_connect : keeps P psycopg_connect.
Proof.
  apply keeps_same_db. intros w. unfold psycopg_connect, next_outcome.
  now destruct (hd Good (outcomes w)).
Qed.

Lemma keeps_sleep q : keeps P (sleep q).
Proof. apply keeps_same_db. reflexivity. Qed.

End Keeps.

Lemma same_tables_refl d : same_tables d d.
Proof. split; reflexivity. Qed.

Lemma same_tables_trans a b c : same_tables a b -> same_tables b c -> same_tables a c.
Proof. intros [H1 H2] [H3 H4]. split; congruence. Qed.

(** A statement that only reads. *)
Lemma stmt_keeps_read {A} (P : DB -> DB -> Prop) (f : DB -> A) :
  (forall d, P d d) -> stmt_keeps P (fun d => Ok (f d, d)).
Proof. intros Hr d a d' [= _ <-]. apply Hr. Qed.

(** A statement that stores converted values keeps what it keeps on the
    values that the conversion lets through. *)
Lemma stored_as_keeps {A B} (P : DB -> DB -> Prop) (v : result A) (q : A -> stmt B) :
  (forall a, v = Ok a -> stmt_keeps P (q a)) -> stmt_keeps P (Sql.stored_as v q).
Proof.
  intros H d b d' E. apply stored_as_inv in E. destruct E as (a & Ha & E).
  exact (H a Ha _ _ _ E).
Qed.

Ltac stored x :=
  let y := fresh in
  apply stored_as_keeps; intros y _; try clear x; try rename y into x.

(** Combinator steps for a goal [keeps P m], [P] a preorder; the lemmas
    already proved about the methods are taken from the [keeps] hints. *)
Ltac keeps_step Hrefl Htrans :=
  first
    [ solve [auto with keeps]
    | match goal with
      | |- keeps _ (match ?x with _ => _ end) => destruct x
      | |- keeps _ (if ?x then _ else _) => destruct x
      end
    | apply (keeps_ret _ Hrefl)
    | apply (keeps_raise _ Hrefl)
    | apply (keeps_sleep _ Hrefl)
    | apply (keeps_psycopg_connect _ Hrefl)
    | apply (keeps_bind _ Htrans)
    | apply (keeps_try _ Htrans)
    | apply (keeps_for_each _ Hrefl Htrans)
    | apply (keeps_execute _ Hrefl)
    | apply (keeps_same_db _ Hrefl); reflexivity
    | apply (stmt_keeps_read _ _ Hrefl)
    | apply (stmt_keeps_read _ (fun _ => tt) Hrefl) ];
  intros.

Ltac keeps_tables := repeat keeps_step same_tables_refl same_tables_trans.

Lemma insert_rules_tables m b : stmt_keeps same_tables (Sql.insert_rules m b).
Proof.
  unfold Sql.insert_rules. stored m.
  intros d a d'. unfold Sql.insert_rules_row. destruct (rules d); [discriminate|].
  intros [= _ <-]. split; reflexivity.
Qed.

Lemma update_rules_tables m b : stmt_keeps same_tables (Sql.update_rules m b).
Proof.
  unfold Sql.update_rules. stored m.
  intros d a d'. unfold Sql.update_rules_row.
  destruct (rules d); intros [= _ <-]; split; reflexivity.
Qed.

#[local] Hint Resolve insert_rules_tables update_rules_tables : keeps.

Lemma _init_default_rules_tables : keeps same_tables _init_default_rules.
Proof. unfold _init_default_rules. keeps_tables. Qed.

#[local] Hint Resolve _init_default_rules_tables : keeps.

Lemma init_tables_tables : keeps same_tables init_tables.
Proof.
  intros w r w'. unfold init_tables. destruct (_tables_created w).
  - intros [= <- <-]. apply same_tables_refl.
  - revert w r w'.
    change (keeps same_tables
      (try_except
         (execute Sql.create_if_not_exists ;;
          execute Sql.create_if_not_exists ;;
          execute Sql.create_if_not_exists ;;
          execute Sql.create_if_not_exists ;;
          (fun w1 => (Ok tt, with_tables_created true w1)) ;;
          _init_default_rules)
         (fun e => raise e))).
    keeps_tables.
Qed.

#[local] Hint Resolve init_tables_tables : keeps.

Lemma connect_tables mr i md : keeps same_tables (connect mr i md).
Proof. unfold connect. keeps_tables. Qed.

#[local] Hint Resolve connect_tables : keeps.

Lemma connect_if_needed_tables : keeps same_tables connect_if_needed.
Proof.
  intros w r w'. unfold connect_if_needed. destruct (conn w).
  - apply connect_tables.
  - intros [= <- <-]. apply same_tables_refl.
  - apply connect_tables.
Qed.

#[local] Hint Resolve connect_if_needed_tables : keeps.

Lemma reconnect_if_closed_tables :
  keeps same_tables
    (fun w => match conn w with Closed => connect_default w | _ => (Ok tt, w) end).
Proof.
  intros w r w'. destruct (conn w).
  - intros [= <- <-]. apply same_tables_refl.
  - intros [= <- <-]. apply same_tables_refl.
  - apply connect_tables.
Qed.

Lemma connect_if_none_tables :
  keeps same_tables
    (fun w => match conn w with NoConn => connect_default w | _ => (Ok tt, w) end).
Proof.
  intros w r w'. destruct (conn w).
  - apply connect_tables.
  - intros [= <- <-]. apply same_tables_refl.
  - intros [= <- <-]. apply same_tables_refl.
Qed.

#[local] Hint Resolve reconnect_if_closed_tables connect_if_none_tables : keeps.

Lemma await_loop_tables n md d : keeps same_tables (await_loop n md d).
Proof.
  revert d. induction n as [|n IH]; intros d; simpl; keeps_tables.
Qed.

#[local] Hint Resolve await_loop_tables : keeps.

Lemma await_up_tables mr i md : keeps same_tables (await_up mr i md).
Proof.
  intros w r w'. unfold await_up. destruct (_is_query_service_ready w).
  - intros [= <- <-]. apply same_tables_refl.
  - revert w r w'. apply (keeps_bind _ same_tables_trans); keeps_tables.
Qed.

#[local] Hint Resolve await_up_tables : keeps.

Lemma get_employee_tables n : keeps same_tables (get_employee n).
Proof. unfold get_employee. keeps_tables. Qed.

Lemma get_employees_tables : keeps same_tables get_employees.
Proof. unfold get_employees, await_up_default. keeps_tables. Qed.

Lemma get_schedule_tables d : keeps same_tables (get_schedule d).
Proof. unfold get_schedule. keeps_tables. Qed.

Lemma get_schedules_tables a b : keeps same_tables (get_schedules a b).
Proof. unfold get_schedules, await_up_default. keeps_tables. Qed.

Lemma get_rules_tables : keeps same_tables get_rules.
Proof. unfold get_rules. keeps_tables. Qed.

#[local] Hint Resolve get_employee_tables get_employees_tables
  get_schedule_tables get_schedules_tables get_rules_tables : keeps.

Lemma update_rules_keeps_tables ups : keeps same_tables (update_rules ups).
Proof. unfold update_rules. keeps_tables. Qed.

#[local] Hint Resolve update_rules_keeps_tables : keeps.

(** ** Reconciliation of the duty counts *)

Lemma count_of_unreferenced n scheds :
  ~ In n (map first_line_support scheds) -> Sql.count_of n scheds = 0.
Proof.
  unfold Sql.count_of. induction scheds as [|s l IH]; simpl; intros H; trivial.
  unfold Sql.references at 1.
  destruct (String.eqb_spec (first_line_support s) n) as [E|E].
  - exfalso. apply H. now left.
  - apply IH. intros Hin. apply H. now right.
Qed.

(** Writing back the counts of the numbers in [keys], one statement each. *)
Lemma set_counts_fold (f : string -> Z) keys emps :
  fold_left (fun emps '(k, c) =>
               map (fun e => if (employee_number e =? k)%string
                             then with_count c e else e) emps)
            (map (fun k => (k, f k)) keys) emps
  = map (fun e => if existsb (String.eqb (employee_number e)) keys
                  then with_count (f (employee_number e)) e else e) emps.
Proof.
  revert emps. induction keys as [|k keys IH]; intros emps; simpl.
  - symmetry. apply map_id.
  - rewrite IH, map_map. apply map_ext. intros e.
    destruct (String.eqb_spec (employee_number e) k) as [E|E]; simpl.
    + subst k. destruct (existsb _ keys); reflexivity.
    + reflexivity.
Qed.

Lemma reset_then_set_counts emps scheds :
  fold_left (fun emps '(k, c) =>
               map (fun e => if (employee_number e =? k)%string
                             then with_count c e else e) emps)
            (map (fun k => (k, Sql.count_of k scheds))
                 (nodup string_dec (map first_line_support scheds)))
            (map (with_count 0) emps)
  = reconciled emps scheds.
Proof.
  rewrite set_counts_fold, map_map. unfold reconciled. apply map_ext.
  intros e. simpl.
  destruct (existsb _ _) eqn:E; [reflexivity|].
  unfold with_count. simpl. f_equal. symmetry. apply count_of_unreferenced.
  intros Hin. apply (nodup_In string_dec) in Hin.
  assert (existsb (String.eqb (employee_number e))
            (nodup string_dec (map first_line_support scheds)) = true) as Ht.
  { apply existsb_exists. exists (employee_number e). split; [exact Hin|].
    apply String.eqb_refl. }
  congruence.
Qed.

Lemma reconciled_consistent d emps :
  employees d = reconciled emps (schedules d) -> counts_consistent d.
Proof.
  unfold counts_consistent. intros ->. unfold reconciled.
  apply Forall_forall. intros e He. apply in_map_iff in He.
  destruct He as (x & <- & _). reflexivity.
Qed.

(** The write-back loop, whatever the script: when it returns, each pair
    has been applied in turn. *)
Lemma write_back_ok counts w w' :
  for_each counts (fun '(emp_id, count) => execute (Sql.set_count count emp_id)) w
    = (Ok tt, w') ->
  employees (db w')
    = fold_left (fun emps '(k, c) =>
                   map (fun e => if (employee_number e =? k)%string
                                 then with_count c e else e) emps)
                counts (employees (db w))
  /\ schedules (db w') = schedules (db w).
Proof.
  revert w. induction counts as [|[k c] l IH]; intros w; simpl.
  - intros [= <-]. auto.
  - unfold bind at 1.
    destruct (execute (Sql.set_count c k) w) as [[[]|e] w1] eqn:E1; [|discriminate].
    intros H. apply IH in H. destruct H as [He Hs].
    apply execute_inv in E1.
    destruct E1 as [(x & Hx & _) | (a & _ & Hq & _)]; [discriminate|].
    unfold Sql.set_count in Hq. injection Hq as _ Hq.
    rewrite He, Hs, <- Hq. simpl. auto.
Qed.

(** A reconciliation that runs to its end establishes invariant 2, from any
    store and whatever was scripted. *)
Lemma count_statements_ok w w' :
  count_statements w = (Ok tt, w') ->
  employees (db w') = reconciled (employees (db w)) (schedules (db w))
  /\ schedules (db w') = schedules (db w).
Proof.
  unfold count_statements, bind.
  destruct (execute Sql.reset_counts w) as [[[]|e] w1] eqn:E1; [|discriminate].
  destruct (execute Sql.select_counts w1) as [[counts|e] w2] eqn:E2; [|discriminate].
  intros H. apply write_back_ok in H. destruct H as [He Hs].
  apply execute_inv in E1, E2.
  destruct E1 as [(x & Hx & _) | (a & _ & Hq1 & _)]; [discriminate|].
  destruct E2 as [(x & Hx & _) | (a' & Ha & Hq2 & _)]; [discriminate|].
  injection Ha as <-.
  unfold Sql.reset_counts in Hq1. injection Hq1 as _ Hq1.
  unfold Sql.select_counts in Hq2. injection Hq2 as Hc Hq2.
  rewrite He, Hs, <- Hq2, <- Hc, <- Hq1. simpl. split; [|reflexivity].
  apply (reset_then_set_counts (employees (db w)) (schedules (db w))).
Qed.

(** ** Runs in which the store answers *)

Ltac run_steady :=
  repeat (first [ rewrite connect_if_needed_steady by (eauto 10 with steady)
                | rewrite execute_steady by (eauto 10 with steady) ]; simpl).

Lemma _init_default_rules_steady w :
  steady w -> exists w', _init_default_rules w = (Ok tt, w') /\ steady w'.
Proof.
  intros H. unfold _init_default_rules, try_except, bind. run_steady.
  unfold ret. destruct (rules (db w)) eqn:Hr.
  - eexists; split; [reflexivity | auto with steady].
  - run_steady. unfold Sql.insert_rules, Sql.stored_as, Sql.insert_rules_row.
    simpl. rewrite Hr.
    eexists; split; [reflexivity | auto 10 with steady].
Qed.

Lemma init_tables_steady w :
  steady w -> exists w', init_tables w = (Ok tt, w') /\ steady w'.
Proof.
  intros H. unfold init_tables. destruct (_tables_created w).
  - eauto.
  - unfold try_except, bind. run_steady.
    match goal with |- context [_init_default_rules ?x] =>
      destruct (_init_default_rules_steady x) as (w' & -> & Hs); [auto 12 with steady|]
    end.
    eauto.
Qed.

Lemma connect_calm mr i md w :
  calm w -> exists w', connect mr i md w = (Ok tt, w') /\ steady w'.
Proof.
  intros H. unfold connect, try_except, bind, psycopg_connect, next_outcome.
  rewrite (calm_hd _ H).
  destruct (init_tables_steady (with_conn Open (pop w))) as (w' & -> & Hs).
  - split; [reflexivity | apply calm_pop, H].
  - eauto.
Qed.

Lemma connect_if_needed_calm w :
  calm w ->
  exists w', connect_if_needed w = (Ok tt, w') /\ steady w' /\ same_tables (db w) (db w').
Proof.
  intros H.
  assert (exists w', connect_if_needed w = (Ok tt, w') /\ steady w') as (w' & E & Hs).
  { unfold connect_if_needed. destruct (conn w) eqn:Hc.
    - apply connect_calm, H.
    - exists w. split; [reflexivity | split; assumption].
    - apply connect_calm, H. }
  exists w'. split; [exact E | split; [exact Hs|]].
  exact (connect_if_needed_tables _ _ _ E).
Qed.

Lemma get_employee_steady n w :
  steady w ->
  exists w', get_employee n w = (Ok (stored n (db w)), w') /\ steady w' /\ db w' = db w.
Proof.
  intros H. unfold get_employee, try_except, bind. run_steady.
  eexists; split; [reflexivity | split; [auto with steady | reflexivity]].
Qed.

Lemma get_schedule_steady d w :
  steady w ->
  exists w', get_schedule d w
             = (Ok (find (fun s => date s =? d)%string (schedules (db w))), w')
             /\ steady w' /\ db w' = db w.
Proof.
  intros H. unfold get_schedule, try_except, bind. run_steady.
  eexists; split; [reflexivity | split; [auto with steady | reflexivity]].
Qed.

Lemma write_back_steady counts w :
  steady w ->
  exists w', for_each counts
               (fun '(emp_id, count) => execute (Sql.set_count count emp_id)) w
             = (Ok tt, w') /\ steady w'.
Proof.
  revert w. induction counts as [|[k c] l IH]; intros w H; simpl.
  - exists w. split; [reflexivity | exact H].
  - unfold bind. run_steady. apply IH. auto with steady.
Qed.

Lemma count_statements_steady w :
  steady w -> exists w', count_statements w = (Ok tt, w') /\ steady w'.
Proof.
  intros H. unfold count_statements, bind. run_steady.
  apply write_back_steady. auto 10 with steady.
Qed.

Lemma _update_employee_counts_steady w :
  steady w ->
  exists w', _update_employee_counts w = (Ok tt, w') /\ steady w'
             /\ employees (db w') = reconciled (employees (db w)) (schedules (db w))
             /\ schedules (db w') = schedules (db w).
Proof.
  intros H. unfold _update_employee_counts, bind, try_except. run_steady.
  destruct (count_statements_steady w H) as (w' & E & Hs). rewrite E.
  exists w'. split; [reflexivity | split; [exact Hs|]].
  now apply count_statements_ok.
Qed.

(** ** Schedule mutations and the duty counts *)

Lemma _update_employee_counts_consistent w :
  steady w ->
  exists w', _update_employee_counts w = (Ok tt, w') /\ steady w'
             /\ counts_consistent (db w')
             /\ schedules (db w') = schedules (db w).
Proof.
  intros H. destruct (_update_employee_counts_steady w H) as (w' & E & Hs & He & Hsch).
  exists w'. split; [exact E|]. split; [exact Hs|]. split; [|exact Hsch].
  apply (reconciled_consistent _ (employees (db w))). now rewrite Hsch.
Qed.

(** C1 as stated does not hold.  [E1] has no duty; the store answers the
    INSERT of [create_schedule] and fails the first statement of the
    reconciliation.  [_update_employee_counts] swallows the failure,
    [create_schedule] returns the date, and the stored count of [E1] is
    still 0 while one schedule row references it. *)
Lemma create_schedule_stale_count :
  fst (create_schedule "2024-02-01" "E1" (live (mkDB [ada] [] None) [Good; Fail]))
    = Ok "2024-02-01"
  /\ ~ counts_consistent
         (db (snd (create_schedule "2024-02-01" "E1"
                     (live (mkDB [ada] [] None) [Good; Fail])))).
Proof.
  split; [reflexivity|].
  intros H. vm_compute in H. inversion H as [|? ? Hc _]. discriminate Hc.
Qed.

(** The three mutations, one by one, on a world where no failure is
    scripted. *)
Lemma create_schedule_consistent d n w r w' :
  calm w -> create_schedule d n w = (Ok r, w') -> counts_consistent (db w').
Proof.
  intros Hcalm.
  destruct (connect_if_needed_calm w Hcalm) as (w0 & E0 & H0 & _).
  unfold create_schedule, bind, try_except. rewrite E0.
  rewrite execute_steady by exact H0.
  destruct (Sql.upsert_schedule d n (db w0)) as [[[] d1]|e]; [|discriminate].
  destruct (_update_employee_counts_consistent (with_db d1 (pop w0)))
    as (w2 & -> & _ & Hc & _); [auto with steady|].
  intros [= _ <-]. exact Hc.
Qed.

Lemma update_schedule_consistent d n w w' :
  calm w -> update_schedule d n w = (Ok true, w') -> counts_consistent (db w').
Proof.
  intros Hcalm.
  destruct (connect_if_needed_calm w Hcalm) as (w0 & E0 & H0 & _).
  unfold update_schedule, bind, try_except. rewrite E0.
  destruct (get_schedule_steady d w0 H0) as (w1 & -> & H1 & _).
  destruct (find _ _); [|discriminate].
  rewrite execute_steady by exact H1.
  destruct (Sql.update_schedule n d (db w1)) as [[rows d1]|e]; [|discriminate].
  destruct (0 <? rows)%nat; [|discriminate].
  destruct (_update_employee_counts_consistent (with_db d1 (pop w1)))
    as (w2 & -> & _ & Hc & _); [auto with steady|].
  intros [= <-]. exact Hc.
Qed.

Lemma delete_schedule_consistent d w w' :
  calm w -> delete_schedule d w = (Ok true, w') -> counts_consistent (db w').
Proof.
  intros Hcalm.
  destruct (connect_if_needed_calm w Hcalm) as (w0 & E0 & H0 & _).
  unfold delete_schedule, bind, try_except. rewrite E0.
  destruct (get_schedule_steady d w0 H0) as (w1 & -> & H1 & _).
  destruct (find _ _); [|discriminate].
  rewrite execute_steady by exact H1.
  destruct (Sql.delete_schedule d (db w1)) as [[rows d1]|e]; [|discriminate].
  destruct (0 <? rows)%nat; [|discriminate].
  destruct (_update_employee_counts_consistent (with_db d1 (pop w1)))
    as (w2 & -> & _ & Hc & _); [auto with steady|].
  intros [= <-]. exact Hc.
Qed.

(** C1, amended: when no statement sent to the store fails during the call,
    a schedule mutation that returns success ([create_schedule] returning
    the date, [update_schedule] and [delete_schedule] returning [True])
    leaves every stored [first_line_support_count] equal to the number of
    schedule rows whose [first_line_support] is that employee's number. *)
Theorem schedule_mutations_reconcile w :
  calm w ->
  (forall d n r w', create_schedule d n w = (Ok r, w') -> counts_consistent (db w')) /\
  (forall d n w', update_schedule d n w = (Ok true, w') -> counts_consistent (db w')) /\
  (forall d w', delete_schedule d w = (Ok true, w') -> counts_consistent (db w')).
Proof.
  intros Hcalm. split; [|split].
  - intros d n r w' H. exact (create_schedule_consistent d n w r w' Hcalm H).
  - intros d n w' H. exact (update_schedule_consistent d n w w' Hcalm H).
  - intros d w' H. exact (delete_schedule_consistent d w w' Hcalm H).
Qed.

Lemma schedule_mutations_reconcile_witness :
  counts_consistent
    (db (snd (create_schedule "2024-02-01" "E1" (live (mkDB [ada] [] None) [])))).
Proof.
  refine (proj1 (schedule_mutations_reconcile (live (mkDB [ada] [] None) []) _)
            "2024-02-01" "E1" "2024-02-01" _ _).
  - constructor.
  - reflexivity.
Defined.

(** ** Referential check of [create_schedule] *)

(** C3: whatever the state of the connection and whatever the store does,
    [create_schedule] with an employee number that does not resolve to a
    row of [employees] raises to its caller, and no schedule row is
    inserted or changed.  The number resolves as the store reads it into
    the [VARCHAR(36)] column [first_line_support]: a number of at most 36
    characters is read as it is, so that one which no row bears is always
    refused. *)
Theorem create_schedule_rejects_dangling date_str number w :
  (forall k, Sql.varchar 36 number = Ok k -> Sql.has_employee k (db w) = false) ->
  exists e w',
    create_schedule date_str number w = (Raise e, w') /\
    schedules (db w') = schedules (db w) /\
    employees (db w') = employees (db w).
Proof.
  intros Hno. unfold create_schedule, bind, try_except.
  destruct (connect_if_needed w) as [[[]|e] w0] eqn:E0;
    pose proof (connect_if_needed_tables _ _ _ E0) as [He Hs].
  2:{ exists e, w0. auto. }
  destruct (execute (Sql.upsert_schedule date_str number) w0) as [[[]|e] w1] eqn:E1;
    apply execute_inv in E1;
    destruct E1 as [(x & Hx & Hd) | (a & Hx & Hq & _)]; try discriminate.
  - exfalso. unfold Sql.upsert_schedule in Hq.
    apply stored_as_inv in Hq. destruct Hq as (d' & _ & Hq).
    apply stored_as_inv in Hq. destruct Hq as (k & Hk & Hq).
    unfold Sql.upsert_schedule_row in Hq.
    replace (Sql.has_employee k (db w0)) with false in Hq.
    + discriminate.
    + symmetry. rewrite <- (Hno k Hk). unfold Sql.has_employee. now rewrite He.
  - exists e, w1. unfold raise. rewrite Hd. auto.
Qed.

Lemma create_schedule_rejects_dangling_witness :
  exists e w',
    create_schedule "2024-02-01" "E9" (live (mkDB [ada] [] None) [])
      = (Raise e, w') /\
    schedules (db w') = [] /\
    employees (db w') = [ada].
Proof.
  apply (create_schedule_rejects_dangling "2024-02-01" "E9"
           (live (mkDB [ada] [] None) [])).
  intros k H. vm_compute in H. injection H as <-. reflexivity.
Defined.

(** ** Reads, and the cascade of [delete_employee] *)

Lemma get_employee_inv n w r w' :
  get_employee n w = (r, w') ->
  same_tables (db w) (db w') /\
  forall x, r = Ok (Some x) -> stored n (db w) = Some x.
Proof.
  intros H. split; [exact (get_employee_tables n _ _ _ H)|].
  intros x ->. revert H. unfold get_employee, bind, try_except.
  destruct (connect_if_needed w) as [[[]|e] w0] eqn:E0; [|discriminate].
  pose proof (connect_if_needed_tables _ _ _ E0) as [He _].
  destruct (execute (Sql.select_employee n) w0) as [[o|e] w1] eqn:E1.
  - intros [= -> <-]. apply execute_inv in E1.
    destruct E1 as [(y & Hy & _) | (a & Ha & Hq & _)]; [discriminate|].
    injection Ha as <-. unfold Sql.select_employee in Hq.
    injection Hq as Hq _. unfold stored. now rewrite <- He.
  - discriminate.
Qed.

Lemma get_schedule_inv d w r w' :
  get_schedule d w = (r, w') ->
  same_tables (db w) (db w') /\
  forall x, r = Ok (Some x) ->
            find (fun s => date s =? d)%string (schedules (db w)) = Some x.
Proof.
  intros H. split; [exact (get_schedule_tables d _ _ _ H)|].
  intros x ->. revert H. unfold get_schedule, bind, try_except.
  destruct (connect_if_needed w) as [[[]|e] w0] eqn:E0; [|discriminate].
  pose proof (connect_if_needed_tables _ _ _ E0) as [_ Hs].
  destruct (execute (Sql.select_schedule d) w0) as [[o|e] w1] eqn:E1.
  - intros [= -> <-]. apply execute_inv in E1.
    destruct E1 as [(y & Hy & _) | (a & Ha & Hq & _)]; [discriminate|].
    injection Ha as <-. unfold Sql.select_schedule in Hq.
    injection Hq as Hq _. now rewrite <- Hs.
  - discriminate.
Qed.

Lemma filter_nil_negb {A} (f : A -> bool) l :
  filter f l = [] -> filter (fun x => negb (f x)) l = l.
Proof.
  induction l as [|x l IH]; simpl; trivial.
  destruct (f x); simpl; [discriminate|]. intros H. f_equal. auto.
Qed.

Lemma stored_has n d x : stored n d = Some x -> Sql.has_employee n d = true.
Proof.
  unfold stored, Sql.has_employee. intros H. apply find_some in H.
  apply existsb_exists. eauto.
Qed.

Lemma has_filter_length n d :
  Sql.has_employee n d = true ->
  (0 <? List.length (filter (fun e => employee_number e =? n)%string (employees d)))%nat = true.
Proof.
  unfold Sql.has_employee. induction (employees d) as [|e l IH]; simpl; [discriminate|].
  destruct (employee_number e =? n)%string; simpl; auto.
Qed.

(** Every run of [delete_employee], whatever the script: either it returns
    [True] and both deletions took place, or the employee row is untouched
    and the schedule rows are either untouched or already deleted. *)
Lemma delete_employee_cases n w r w' :
  delete_employee n w = (r, w') ->
  (r = Ok true /\ Sql.has_employee n (db w) = true
   /\ employees (db w') = without_employee n (employees (db w))
   /\ schedules (db w') = without_references n (schedules (db w)))
  \/
  (r <> Ok true /\ employees (db w') = employees (db w)
   /\ (schedules (db w') = schedules (db w)
       \/ (Sql.has_employee n (db w) = true
           /\ schedules (db w') = without_references n (schedules (db w))))).
Proof.
  unfold delete_employee, bind, try_except.
  destruct (connect_if_needed w) as [[[]|e] w0] eqn:E0;
    pose proof (connect_if_needed_tables _ _ _ E0) as [He0 Hs0].
  2:{ intros [= <- <-]. right. split; [discriminate | auto]. }
  destruct (get_employee n w0) as [[[x|]|e] w1] eqn:E1;
    pose proof (get_employee_inv _ _ _ _ E1) as [[He1 Hs1] Hx].
  2,3: intros [= <- <-]; right; split; [discriminate | split; [congruence | left; congruence]].
  specialize (Hx x eq_refl).
  assert (Sql.has_employee n (db w) = true) as Hhas.
  { apply stored_has in Hx. unfold Sql.has_employee in *. now rewrite <- He0. }
  destruct (execute (Sql.select_dates_of n) w1) as [[dates|e] w2] eqn:E2;
    apply execute_inv in E2;
    destruct E2 as [(y & Hy & Hd2) | (a & Ha & Hq2 & _)]; try discriminate.
  2:{ intros [= <- <-]. right. split; [discriminate|]. rewrite Hd2.
      split; [congruence | left; congruence]. }
  injection Ha as <-. unfold Sql.select_dates_of in Hq2. injection Hq2 as Hdates Hd2.
  assert (exists w3 r3,
            (match dates with
             | [] => ret tt
             | _ :: _ => execute (Sql.delete_schedules_of n)
             end) w2 = (r3, w3)
            /\ employees (db w3) = employees (db w)
            /\ ((r3 = Ok tt /\ schedules (db w3) = without_references n (schedules (db w)))
                \/ (exists e, r3 = Raise e) /\ schedules (db w3) = schedules (db w)))
    as (w3 & r3 & -> & He3 & Hcase).
  { destruct dates as [|d0 dates].
    - exists w2, (Ok tt). split; [reflexivity|]. split; [congruence|]. left.
      split; [reflexivity|]. rewrite <- Hd2, Hs1, Hs0.
      symmetry. apply filter_nil_negb.
      apply map_eq_nil in Hdates. now rewrite Hs1, Hs0 in Hdates.
    - destruct (execute (Sql.delete_schedules_of n) w2) as [r3 w3] eqn:E3.
      exists w3, r3. split; [reflexivity|].
      apply execute_inv in E3.
      destruct E3 as [(y & Hy & Hd3) | ([] & Ha & Hq3 & _)].
      + rewrite Hd3, <- Hd2. split; [congruence|]. right. split; [eauto | congruence].
      + unfold Sql.delete_schedules_of in Hq3. injection Hq3 as Hq3.
        rewrite <- Hq3, <- Hd2. simpl. split; [congruence|]. left.
        split; [exact Ha|]. unfold without_references. now rewrite Hs1, Hs0. }
  destruct Hcase as [[-> Hs3] | [(e & ->) Hs3]].
  2:{ intros [= <- <-]. right. split; [discriminate | auto]. }
  destruct (execute (Sql.delete_employee n) w3) as [[rows|e] w4] eqn:E4;
    apply execute_inv in E4;
    destruct E4 as [(y & Hy & Hd4) | (a & Ha & Hq4 & _)]; try discriminate.
  2:{ intros [= <- <-]. right. split; [discriminate|]. rewrite Hd4. auto. }
  injection Ha as <-. unfold Sql.delete_employee in Hq4.
  destruct (andb _ _); [discriminate|]. injection Hq4 as Hrows Hq4.
  intros [= <- <-]. left. rewrite <- Hq4. simpl. rewrite He3, Hs3.
  split; [|auto]. f_equal. subst rows. rewrite He3.
  apply has_filter_length, Hhas.
Qed.
Lemma has_stored n d :
  Sql.has_employee n d = true -> exists x, stored n d = Some x.
Proof.
  unfold Sql.has_employee, stored. intros H. apply existsb_exists in H.
  destruct H as (x & Hin & Hx).
  destruct (find _ _) eqn:E; [eauto|].
  exfalso. apply (find_none _ _ E) in Hin. congruence.
Qed.

Lemma not_has_stored n d : Sql.has_employee n d = false -> stored n d = None.
Proof.
  intros H. destruct (stored n d) eqn:E; trivial.
  apply stored_has in E. congruence.
Qed.

Lemma has_without_employee n emps d :
  employees d = without_employee n emps -> Sql.has_employee n d = false.
Proof.
  unfold Sql.has_employee. intros ->. unfold without_employee.
  induction emps as [|e l IH]; simpl; trivial.
  destruct (employee_number e =? n)%string eqn:E; simpl; trivial.
  now rewrite E.
Qed.

Lemma stored_without_employee n m d d' :
  m <> n -> employees d' = without_employee n (employees d) ->
  stored m d' = stored m d.
Proof.
  intros Hne He. unfold stored. rewrite He. clear He. unfold without_employee.
  induction (employees d) as [|e l IH]; simpl; trivial.
  destruct (String.eqb_spec (employee_number e) n) as [E|E]; simpl.
  - destruct (String.eqb_spec (employee_number e) m) as [E'|E']; [congruence|].
    exact IH.
  - destruct (employee_number e =? m)%string; [reflexivity | exact IH].
Qed.

Lemma no_reference_left n scheds :
  existsb (Sql.references n) (without_references n scheds) = false.
Proof.
  unfold without_references. induction scheds as [|s l IH]; simpl; trivial.
  destruct (Sql.references n s) eqn:E; simpl; trivial. now rewrite E.
Qed.

(** When the store answers, [delete_employee] returns whether the employee
    was there. *)
Lemma delete_employee_calm n w :
  calm w ->
  exists w', delete_employee n w = (Ok (Sql.has_employee n (db w)), w') /\ steady w'.
Proof.
  intros Hcalm.
  destruct (connect_if_needed_calm w Hcalm) as (w0 & E0 & H0 & [He0 Hs0]).
  unfold delete_employee, bind, try_except. rewrite E0.
  destruct (get_employee_steady n w0 H0) as (w1 & -> & H1 & Hd1).
  assert (Sql.has_employee n (db w0) = Sql.has_employee n (db w)) as Hsame.
  { unfold Sql.has_employee. now rewrite He0. }
  destruct (Sql.has_employee n (db w)) eqn:Hhas.
  - destruct (has_stored _ _ Hsame) as (x & ->).
    rewrite execute_steady by exact H1. simpl.
    set (w2 := with_db (db w1) (pop w1)).
    assert (steady w2) as H2 by (unfold w2; auto with steady).
    assert (exists w3, (match map date (filter (Sql.references n) (schedules (db w1))) with
                        | [] => ret tt
                        | _ :: _ => execute (Sql.delete_schedules_of n)
                        end) w2 = (Ok tt, w3) /\ steady w3
                       /\ employees (db w3) = employees (db w1)
                       /\ existsb (Sql.references n) (schedules (db w3)) = false)
      as (w3 & -> & H3 & He3 & Hnoref).
    { destruct (map date _) eqn:Hdates.
      - exists w2. split; [reflexivity|]. split; [exact H2|]. split; [reflexivity|].
        apply map_eq_nil in Hdates. unfold w2. simpl.
        destruct (existsb _ _) eqn:Hex; trivial.
        apply existsb_exists in Hex. destruct Hex as (s & Hin & Hs).
        assert (In s (filter (Sql.references n) (schedules (db w1)))) as Hf
          by (apply filter_In; auto).
        rewrite Hdates in Hf. destruct Hf.
      - rewrite execute_steady by exact H2. simpl.
        eexists. split; [reflexivity|]. split; [unfold w2; auto 10 with steady|].
        split; [reflexivity|]. simpl. apply no_reference_left. }
    rewrite execute_steady by exact H3. unfold Sql.delete_employee.
    rewrite Hnoref, andb_false_r.
    eexists. split.
    + unfold ret. do 2 f_equal.
      rewrite He3, Hd1. apply has_filter_length. exact Hsame.
    + auto with steady.
  - rewrite (not_has_stored _ _ Hsame). exists w1. split; [reflexivity | exact H1].
Qed.

(** ** Failures inside the boolean methods *)

(** The shape shared by [update_employee], [delete_employee],
    [update_schedule], [delete_schedule] and [update_rules]: on a live
    connection nothing can leave the [try], and the [except] returns
    [False]. *)
Lemma guarded_returns (body : M bool) w :
  conn w = Open ->
  exists b, fst ((connect_if_needed ;; try_except body (fun _ => ret false)) w) = Ok b.
Proof.
  intros Hc. unfold bind, try_except, connect_if_needed. rewrite Hc.
  destruct (body w) as [[b|e] w1]; simpl; eauto.
Qed.


(** C2: [delete_employee].  Whatever the store does, the call returns [True]
    exactly when the employee row was there before and is gone after, and
    the row of every other employee (its duty count included) is as before.
    For a number that no row bears nothing is deleted, and the call returns
    [False] as soon as a live connection is held or the store answers.  When
    the store answers and the employee exists, every schedule row that
    references the number and then the employee row are removed, and the
    call returns [True]. *)
Theorem delete_employee_cascade n w :
  let r := fst (delete_employee n w) in
  let w' := snd (delete_employee n w) in
  (r = Ok true <->
   Sql.has_employee n (db w) = true /\ Sql.has_employee n (db w') = false) /\
  (forall m, m <> n -> stored m (db w') = stored m (db w)) /\
  (Sql.has_employee n (db w) = false ->
   schedules (db w') = schedules (db w)
   /\ employees (db w') = employees (db w)
   /\ (conn w = Open \/ calm w -> r = Ok false)) /\
  (calm w -> Sql.has_employee n (db w) = true ->
   r = Ok true
   /\ schedules (db w') = without_references n (schedules (db w))
   /\ employees (db w') = without_employee n (employees (db w))).
Proof.
  pose proof (guarded_returns
    (employee <- get_employee n ;;
     match employee with
     | None => ret false
     | Some _ =>
         affected_schedules <- execute (Sql.select_dates_of n) ;;
         match affected_schedules with
         | [] => ret tt
         | _ :: _ => execute (Sql.delete_schedules_of n)
         end ;;
         rows_deleted <- execute (Sql.delete_employee n) ;;
         ret (0 <? rows_deleted)%nat
     end) w) as Hopen.
  change (conn w = Open -> exists b, fst (delete_employee n w) = Ok b) in Hopen.
  destruct (delete_employee n w) as [r w'] eqn:E. simpl in *.
  pose proof (delete_employee_cases _ _ _ _ E) as Hcases.
  split; [|split; [|split]].
  - destruct Hcases as [(-> & Hhas & He & _) | (Hr & He & _)].
    + split; [|reflexivity]. intros _. split; [exact Hhas|].
      now apply (has_without_employee n (employees (db w))).
    + split; [intros ->; now elim Hr|].
      intros [H1 H2]. unfold Sql.has_employee in *. rewrite He in H2. congruence.
  - intros m Hm. destruct Hcases as [(_ & _ & He & _) | (_ & He & _)].
    + now apply (stored_without_employee n).
    + unfold stored. now rewrite He.
  - intros Hhas.
    destruct Hcases as [(_ & Ht & _) | (Hr & He & [Hs|[Ht _]])]; try congruence.
    split; [exact Hs|]. split; [exact He|].
    intros [Hc|Hcalm].
    + destruct (Hopen Hc) as ([|] & ->); [now elim Hr | reflexivity].
    + destruct (delete_employee_calm n w Hcalm) as (w1 & E1 & _).
      rewrite E in E1. injection E1 as -> <-. now rewrite Hhas.
  - intros Hcalm Hhas. destruct (delete_employee_calm n w Hcalm) as (w1 & E1 & _).
    rewrite E in E1. injection E1 as -> <-. rewrite Hhas in *.
    destruct Hcases as [(_ & _ & He & Hs) | (Hr & _)]; [auto | now elim Hr].
Qed.

Lemma delete_employee_cascade_witness :
  fst (delete_employee "E1" (live office [])) = Ok true
  /\ schedules (db (snd (delete_employee "E1" (live office []))))
     = [mkSchedule "2024-02-02" "E2"]
  /\ employees (db (snd (delete_employee "E1" (live office []))))
     = [with_count 1 bob].
Proof.
  apply (proj2 (proj2 (proj2 (delete_employee_cascade "E1" (live office []))))
           (Forall_nil _)).
  reflexivity.
Defined.

(** ** The two deletions of [delete_employee] are committed apart *)

Lemma references_dates n scheds :
  existsb (Sql.references n) scheds = true ->
  exists d l, map date (filter (Sql.references n) scheds) = d :: l.
Proof.
  induction scheds as [|s l IH]; simpl; [discriminate|].
  destruct (Sql.references n s); simpl; eauto.
Qed.

(** C8, amended: [delete_employee] sends the deletion of the dependent
    schedule rows and the deletion of the employee row as two statements on
    an autocommit connection, each committed on its own.  If the second one
    fails after the first was answered, the call returns [False], the
    employee row is still stored, and the schedule rows that referenced it
    stay deleted. *)
Theorem delete_employee_not_atomic n w o rest :
  conn w = Open ->
  outcomes w = Good :: Good :: Good :: o :: rest -> o <> Good ->
  Sql.has_employee n (db w) = true ->
  existsb (Sql.references n) (schedules (db w)) = true ->
  fst (delete_employee n w) = Ok false
  /\ employees (db (snd (delete_employee n w))) = employees (db w)
  /\ schedules (db (snd (delete_employee n w)))
     = without_references n (schedules (db w)).
Proof.
  intros Hc Ho Hbad Hhas Href.
  destruct (has_stored _ _ Hhas) as (x & Hx). unfold stored in Hx.
  destruct (references_dates _ _ Href) as (d0 & l0 & Hd).
  destruct w as [d c rd tc os sl]. simpl in *. subst c os.
  unfold delete_employee, get_employee, bind, try_except, connect_if_needed,
    execute, next_outcome, pop. cbn. rewrite Hx. cbn. rewrite Hd. cbn.
  destruct o; try congruence; cbn; auto.
Qed.

(** C8 as stated does not hold.  [E1] has two duties.  The store answers the
    two reads and the [DELETE] on [schedules], then fails the [DELETE] on
    [employees].  The call returns [False]; the employee row is still there
    and its two schedule rows are gone: the store is not as it was. *)
Lemma delete_employee_leaves_half_done :
  fst (delete_employee "E1" (live office [Good; Good; Good; Fail])) = Ok false
  /\ Sql.has_employee "E1"
       (db (snd (delete_employee "E1" (live office [Good; Good; Good; Fail]))))
     = true
  /\ schedules (db (snd (delete_employee "E1"
                           (live office [Good; Good; Good; Fail]))))
     = [mkSchedule "2024-02-02" "E2"]
  /\ db (snd (delete_employee "E1" (live office [Good; Good; Good; Fail])))
     <> office.
Proof.
  split; [reflexivity|]. split; [reflexivity|]. split; [reflexivity|].
  intros H. apply (f_equal schedules) in H. vm_compute in H. discriminate H.
Qed.

Lemma delete_employee_not_atomic_witness :
  fst (delete_employee "E1" (live office [Good; Good; Good; Drop])) = Ok false
  /\ employees (db (snd (delete_employee "E1"
                           (live office [Good; Good; Good; Drop]))))
     = employees office
  /\ schedules (db (snd (delete_employee "E1"
                           (live office [Good; Good; Good; Drop]))))
     = without_references "E1" (schedules office).
Proof.
  apply (delete_employee_not_atomic "E1" (live office [Good; Good; Good; Drop])
           Drop []); try reflexivity.
  discriminate.
Defined.





(** ** Connecting *)

(** [connect] does not read its three parameters. *)
Lemma connect_ignores_parameters mr i md w :
  connect mr i md w = connect_default w.
Proof. reflexivity. Qed.

(** A statement never turns the handle back into [None]. *)
Lemma execute_conn {A} (q : stmt A) w r w' :
  execute q w = (r, w') -> conn w <> NoConn -> conn w' <> NoConn.
Proof.
  unfold execute, next_outcome. destruct (conn w) eqn:Hc.
  - intros _ H. now elim H.
  - destruct (hd Good (outcomes w)).
    + destruct (q (db (pop w))) as [[a d]|e]; intros [= <- <-] _; simpl;
        rewrite Hc; discriminate.
    + intros [= <- <-] _. simpl. rewrite Hc. discriminate.
    + intros [= <- <-] _. simpl. discriminate.
  - intros [= <- <-] _. rewrite Hc. discriminate.
Qed.

Lemma holds_conn_bind {A B} (m : M A) (k : A -> M B) :
  holds_conn m -> (forall a, holds_conn (k a)) -> holds_conn (bind m k).
Proof.
  intros Hm Hk w r w'. unfold bind. destruct (m w) as [[a|e] w1] eqn:E.
  - intros H Hc. eapply Hk; [exact H|]. eapply Hm; eauto.
  - intros [= <- <-] Hc. eapply Hm; eauto.
Qed.

Lemma holds_conn_try {A} (m : M A) (h : exn -> M A) :
  holds_conn m -> (forall e, holds_conn (h e)) -> holds_conn (try_except m h).
Proof.
  intros Hm Hh w r w'. unfold try_except. destruct (m w) as [[a|e] w1] eqn:E.
  - intros [= <- <-] Hc. eapply Hm; eauto.
  - intros H Hc. eapply Hh; [exact H|]. eapply Hm; eauto.
Qed.

Lemma holds_conn_execute {A} (q : stmt A) : holds_conn (execute q).
Proof. intros w r w'. apply execute_conn. Qed.

Lemma holds_conn_ret {A} (a : A) : holds_conn (ret a).
Proof. intros w r w' [= <- <-]. trivial. Qed.

Lemma holds_conn_raise {A} e : holds_conn (@raise A e).
Proof. intros w r w' [= <- <-]. trivial. Qed.

Lemma init_tables_conn : holds_conn init_tables.
Proof.
  intros w r w'. unfold init_tables. destruct (_tables_created w).
  - intros [= <- <-]. trivial.
  - revert w r w'.
    change (holds_conn
      (try_except
         (execute Sql.create_if_not_exists ;;
          execute Sql.create_if_not_exists ;;
          execute Sql.create_if_not_exists ;;
          execute Sql.create_if_not_exists ;;
          (fun w1 => (Ok tt, with_tables_created true w1)) ;;
          _init_default_rules)
         (fun e => raise e))).
    repeat match goal with
           | |- holds_conn (try_except _ _) => apply holds_conn_try
           | |- holds_conn (bind _ _) => apply holds_conn_bind
           | |- holds_conn (execute _) => apply holds_conn_execute
           | |- holds_conn (ret _) => apply holds_conn_ret
           | |- holds_conn (raise _) => apply holds_conn_raise
           | |- holds_conn (match ?x with _ => _ end) => destruct x
           | |- holds_conn _init_default_rules => unfold _init_default_rules
           | |- forall _, _ => intro
           end.
    intros w r w' H Hc. injection H as <- <-. exact Hc.
Qed.

(** When [connect] returns, [self.conn] is set: the guard [not self.conn]
    of [init]'s loop is false after a call that returned. *)
Lemma connect_sets_conn mr i md w w' :
  connect mr i md w = (Ok tt, w') -> conn w' <> NoConn.
Proof.
  unfold connect, try_except, bind, psycopg_connect, next_outcome.
  destruct (hd Good (outcomes w)); try discriminate.
  destruct (init_tables (with_conn Open (pop w))) as [[[]|e] w1] eqn:E;
    intros [= <-]; eapply init_tables_conn; try exact E; simpl; discriminate.
Qed.

(** C7: the code does not do what the claim says.  Whatever [max_retries],
    [initial_delay] and [max_delay] are, a first attempt that fails makes
    [connect] raise at once: no second attempt is made on the rest of the
    script, nothing is slept, and no connection is held. *)
Theorem connect_fails_at_once max_retries initial_delay max_delay w o rest :
  outcomes w = o :: rest -> o <> Good ->
  connect max_retries initial_delay max_delay w
  = (Raise OperationalError, with_outcomes rest w).
Proof.
  intros Ho Hbad. unfold connect, try_except, bind, psycopg_connect,
    next_outcome, pop. rewrite Ho. simpl.
  destruct o; try congruence; reflexivity.
Qed.

(** With the defaults, one transient failure before a store that would
    answer: [connect] raises, the good outcome is left unused. *)
Lemma connect_fails_at_once_witness :
  connect 30 1 10 (fresh (mkDB [] [] None) [Fail; Good])
  = (Raise OperationalError, fresh (mkDB [] [] None) [Good]).
Proof.
  apply (connect_fails_at_once 30 1 10 (fresh (mkDB [] [] None) [Fail; Good])
           Fail [Good]).
  - reflexivity.
  - discriminate.
Defined.

(** The retry with backoff that the claim describes is the loop of [init]:
    started without a connection, it sleeps 1 s and 1.5 s after two failed
    attempts and returns once the third succeeds. *)
Lemma init_retries_with_backoff :
  fst (init 30 1 10 (fresh (mkDB [] [] None) [Fail; Fail; Good])) = Ok tt
  /\ slept (snd (init 30 1 10 (fresh (mkDB [] [] None) [Fail; Fail; Good])))
     = [1%Q; (3 # 2)%Q]
  /\ conn (snd (init 30 1 10 (fresh (mkDB [] [] None) [Fail; Fail; Good])))
     = Open.
Proof. repeat split; reflexivity. Qed.

(** With a budget of three attempts and a store that fails three times,
    [init] sleeps twice and raises at the third failure. *)
Lemma init_gives_up_after_budget :
  fst (init 3 1 10 (fresh (mkDB [] [] None) [Fail; Fail; Fail; Good]))
    = Raise OperationalError
  /\ slept (snd (init 3 1 10 (fresh (mkDB [] [] None) [Fail; Fail; Fail; Good])))
     = [1%Q; (3 # 2)%Q]
  /\ outcomes (snd (init 3 1 10 (fresh (mkDB [] [] None) [Fail; Fail; Fail; Good])))
     = [Good].
Proof. repeat split; reflexivity. Qed.

(** ** The range query *)

Lemma insert_by_date_perm s l : Permutation (Sql.insert_by_date s l) (s :: l).
Proof.
  induction l as [|x l IH]; simpl; [reflexivity|].
  destruct (date s <=? date x)%string; [reflexivity|].
  rewrite IH. apply perm_swap.
Qed.

Lemma order_by_date_perm l : Permutation (Sql.order_by_date l) l.
Proof.
  induction l as [|x l IH]; simpl; [reflexivity|].
  rewrite insert_by_date_perm. now constructor.
Qed.

Lemma leb_false_flip a b : (a <=? b)%string = false -> (b <=? a)%string = true.
Proof. intros H. destruct (String.leb_total a b); congruence. Qed.

Lemma insert_by_date_sorted s l : ascending l -> ascending (Sql.insert_by_date s l).
Proof.
  unfold ascending. induction l as [|x l IH]; simpl; intros H.
  - repeat constructor.
  - destruct (date s <=? date x)%string eqn:E.
    + constructor; [exact H | constructor; exact E].
    + inversion H as [|? ? Hl Hx]; subst. constructor; [auto|].
      apply leb_false_flip in E.
      destruct l as [|y l]; simpl.
      * constructor; exact E.
      * destruct (date s <=? date y)%string; constructor; trivial.
        now inversion Hx.
Qed.

Lemma order_by_date_sorted l : ascending (Sql.order_by_date l).
Proof.
  induction l as [|x l IH]; simpl.
  - constructor.
  - now apply insert_by_date_sorted.
Qed.

(** The [WHERE] clauses assembled from the two arguments select the rows
    of [in_range]. *)
Lemma where_clauses_in_range a b s :
  forallb (Sql.holds s)
    (let where_clauses : list Sql.clause := [] in
     let where_clauses :=
       if truthy a then (where_clauses ++ [Sql.DateGe (or_else a "")])%list
       else where_clauses in
     if truthy b then (where_clauses ++ [Sql.DateLe (or_else b "")])%list
     else where_clauses)
  = in_range a b s.
Proof.
  unfold in_range, effective, above, below.
  destruct a as [[|c a]|], b as [[|c' b]|]; simpl;
    rewrite ?andb_true_r; reflexivity.
Qed.

Lemma get_schedules_ok a b w l w' :
  get_schedules a b w = (Ok l, w') ->
  l = Sql.order_by_date (filter (in_range a b) (schedules (db w))).
Proof.
  unfold get_schedules, bind, try_except.
  destruct (connect_if_needed w) as [[[]|e] w0] eqn:E0; [|discriminate].
  pose proof (connect_if_needed_tables _ _ _ E0) as [_ Hs0].
  destruct (await_up_default w0) as [[[]|e] w1] eqn:E1; [|discriminate].
  pose proof (await_up_tables _ _ _ _ _ _ E1) as [_ Hs1].
  match goal with |- context [execute ?q w1] =>
    destruct (execute q w1) as [[l1|e] w2] eqn:E2; [|discriminate]
  end.
  intros [= -> <-]. apply execute_inv in E2.
  destruct E2 as [(x & Hx & _) | (a0 & Ha & Hq & _)]; [discriminate|].
  injection Ha as <-. unfold Sql.select_schedules in Hq. injection Hq as Hq _.
  rewrite <- Hq, Hs1, Hs0. f_equal. apply filter_ext. intros s.
  apply where_clauses_in_range.
Qed.

Lemma await_loop_steady n md d w :
  steady w -> exists w', await_loop (S n) md d w = (Ok tt, w') /\ steady w' /\ db w' = db w.
Proof.
  intros H. simpl. unfold try_except, bind. run_steady.
  eexists. split; [reflexivity|]. split; [auto 10 with steady | reflexivity].
Qed.

Lemma await_up_steady w :
  steady w -> exists w', await_up_default w = (Ok tt, w') /\ steady w' /\ db w' = db w.
Proof.
  intros H. unfold await_up_default, await_up.
  destruct (_is_query_service_ready w); [exists w; auto|].
  unfold bind. destruct H as [Hc Hk]. rewrite Hc.
  apply await_loop_steady. split; assumption.
Qed.

Lemma get_schedules_calm a b w :
  calm w -> exists l w', get_schedules a b w = (Ok l, w').
Proof.
  intros Hcalm.
  destruct (connect_if_needed_calm w Hcalm) as (w0 & E0 & H0 & _).
  unfold get_schedules, bind, try_except. rewrite E0.
  destruct (await_up_steady w0 H0) as (w1 & -> & H1 & _).
  rewrite execute_steady by exact H1. unfold Sql.select_schedules. eauto.
Qed.

Lemma effective_given bound : bound <> Some "" -> effective bound = bound.
Proof. destruct bound as [[|c tl]|]; [congruence | reflexivity | reflexivity]. Qed.

(** A bound that is given as the empty string, which is no date, is read
    as a bound that is omitted: every row is returned. *)
Lemma get_schedules_empty_end_date :
  fst (get_schedules None (Some "") (live office []))
    = Ok [mkSchedule "2024-02-01" "E1"; mkSchedule "2024-02-02" "E2";
          mkSchedule "2024-02-03" "E1"].
Proof. reflexivity. Qed.

(** C9: [get_schedules(start_date, end_date)], with each bound either
    omitted or given as a date (a string that is not empty).  When it
    returns, it returns exactly the schedule rows whose date is at least
    [start_date], when that bound is given, and at most [end_date], when
    that bound is given, both bounds inclusive, ordered ascending by date;
    a bound that is omitted does not bound.  And it returns when the store
    answers. *)
Theorem get_schedules_range a b w :
  a <> Some "" ->
  b <> Some "" ->
  (forall l w', get_schedules a b w = (Ok l, w') ->
     ascending l
     /\ Permutation l (filter (in_stated_range a b) (schedules (db w)))
     /\ (forall s, In s l <->
           In s (schedules (db w)) /\ above a s = true /\ below b s = true))
  /\ (calm w -> exists l w', get_schedules a b w = (Ok l, w')).
Proof.
  intros Ha Hb. split; [|apply get_schedules_calm].
  intros l w' H. apply get_schedules_ok in H. subst l.
  unfold in_range, in_stated_range.
  rewrite (effective_given a Ha), (effective_given b Hb).
  split; [apply order_by_date_sorted|]. split; [apply order_by_date_perm|].
  intros s. split.
  - intros Hin. apply (Permutation_in _ (order_by_date_perm _)) in Hin.
    apply filter_In in Hin. destruct Hin as [Hin Hr].
    apply andb_true_iff in Hr. tauto.
  - intros (Hin & Hlo & Hhi).
    apply (Permutation_in _ (Permutation_sym (order_by_date_perm _))).
    apply filter_In. split; [exact Hin|]. now rewrite Hlo, Hhi.
Qed.

Lemma get_schedules_range_witness :
  ascending [mkSchedule "2024-02-02" "E2"; mkSchedule "2024-02-03" "E1"]
  /\ Permutation [mkSchedule "2024-02-02" "E2"; mkSchedule "2024-02-03" "E1"]
       (filter (in_stated_range (Some "2024-02-02") None) (schedules office))
  /\ (forall s,
        In s [mkSchedule "2024-02-02" "E2"; mkSchedule "2024-02-03" "E1"] <->
        In s (schedules office)
        /\ above (Some "2024-02-02") s = true /\ below None s = true).
Proof.
  refine (proj1 (get_schedules_range (Some "2024-02-02") None (live office [])
                   _ _)
            [mkSchedule "2024-02-02" "E2"; mkSchedule "2024-02-03" "E1"]
            (snd (get_schedules (Some "2024-02-02") None (live office [])))
            eq_refl); discriminate.
Defined.

(** ** The upsert of [create_employee] *)

(** What a [create_employee] that returns has stored: the row of the
    number and the name as the columns hold them. *)
Lemma create_employee_stored nm n ka md w r w' :
  create_employee nm n ka md w = (Ok r, w') ->
  r = n
  /\ exists n' nm',
       Sql.varchar 36 n = Ok n' /\ Sql.varchar 255 nm = Ok nm'
       /\ employees (db w')
          = upsert_rows n' nm' (or_else ka []) (or_else md []) (employees (db w))
       /\ schedules (db w') = schedules (db w).
Proof.
  unfold create_employee, bind, try_except.
  destruct (connect_if_needed w) as [[[]|e] w0] eqn:E0; [|discriminate].
  pose proof (connect_if_needed_tables _ _ _ E0) as [He0 Hs0].
  match goal with |- context [execute ?q w0] =>
    destruct (execute q w0) as [[[]|e] w1] eqn:E1; [|discriminate]
  end.
  intros [= <- <-]. split; [reflexivity|].
  apply execute_inv in E1.
  destruct E1 as [(x & Hx & _) | (a & _ & Hq & _)]; [discriminate|].
  unfold Sql.upsert_employee in Hq.
  apply stored_as_inv in Hq. destruct Hq as (n' & Hn & Hq).
  apply stored_as_inv in Hq. destruct Hq as (nm' & Hnm & Hq).
  apply stored_as_inv in Hq. destruct Hq as (c & Hc & Hq).
  apply integer_inv in Hc. subst c.
  exists n', nm'. split; [exact Hn|]. split; [exact Hnm|].
  unfold Sql.upsert_employee_row, Sql.has_employee in Hq. unfold upsert_rows.
  rewrite <- He0, <- Hs0.
  destruct (existsb _ (employees (db w0))); injection Hq as _ Hq;
    rewrite <- Hq; simpl; auto.
Qed.

Lemma create_employee_ok nm n ka md w r w' :
  (String.length n <= 36)%nat -> (String.length nm <= 255)%nat ->
  create_employee nm n ka md w = (Ok r, w') ->
  r = n
  /\ employees (db w')
     = upsert_rows n nm (or_else ka []) (or_else md []) (employees (db w))
  /\ schedules (db w') = schedules (db w).
Proof.
  intros Hn Hnm H. apply create_employee_stored in H.
  destruct H as (-> & n' & nm' & En & Enm & He & Hs).
  rewrite (varchar_fits _ _ Hn) in En. rewrite (varchar_fits _ _ Hnm) in Enm.
  injection En as <-. injection Enm as <-. auto.
Qed.

Lemma upsert_employee_fits n nm ka md :
  (String.length n <= 36)%nat -> (String.length nm <= 255)%nat ->
  Sql.upsert_employee n nm 0 ka md = Sql.upsert_employee_row n nm 0 ka md.
Proof.
  intros Hn Hnm. unfold Sql.upsert_employee.
  rewrite (varchar_fits _ _ Hn), (varchar_fits _ _ Hnm). reflexivity.
Qed.

Lemma create_employee_calm nm n ka md w :
  (String.length n <= 36)%nat -> (String.length nm <= 255)%nat ->
  calm w -> exists w', create_employee nm n ka md w = (Ok n, w') /\ steady w'.
Proof.
  intros Hn Hnm Hcalm.
  destruct (connect_if_needed_calm w Hcalm) as (w0 & E0 & H0 & _).
  unfold create_employee, bind, try_except. rewrite E0.
  rewrite execute_steady by exact H0.
  rewrite (upsert_employee_fits _ _ _ _ Hn Hnm). unfold Sql.upsert_employee_row.
  destruct (Sql.has_employee n (db w0));
    (eexists; split; [reflexivity | auto with steady]).
Qed.

Lemma upsert_rows_keys n nm ka md emps :
  NoDup (map employee_number emps) ->
  NoDup (map employee_number (upsert_rows n nm ka md emps)).
Proof.
  intros H. unfold upsert_rows.
  destruct (existsb _ emps) eqn:E.
  - rewrite map_map.
    erewrite map_ext; [exact H|].
    intros e. simpl. now destruct (employee_number e =? n)%string.
  - rewrite map_app. simpl.
    apply NoDup_app; [exact H | repeat constructor; intros [] |].
    intros x Hin [<-|[]].
    apply in_map_iff in Hin. destruct Hin as (e & He & Hin).
    assert (existsb (fun e => (employee_number e =? n)%string) emps = true) as Ht.
    { apply existsb_exists. exists e. split; [exact Hin|].
      now apply String.eqb_eq. }
    congruence.
Qed.

Lemma upsert_rows_stored n nm ka md emps :
  find (fun e => employee_number e =? n)%string (upsert_rows n nm ka md emps)
  = Some (mkEmployee n nm
            match find (fun e => employee_number e =? n)%string emps with
            | Some e => first_line_support_count e
            | None => 0
            end ka md).
Proof.
  unfold upsert_rows. destruct (existsb _ emps) eqn:E.
  - induction emps as [|e l IH]; simpl in *; [discriminate|].
    destruct (String.eqb_spec (employee_number e) n) as [K|K]; simpl.
    + rewrite (proj2 (String.eqb_eq _ _) K). now rewrite K.
    + rewrite (proj2 (String.eqb_neq _ _) K). auto.
  - induction emps as [|e l IH]; simpl in *.
    + now rewrite String.eqb_refl.
    + destruct (employee_number e =? n)%string; [discriminate | auto].
Qed.

Lemma unique_key_filter n emps :
  NoDup (map employee_number emps) ->
  filter (fun e => employee_number e =? n)%string emps
  = match find (fun e => employee_number e =? n)%string emps with
    | Some e => [e]
    | None => []
    end.
Proof.
  induction emps as [|e l IH]; simpl; trivial.
  intros H. inversion H as [|? ? Hnot Hl]; subst.
  destruct (String.eqb_spec (employee_number e) n) as [K|K]; [|auto].
  f_equal. rewrite (IH Hl).
  destruct (find _ l) as [x|] eqn:F; trivial.
  exfalso. apply find_some in F. destruct F as [Hin Hx].
  apply String.eqb_eq in Hx. apply Hnot. apply in_map_iff.
  exists x. split; [congruence | exact Hin].
Qed.

Lemma upsert_rows_other n m nm ka md emps :
  m <> n ->
  find (fun e => employee_number e =? m)%string (upsert_rows n nm ka md emps)
  = find (fun e => employee_number e =? m)%string emps.
Proof.
  intros Hne. unfold upsert_rows. destruct (existsb _ emps).
  - induction emps as [|e l IH]; simpl; trivial.
    destruct (String.eqb_spec (employee_number e) n) as [K|K]; simpl.
    + rewrite K. rewrite (proj2 (String.eqb_neq n m)) by congruence. exact IH.
    + destruct (employee_number e =? m)%string; [reflexivity | exact IH].
  - induction emps as [|e l IH]; simpl.
    + now rewrite (proj2 (String.eqb_neq n m)) by congruence.
    + destruct (employee_number e =? m)%string; [reflexivity | exact IH].
Qed.

(** One successful [create_employee]: the row it leaves under the number,
    and what it keeps. *)
Lemma create_employee_step nm n ka md w r w' :
  (String.length n <= 36)%nat -> (String.length nm <= 255)%nat ->
  create_employee nm n ka md w = (Ok r, w') ->
  stored n (db w')
  = Some (mkEmployee n nm
            match stored n (db w) with
            | Some e => first_line_support_count e
            | None => 0
            end (or_else ka []) (or_else md []))
  /\ (forall m, m <> n -> stored m (db w') = stored m (db w))
  /\ (employee_keys_unique (db w) -> employee_keys_unique (db w')).
Proof.
  intros Hn Hnm H. apply create_employee_ok in H; trivial.
  destruct H as (_ & He & _).
  unfold stored, employee_keys_unique. rewrite He.
  split; [apply upsert_rows_stored|].
  split; [intros m Hm; now apply upsert_rows_other | apply upsert_rows_keys].
Qed.

(** C5: [create_employee] is an upsert keyed by [employee_number], for a
    number and names that fit their columns ([VARCHAR(36)] and
    [VARCHAR(255)]).  In a store whose employee numbers are unique, two
    calls with the same number that return leave exactly one row for that
    number; it bears the name, absences and metadata of the second call,
    and its [first_line_support_count] is the one stored after the first
    call, which in turn is the one stored before it if the row was already
    there.  When the store answers, both calls return the number. *)
Theorem create_employee_upsert n nm1 ka1 md1 nm2 ka2 md2 w :
  (String.length n <= 36)%nat ->
  (String.length nm1 <= 255)%nat ->
  (String.length nm2 <= 255)%nat ->
  employee_keys_unique (db w) ->
  (forall r1 w1 r2 w2,
     create_employee nm1 n ka1 md1 w = (Ok r1, w1) ->
     create_employee nm2 n ka2 md2 w1 = (Ok r2, w2) ->
     exists c,
       filter (fun e => employee_number e =? n)%string (employees (db w2))
       = [mkEmployee n nm2 c (or_else ka2 []) (or_else md2 [])]
       /\ stored_count n (db w1) = Some c
       /\ (forall e, stored n (db w) = Some e -> first_line_support_count e = c)
       /\ employee_keys_unique (db w2)) /\
  (calm w ->
   exists w1 w2,
     create_employee nm1 n ka1 md1 w = (Ok n, w1)
     /\ create_employee nm2 n ka2 md2 w1 = (Ok n, w2)).
Proof.
  intros Hn Hnm1 Hnm2 Hu. split.
  - intros r1 w1 r2 w2 H1 H2.
    apply create_employee_step in H1; trivial. destruct H1 as (S1 & _ & U1).
    apply create_employee_step in H2; trivial. destruct H2 as (S2 & _ & U2).
    rewrite S1 in S2. simpl in S2.
    eexists. split; [|split; [|split]].
    + rewrite unique_key_filter by (apply U2, U1, Hu). unfold stored in S2.
      rewrite S2. reflexivity.
    + unfold stored_count. rewrite S1. reflexivity.
    + intros e He. unfold stored in *. now rewrite He.
    + auto.
  - intros Hcalm.
    destruct (create_employee_calm nm1 n ka1 md1 w Hn Hnm1 Hcalm) as (w1 & E1 & H1).
    destruct (create_employee_calm nm2 n ka2 md2 w1 Hn Hnm2 (steady_calm _ H1))
      as (w2 & E2 & _).
    eauto.
Qed.

Lemma create_employee_upsert_witness :
  exists c,
    filter (fun e => employee_number e =? "E1")%string
      (employees (db (snd (create_employee "Ada L." "E1" (Some ["2024-02-05"]) None
         (snd (create_employee "A. Lovelace" "E1" None None (live office [])))))))
    = [mkEmployee "E1" "Ada L." c ["2024-02-05"] []]
    /\ stored_count "E1"
         (db (snd (create_employee "A. Lovelace" "E1" None None (live office []))))
       = Some c
    /\ (forall e, stored "E1" office = Some e -> first_line_support_count e = c)
    /\ employee_keys_unique
         (db (snd (create_employee "Ada L." "E1" (Some ["2024-02-05"]) None
            (snd (create_employee "A. Lovelace" "E1" None None (live office [])))))).
Proof.
  refine (proj1 (create_employee_upsert "E1" "A. Lovelace" None None
                   "Ada L." (Some ["2024-02-05"]) None (live office []) _ _ _ _)
            "E1" (snd (create_employee "A. Lovelace" "E1" None None (live office [])))
            "E1" _ eq_refl eq_refl).
  - simpl. lia.
  - simpl. lia.
  - simpl. lia.
  - repeat constructor; simpl; intuition discriminate.
Defined.

(** Outside the columns.  A number of 37 characters that does not end in a
    space is refused by the store, and [create_employee] raises; one that
    ends in a space is cut to 36 characters, and the row is stored under
    the cut number, not under the number that was given and returned. *)
Lemma create_employee_outside_columns :
  fst (create_employee "Ada" "0123456789012345678901234567890123456" None None
         (live (mkDB [] [] None) []))
  = Raise StringDataRightTruncation
  /\ fst (create_employee "Ada" "012345678901234567890123456789012345 " None None
            (live (mkDB [] [] None) []))
     = Ok "012345678901234567890123456789012345 "
  /\ map employee_number
       (employees
          (db (snd (create_employee "Ada" "012345678901234567890123456789012345 "
                      None None (live (mkDB [] [] None) [])))))
     = ["012345678901234567890123456789012345"].
Proof. repeat split; vm_compute; reflexivity. Qed.

(** ** [update_employee] and the stored duty count *)

Lemma update_employee_cases n ups w r w' :
  update_employee n ups w = (r, w') ->
  schedules (db w') = schedules (db w)
  /\ ((r = Ok true
       /\ exists e0 nm',
            stored n (db w) = Some e0
            /\ Sql.varchar 255 (name (fold_left setitem ups e0)) = Ok nm'
            /\ Sql.integer (first_line_support_count (fold_left setitem ups e0))
               = Ok (first_line_support_count (fold_left setitem ups e0))
            /\ employees (db w')
               = overwrite_rows n
                   (mkEmployee n nm'
                      (first_line_support_count (fold_left setitem ups e0))
                      (known_absences (fold_left setitem ups e0))
                      (metadata (fold_left setitem ups e0)))
                   (employees (db w)))
      \/ (r <> Ok true /\ employees (db w') = employees (db w))).
Proof.
  unfold update_employee, bind, try_except.
  destruct (connect_if_needed w) as [[[]|e] w0] eqn:E0;
    pose proof (connect_if_needed_tables _ _ _ E0) as [He0 Hs0].
  2:{ intros [= <- <-]. split; [exact Hs0|]. right. split; [discriminate | exact He0]. }
  destruct (get_employee n w0) as [[[x|]|e] w1] eqn:E1;
    pose proof (get_employee_inv _ _ _ _ E1) as [[He1 Hs1] Hx].
  2,3: intros [= <- <-]; split; [congruence|]; right;
       split; [discriminate | congruence].
  specialize (Hx x eq_refl).
  match goal with |- context [execute ?q w1] =>
    destruct (execute q w1) as [[[]|e] w2] eqn:E2
  end; apply execute_inv in E2;
    destruct E2 as [(y & Hy & Hd2) | (a & Ha & Hq & _)]; try discriminate.
  - intros [= <- <-]. unfold Sql.update_employee in Hq.
    apply stored_as_inv in Hq. destruct Hq as (nm' & Hnm & Hq).
    apply stored_as_inv in Hq. destruct Hq as (c & Hc & Hq).
    pose proof (integer_inv _ _ Hc) as ->.
    unfold Sql.update_employee_row in Hq. injection Hq as _ Hq.
    rewrite <- Hq. simpl. split; [congruence|]. left. split; [reflexivity|].
    exists x, nm'. split; [|split; [exact Hnm | split; [exact Hc|]]].
    + unfold stored in *. now rewrite <- He0.
    + unfold overwrite_rows. simpl. now rewrite He1, He0.
  - intros [= <- <-]. rewrite Hd2. split; [congruence|]. right.
    split; [discriminate | congruence].
Qed.

Lemma overwrite_rows_stored n m emps e0 :
  find (fun e => employee_number e =? n)%string emps = Some e0 ->
  find (fun e => employee_number e =? n)%string (overwrite_rows n m emps)
  = Some (mkEmployee n (name m) (first_line_support_count m)
                     (known_absences m) (metadata m)).
Proof.
  unfold overwrite_rows. induction emps as [|e l IH]; simpl; [discriminate|].
  destruct (String.eqb_spec (employee_number e) n) as [K|K]; simpl.
  - intros _. rewrite (proj2 (String.eqb_eq _ _) K). now rewrite K.
  - rewrite (proj2 (String.eqb_neq _ _) K). exact IH.
Qed.

Lemma overwrite_rows_other n k m emps :
  k <> n ->
  find (fun e => employee_number e =? k)%string (overwrite_rows n m emps)
  = find (fun e => employee_number e =? k)%string emps.
Proof.
  intros Hne. unfold overwrite_rows. induction emps as [|e l IH]; simpl; trivial.
  destruct (String.eqb_spec (employee_number e) n) as [K|K]; simpl.
  - rewrite K. rewrite (proj2 (String.eqb_neq n k)) by congruence. exact IH.
  - destruct (employee_number e =? k)%string; [reflexivity | exact IH].
Qed.

(** The count of the merged record is the supplied one, if one was
    supplied, and the one read otherwise. *)
Lemma merged_count_gen ups :
  forall e acc c0,
    or_else acc c0 = first_line_support_count e ->
    or_else (fold_left (fun acc item =>
                          match item with
                          | Item_first_line_support_count v => Some v
                          | _ => acc
                          end) ups acc) c0
    = first_line_support_count (fold_left setitem ups e).
Proof.
  induction ups as [|item ups IH]; intros e acc c0 H; simpl; [exact H|].
  apply IH. destruct item; simpl; trivial.
Qed.

Lemma merged_count ups e0 :
  first_line_support_count (fold_left setitem ups e0)
  = or_else (supplied_count ups) (first_line_support_count e0).
Proof. symmetry. apply merged_count_gen. reflexivity. Qed.

(** The same for the other three columns. *)
Lemma merged_name ups e0 :
  name (fold_left setitem ups e0) = or_else (supplied_name ups) (name e0).
Proof.
  unfold supplied_name.
  assert (forall e acc, or_else acc (name e0) = name e ->
            or_else (fold_left (fun acc item =>
                                  match item with
                                  | Item_name v => Some v
                                  | _ => acc
                                  end) ups acc) (name e0)
            = name (fold_left setitem ups e)) as H.
  { induction ups as [|item ups IH]; intros e acc H; simpl; [exact H|].
    apply IH. destruct item; simpl; trivial. }
  symmetry. apply H. reflexivity.
Qed.

Lemma merged_absences ups e0 :
  known_absences (fold_left setitem ups e0)
  = or_else (supplied_absences ups) (known_absences e0).
Proof.
  unfold supplied_absences.
  assert (forall e acc, or_else acc (known_absences e0) = known_absences e ->
            or_else (fold_left (fun acc item =>
                                  match item with
                                  | Item_known_absences v => Some v
                                  | _ => acc
                                  end) ups acc) (known_absences e0)
            = known_absences (fold_left setitem ups e)) as H.
  { induction ups as [|item ups IH]; intros e acc H; simpl; [exact H|].
    apply IH. destruct item; simpl; trivial. }
  symmetry. apply H. reflexivity.
Qed.

Lemma merged_metadata ups e0 :
  metadata (fold_left setitem ups e0)
  = or_else (supplied_metadata ups) (metadata e0).
Proof.
  unfold supplied_metadata.
  assert (forall e acc, or_else acc (metadata e0) = metadata e ->
            or_else (fold_left (fun acc item =>
                                  match item with
                                  | Item_metadata v => Some v
                                  | _ => acc
                                  end) ups acc) (metadata e0)
            = metadata (fold_left setitem ups e)) as H.
  { induction ups as [|item ups IH]; intros e acc H; simpl; [exact H|].
    apply IH. destruct item; simpl; trivial. }
  symmetry. apply H. reflexivity.
Qed.

(** What an [update_employee] that returned [True] has stored, when the
    name that was to be written fits its column. *)
Lemma update_employee_stored n ups w w' e0 :
  stored n (db w) = Some e0 ->
  (String.length (or_else (supplied_name ups) (name e0)) <= 255)%nat ->
  update_employee n ups w = (Ok true, w') ->
  employees (db w') = overwrite_rows n (updated_row n ups e0) (employees (db w))
  /\ stored n (db w') = Some (updated_row n ups e0)
  /\ -2147483648 <= or_else (supplied_count ups) (first_line_support_count e0)
                  <= 2147483647.
Proof.
  intros He0 Hfit H. apply update_employee_cases in H.
  destruct H as (_ & [(_ & e1 & nm' & He1 & Hnm & Hc & He) | (Hr & _)]);
    [|now elim Hr].
  assert (e1 = e0) as -> by congruence.
  rewrite merged_name in Hnm. rewrite (varchar_fits _ _ Hfit) in Hnm.
  injection Hnm as <-.
  rewrite merged_count in Hc.
  rewrite merged_count, merged_absences, merged_metadata in He.
  fold (updated_row n ups e0) in He.
  split; [exact He|]. split.
  - unfold stored in *. rewrite He.
    now rewrite (overwrite_rows_stored _ _ _ _ He0).
  - unfold Sql.integer in Hc.
    destruct (-2147483648 <=? _) eqn:A; [|discriminate].
    destruct (_ <=? 2147483647) eqn:B; [|discriminate].
    apply Z.leb_le in A, B. split; assumption.
Qed.

Lemma count_kept_refl n d : count_kept n d d.
Proof. intros v H. exact H. Qed.

Lemma count_kept_trans n a b c :
  count_kept n a b -> count_kept n b c -> count_kept n a c.
Proof. intros H1 H2 v H. auto. Qed.

Lemma same_tables_count_kept n d d' : same_tables d d' -> count_kept n d d'.
Proof.
  intros [He _] v. unfold stored_count, stored. now rewrite He.
Qed.

Lemma keeps_tables_count {A} n (m : M A) :
  keeps same_tables m -> keeps (count_kept n) m.
Proof. intros H w r w' E. apply same_tables_count_kept. eapply H. exact E. Qed.

Lemma upsert_employee_count_kept n k nm ka md :
  stmt_keeps (count_kept n) (Sql.upsert_employee k nm 0 ka md).
Proof.
  unfold Sql.upsert_employee. stored k. stored nm.
  apply stored_as_keeps. intros c Hc. apply integer_inv in Hc. subst c.
  intros d a d' H v Hv.
  assert (employees d' = upsert_rows k nm ka md (employees d)) as He.
  { unfold Sql.upsert_employee_row, Sql.has_employee, upsert_rows in *.
    destruct (existsb _ (employees d)); injection H as _ <-; reflexivity. }
  unfold stored_count, stored in *. rewrite He.
  destruct (String.eqb_spec k n) as [->|K].
  - rewrite upsert_rows_stored. simpl.
    destruct (find _ (employees d)); [exact Hv | discriminate].
  - rewrite upsert_rows_other by congruence. exact Hv.
Qed.

#[local] Hint Resolve keeps_tables_count upsert_employee_count_kept : keeps.

Ltac keeps_count n := repeat keeps_step (count_kept_refl n) (count_kept_trans n).

Lemma create_employee_count_kept n nm k ka md :
  keeps (count_kept n) (create_employee nm k ka md).
Proof. unfold create_employee. keeps_count n. Qed.

Lemma init_loop_tables k md d : keeps same_tables (init_loop k md d).
Proof.
  revert d. induction k as [|k IH]; intros d w r w'; simpl.
  - destruct (conn w); intros [= <- <-]; apply same_tables_refl.
  - destruct (conn w); try (intros [= <- <-]; apply same_tables_refl).
    revert w r w'. apply (keeps_try _ same_tables_trans).
    + apply connect_tables.
    + intros e. destruct k; keeps_tables.
Qed.

#[local] Hint Resolve init_loop_tables : keeps.

Lemma init_keeps_tables mr i md : keeps same_tables (init mr i md).
Proof. unfold init. keeps_tables. Qed.

Lemma close_tables : keeps same_tables close.
Proof.
  intros w r w'. unfold close. destruct (conn w); intros [= <- <-];
    apply same_tables_refl.
Qed.

Lemma update_employee_count_kept n k ups :
  k <> n \/ supplied_count ups = None ->
  keeps (count_kept n) (update_employee k ups).
Proof.
  intros Hleave w r w' E v Hv. apply update_employee_cases in E.
  destruct E as (_ & [(_ & e0 & nm' & He0 & _ & _ & He) | (_ & He)]).
  - unfold stored_count, stored in *. rewrite He.
    destruct (String.eqb_spec k n) as [->|K].
    + destruct Hleave as [Hk|Hnone]; [now elim Hk|].
      rewrite (overwrite_rows_stored _ _ _ _ He0). simpl.
      rewrite merged_count, Hnone. simpl.
      rewrite He0 in Hv. exact Hv.
    + rewrite overwrite_rows_other by congruence. exact Hv.
  - unfold stored_count, stored in *. now rewrite He.
Qed.

Lemma delete_employee_count_kept n k :
  k <> n -> keeps (count_kept n) (delete_employee k).
Proof.
  intros Hk w r w' E v Hv. apply delete_employee_cases in E.
  unfold stored_count in *.
  destruct E as [(_ & _ & He & _) | (_ & He & _)].
  - rewrite (stored_without_employee k n (db w) (db w')); auto.
  - unfold stored in *. now rewrite He.
Qed.

(** A call that leaves the count of [n] alone keeps a stored count. *)
Lemma after_count_kept n c w :
  leaves_count n c -> count_kept n (db w) (db (after c w)).
Proof.
  intros Hl.
  assert (forall A (m : M A), keeps (count_kept n) m ->
            count_kept n (db w) (db (snd (m w)))) as Hk.
  { intros A m Hm. destruct (m w) as [r w'] eqn:E. exact (Hm _ _ _ E). }
  destruct c; simpl in *; apply Hk.
  - apply keeps_tables_count, connect_tables.
  - apply keeps_tables_count, init_keeps_tables.
  - apply keeps_tables_count, await_up_tables.
  - apply keeps_tables_count, close_tables.
  - apply create_employee_count_kept.
  - apply keeps_tables_count, get_employee_tables.
  - apply keeps_tables_count, get_employees_tables.
  - now apply update_employee_count_kept.
  - now apply delete_employee_count_kept.
  - apply keeps_tables_count, get_schedule_tables.
  - apply keeps_tables_count, get_schedules_tables.
  - apply keeps_tables_count, get_rules_tables.
  - apply keeps_tables_count, update_rules_keeps_tables.
Qed.

Lemma after_all_count_kept n calls w :
  Forall (leaves_count n) calls -> count_kept n (db w) (db (after_all calls w)).
Proof.
  unfold after_all. revert w. induction calls as [|c l IH]; intros w H; simpl.
  - apply count_kept_refl.
  - inversion H as [|? ? Hc Hl]; subst.
    apply (count_kept_trans n _ (db (after c w))).
    + apply after_count_kept, Hc.
    + apply IH, Hl.
Qed.

Lemma consistent_stored_count n d e :
  counts_consistent d -> stored n d = Some e ->
  stored_count n d = Some (Sql.count_of n (schedules d)).
Proof.
  unfold counts_consistent, stored_count, stored. intros Hc Hs. rewrite Hs. simpl.
  apply find_some in Hs. destruct Hs as [Hin Hn]. apply String.eqb_eq in Hn.
  rewrite Forall_forall in Hc. rewrite (Hc _ Hin), Hn. reflexivity.
Qed.

Lemma same_numbers_refl d : same_numbers d d.
Proof. reflexivity. Qed.

Lemma same_numbers_trans a b c :
  same_numbers a b -> same_numbers b c -> same_numbers a c.
Proof. unfold same_numbers. congruence. Qed.

Lemma keeps_tables_numbers {A} (m : M A) :
  keeps same_tables m -> keeps same_numbers m.
Proof.
  intros H w r w' E. destruct (H _ _ _ E) as [He _].
  unfold same_numbers. now rewrite He.
Qed.

Lemma same_numbers_stored n d d' e :
  same_numbers d d' -> stored n d = Some e -> exists e', stored n d' = Some e'.
Proof.
  unfold same_numbers. intros H Hs. apply has_stored.
  apply stored_has in Hs. unfold Sql.has_employee in *.
  rewrite <- (map_id (employees d)) in Hs.
  assert (forall l, existsb (fun e => (employee_number e =? n)%string) l
                    = existsb (fun k => (k =? n)%string) (map employee_number l)) as Hm.
  { induction l as [|x l IH]; simpl; [reflexivity | now rewrite IH]. }
  rewrite map_id in Hs. rewrite Hm in *. now rewrite H.
Qed.

Lemma upsert_schedule_numbers d k : stmt_keeps same_numbers (Sql.upsert_schedule d k).
Proof.
  unfold Sql.upsert_schedule. stored d. stored k.
  intros db0 a db1. unfold Sql.upsert_schedule_row.
  destruct (negb _); [discriminate|].
  destruct (Sql.has_schedule d db0); intros [= _ <-]; reflexivity.
Qed.

Lemma update_schedule_numbers k d : stmt_keeps same_numbers (Sql.update_schedule k d).
Proof.
  unfold Sql.update_schedule. stored k.
  intros db0 a db1. unfold Sql.update_schedule_row.
  destruct (andb _ _); [discriminate|]. intros [= _ <-]. reflexivity.
Qed.

Lemma delete_schedule_numbers d : stmt_keeps same_numbers (Sql.delete_schedule d).
Proof. intros db0 a db1. unfold Sql.delete_schedule. intros [= _ <-]. reflexivity. Qed.

Lemma reset_counts_numbers : stmt_keeps same_numbers Sql.reset_counts.
Proof.
  intros db0 a db1. unfold Sql.reset_counts. intros [= _ <-].
  unfold same_numbers. simpl. rewrite map_map. reflexivity.
Qed.

Lemma set_count_numbers c k : stmt_keeps same_numbers (Sql.set_count c k).
Proof.
  intros db0 a db1. unfold Sql.set_count. intros [= _ <-].
  unfold same_numbers. simpl. rewrite map_map. apply map_ext.
  intros e. now destruct (employee_number e =? k)%string.
Qed.

#[local] Hint Resolve keeps_tables_numbers upsert_schedule_numbers
  update_schedule_numbers delete_schedule_numbers reset_counts_numbers
  set_count_numbers : keeps.

Ltac keeps_numbers := repeat keeps_step same_numbers_refl same_numbers_trans.

Lemma _update_employee_counts_numbers : keeps same_numbers _update_employee_counts.
Proof.
  unfold _update_employee_counts, count_statements. keeps_numbers.
Qed.

#[local] Hint Resolve _update_employee_counts_numbers : keeps.

Lemma create_schedule_numbers d k : keeps same_numbers (create_schedule d k).
Proof. unfold create_schedule. keeps_numbers. Qed.

Lemma update_schedule_keeps_numbers d k : keeps same_numbers (update_schedule d k).
Proof. unfold update_schedule. keeps_numbers. Qed.

Lemma delete_schedule_keeps_numbers d : keeps same_numbers (delete_schedule d).
Proof. unfold delete_schedule. keeps_numbers. Qed.

(** When the store answers and the merged name and count fit their
    columns, [update_employee] returns whether the employee was there. *)
Lemma update_employee_calm n ups w :
  calm w ->
  (forall e0, stored n (db w) = Some e0 ->
     (String.length (name (fold_left setitem ups e0)) <= 255)%nat
     /\ -2147483648 <= first_line_support_count (fold_left setitem ups e0)
                     <= 2147483647) ->
  exists w', update_employee n ups w = (Ok (Sql.has_employee n (db w)), w')
             /\ steady w'.
Proof.
  intros Hcalm Hfit.
  destruct (connect_if_needed_calm w Hcalm) as (w0 & E0 & H0 & [He0 _]).
  unfold update_employee, bind, try_except. rewrite E0.
  destruct (get_employee_steady n w0 H0) as (w1 & -> & H1 & Hd1).
  assert (Sql.has_employee n (db w0) = Sql.has_employee n (db w)) as Hsame.
  { unfold Sql.has_employee. now rewrite He0. }
  destruct (Sql.has_employee n (db w)) eqn:Hhas.
  - destruct (has_stored _ _ Hsame) as (x & Hx). rewrite Hx.
    destruct (Hfit x) as [Hnm Hc]; [unfold stored in *; now rewrite <- He0|].
    rewrite execute_steady by exact H1. unfold Sql.update_employee.
    rewrite (varchar_fits _ _ Hnm), (integer_fits _ Hc). simpl.
    eexists. split; [reflexivity | auto with steady].
  - rewrite (not_has_stored _ _ Hsame). exists w1. split; [reflexivity | exact H1].
Qed.

(** C10: for an employee that exists, an [update_employee] that returns
    [True] has written back every field of the merged record, the duty count
    included: each of the columns [name], [first_line_support_count],
    [known_absences] and [metadata] holds the value that [updates] carries
    under its key, or else the value that was stored (the name being one
    that fits its [VARCHAR(255)] column); in particular, if [updates]
    carries the key [first_line_support_count], the stored count is the
    supplied value.  The stored count then stays what it is through every
    other call of the client that is not a schedule mutation, an
    [update_employee] of the same employee that carries the key again, or
    the deletion of the employee; and the next schedule mutation that
    succeeds while the store answers replaces it by the number of schedule
    rows that reference the employee. *)
Theorem update_employee_overwrites_count n ups w w' e0 :
  stored n (db w) = Some e0 ->
  (String.length (or_else (supplied_name ups) (name e0)) <= 255)%nat ->
  update_employee n ups w = (Ok true, w') ->
  stored n (db w')
  = Some (mkEmployee n
            (or_else (supplied_name ups) (name e0))
            (or_else (supplied_count ups) (first_line_support_count e0))
            (or_else (supplied_absences ups) (known_absences e0))
            (or_else (supplied_metadata ups) (metadata e0)))
  /\ (forall v, supplied_count ups = Some v -> stored_count n (db w') = Some v)
  /\ (forall calls,
        Forall (leaves_count n) calls ->
        stored_count n (db (after_all calls w')) = stored_count n (db w'))
  /\ (forall calls w2,
        Forall (leaves_count n) calls ->
        calm (after_all calls w') ->
        (exists d k r, create_schedule d k (after_all calls w') = (Ok r, w2))
        \/ (exists d k, update_schedule d k (after_all calls w') = (Ok true, w2))
        \/ (exists d, delete_schedule d (after_all calls w') = (Ok true, w2)) ->
        stored_count n (db w2) = Some (Sql.count_of n (schedules (db w2)))).
Proof.
  intros He0 Hfit H.
  destruct (update_employee_stored _ _ _ _ _ He0 Hfit H) as (_ & Hst & _).
  unfold updated_row in Hst.
  assert (forall calls, Forall (leaves_count n) calls ->
            stored_count n (db (after_all calls w')) = stored_count n (db w'))
    as Hkept.
  { intros calls Hl. unfold stored_count at 2. rewrite Hst. simpl.
    apply (after_all_count_kept n calls w' Hl).
    unfold stored_count. now rewrite Hst. }
  split; [exact Hst|]. split; [|split].
  - intros v Hv. unfold stored_count. rewrite Hst. simpl. now rewrite Hv.
  - exact Hkept.
  - intros calls w2 Hl Hcalm Hmut.
    assert (exists e, stored n (db (after_all calls w')) = Some e) as (e1 & He1).
    { specialize (Hkept calls Hl). unfold stored_count in Hkept.
      rewrite Hst in Hkept. simpl in Hkept.
      destruct (stored n (db (after_all calls w'))); [eauto | discriminate]. }
    assert (counts_consistent (db w2)
            /\ same_numbers (db (after_all calls w')) (db w2)) as [Hc Hn].
    { destruct Hmut as [(d & k & r & E) | [(d & k & E) | (d & E)]].
      - split; [exact (create_schedule_consistent _ _ _ _ _ Hcalm E)|].
        exact (create_schedule_numbers _ _ _ _ _ E).
      - split; [exact (update_schedule_consistent _ _ _ _ Hcalm E)|].
        exact (update_schedule_keeps_numbers _ _ _ _ _ E).
      - split; [exact (delete_schedule_consistent _ _ _ Hcalm E)|].
        exact (delete_schedule_keeps_numbers _ _ _ _ E). }
    destruct (same_numbers_stored n _ _ _ Hn He1) as (e2 & He2).
    exact (consistent_stored_count n _ _ Hc He2).
Qed.

Lemma update_employee_overwrites_count_witness :
  stored "E1" (db tampered) = Some (mkEmployee "E1" "Ada" 7 [] [])
  /\ stored_count "E1" (db tampered) = Some 7
  /\ stored_count "E1"
       (db (after_all [Call_get_employees;
                       Call_create_employee "Ada L." "E1" None None;
                       Call_update_employee "E1" [Item_name "Ada"];
                       Call_delete_employee "E2"] tampered))
     = Some 7.
Proof.
  destruct (update_employee_overwrites_count "E1"
              [Item_first_line_support_count 7] (live office []) tampered
              (with_count 2 ada) eq_refl ltac:(simpl; lia) eq_refl)
    as (Hst & Hset & Hkept & _).
  split; [exact Hst|]. split.
  - apply Hset. reflexivity.
  - rewrite Hkept.
    + apply Hset. reflexivity.
    + repeat constructor; simpl; auto; discriminate.
Defined.

(** ** The front-fill loop of the bootstrap *)

Lemma item_mod_some {A} (l : list A) i :
  l <> [] -> exists x, nth_error l (i mod List.length l) = Some x
                       /\ item_mod l i = Ok x /\ In x l.
Proof.
  intros Hne. unfold item_mod.
  destruct (nth_error l (i mod List.length l)) as [x|] eqn:E.
  - exists x. split; [reflexivity|]. split; [reflexivity|].
    eapply nth_error_In. exact E.
  - exfalso. apply nth_error_None in E.
    assert (List.length l <> 0)%nat as Hl by (destruct l; simpl; congruence).
    pose proof (Nat.mod_upper_bound i (List.length l) Hl). lia.
Qed.

(** [absent_on] is the membership test of the list of absences, and the
    list comprehension of the loop selects the eligible employees. *)
Lemma absent_on_listed date_str e :
  absent_on date_str e = true <-> In date_str (d_known_absences e).
Proof.
  unfold absent_on. rewrite existsb_exists. split.
  - intros (a & Hin & Ha). apply String.eqb_eq in Ha. now subst a.
  - intros Hin. exists date_str. split; [exact Hin | apply String.eqb_refl].
Qed.

Lemma available_eligible emps date_str :
  filter (fun e => negb (absent_on date_str e)) emps = eligible emps date_str.
Proof.
  unfold eligible. apply filter_ext. intros e.
  destruct (in_dec string_dec date_str (d_known_absences e)) as [Hin|Hout].
  - now rewrite (proj2 (absent_on_listed _ _) Hin).
  - destruct (absent_on date_str e) eqn:E; [|reflexivity].
    now apply absent_on_listed in E.
Qed.

(** The choice is [eligible[i mod |eligible|]] when someone is eligible,
    and that employee is not listed as absent on the date. *)
Lemma choose_employee_eligible emps i date_str :
  eligible emps date_str <> [] ->
  exists e,
    nth_error (eligible emps date_str)
              (i mod List.length (eligible emps date_str)) = Some e
    /\ choose_employee emps i date_str = Ok (d_employee_number e)
    /\ In e emps /\ ~ In date_str (d_known_absences e).
Proof.
  intros Hne. destruct (item_mod_some (eligible emps date_str) i Hne)
    as (e & Hnth & Hitem & Hin).
  exists e. split; [exact Hnth|].
  split.
  - unfold choose_employee. rewrite available_eligible.
    destruct (eligible emps date_str) eqn:F; [now elim Hne|]. now rewrite Hitem.
  - unfold eligible in Hin. apply filter_In in Hin. destruct Hin as [Hin Habs].
    split; [exact Hin|].
    now destruct (in_dec string_dec date_str (d_known_absences e)).
Qed.

(** Whoever is chosen is one of the employees. *)
Lemma choose_employee_in emps i date_str k :
  choose_employee emps i date_str = Ok k ->
  exists e, In e emps /\ d_employee_number e = k.
Proof.
  unfold choose_employee, item_mod.
  destruct (filter _ emps) as [|x l] eqn:F.
  - destruct (nth_error emps _) as [e|] eqn:E; [|discriminate].
    intros [= <-]. exists e. split; [eapply nth_error_In; exact E | reflexivity].
  - destruct (nth_error (x :: l) _) as [e|] eqn:E; [|discriminate].
    intros [= <-]. exists e. split; [|reflexivity].
    apply nth_error_In in E. rewrite <- F in E. now apply filter_In in E.
Qed.

(** A date printed by [strftime] has ten characters. *)
Lemma window_date_length today i : String.length (window_date today i) = 10%nat.
Proof.
  unfold window_date, strftime_ymd.
  destruct (civil_from_days (today + Z.of_nat i)) as [[y m] d].
  reflexivity.
Qed.

Lemma choose_employee_total emps i date_str :
  emps <> [] -> exists k, choose_employee emps i date_str = Ok k.
Proof.
  intros Hne. unfold choose_employee.
  destruct (filter _ emps) as [|x l] eqn:F.
  - destruct (item_mod_some emps i Hne) as (e & _ & -> & _). eauto.
  - destruct (item_mod_some (x :: l) i) as (e & _ & -> & _); [discriminate|]. eauto.
Qed.

Lemma reconciled_numbers emps scheds :
  map employee_number (reconciled emps scheds) = map employee_number emps.
Proof. unfold reconciled. rewrite map_map. reflexivity. Qed.

Lemma has_employee_numbers n d d' :
  same_numbers d d' -> Sql.has_employee n d' = Sql.has_employee n d.
Proof.
  unfold same_numbers, Sql.has_employee. intros H.
  assert (forall l, existsb (fun e => (employee_number e =? n)%string) l
                    = existsb (fun k => (k =? n)%string) (map employee_number l)) as Hm.
  { induction l as [|x l IH]; simpl; [reflexivity | now rewrite IH]. }
  now rewrite !Hm, H.
Qed.

(** [create_schedule] on a steady world. *)
Lemma upsert_schedule_fits d k :
  (String.length d <= 10)%nat -> (String.length k <= 36)%nat ->
  Sql.upsert_schedule d k = Sql.upsert_schedule_row d k.
Proof.
  intros Hd Hk. unfold Sql.upsert_schedule.
  rewrite (varchar_fits _ _ Hd), (varchar_fits _ _ Hk). reflexivity.
Qed.

Lemma create_schedule_steady d k w :
  (String.length d <= 10)%nat -> (String.length k <= 36)%nat ->
  steady w ->
  exists r w',
    create_schedule d k w = (r, w') /\ steady w' /\ same_numbers (db w) (db w')
    /\ if Sql.has_employee k (db w)
       then r = Ok d
            /\ schedules (db w') = upsert_schedule_rows d k (schedules (db w))
       else (exists e, r = Raise e) /\ schedules (db w') = schedules (db w).
Proof.
  intros Hd Hk H. unfold create_schedule.
  rewrite (upsert_schedule_fits _ _ Hd Hk). unfold bind, try_except. run_steady.
  unfold Sql.upsert_schedule_row.
  destruct (Sql.has_employee k (db w)) eqn:Hhas; simpl.
  - unfold upsert_schedule_rows, Sql.has_schedule.
    destruct (existsb _ (schedules (db w))) eqn:Hs; simpl;
      match goal with |- context [_update_employee_counts ?x] =>
        destruct (_update_employee_counts_steady x) as (w2 & -> & H2 & He2 & Hs2);
          [auto with steady|]
      end;
      (exists (Ok d), w2; split; [reflexivity|]; split; [exact H2|]; split;
       [unfold same_numbers; rewrite He2, reconciled_numbers; reflexivity
       | split; [reflexivity | rewrite Hs2; reflexivity]]).
  - eexists _, _. split; [reflexivity|]. split; [auto with steady|].
    split; [reflexivity|]. split; [eauto | reflexivity].
Qed.

Lemma find_rows_on d db0 :
  match find (fun s => date s =? d)%string (schedules db0) with
  | Some _ => rows_on d db0 <> []
  | None => rows_on d db0 = []
  end.
Proof.
  unfold rows_on. induction (schedules db0) as [|s l IH]; simpl; trivial.
  destruct (date s =? d)%string; [discriminate | exact IH].
Qed.

Lemma rows_on_has d db0 :
  Sql.has_schedule d db0 = match rows_on d db0 with [] => false | _ :: _ => true end.
Proof.
  unfold Sql.has_schedule, rows_on.
  induction (schedules db0) as [|s l IH]; simpl; trivial.
  destruct (date s =? d)%string; simpl; [reflexivity | exact IH].
Qed.

Lemma rows_on_same d a b : schedules b = schedules a -> rows_on d b = rows_on d a.
Proof. unfold rows_on. now intros ->. Qed.

(** One day of the front-fill, when the store answers. *)
Lemma front_fill_day_steady today emps i w :
  steady w -> emps <> [] -> numbers_fit emps ->
  exists w',
    front_fill_day today emps i w = (Ok tt, w') /\ steady w'
    /\ same_numbers (db w) (db w')
    /\ (forall d, d <> window_date today i -> rows_on d (db w') = rows_on d (db w))
    /\ day_filled emps today i (db w) (db w').
Proof.
  intros H Hne Hfit. unfold front_fill_day, bind. fold (window_date today i).
  unfold day_filled. pose proof (window_date_length today i) as Hlen.
  revert Hlen. generalize (window_date today i) as d. intros d Hlen.
  destruct (get_schedule_steady d w H) as (w1 & -> & H1 & Hd1).
  pose proof (find_rows_on d (db w)) as Hrows.
  destruct (find _ (schedules (db w))) as [s|].
  - exists w1. split; [reflexivity|]. split; [exact H1|]. rewrite Hd1.
    split; [reflexivity|]. split; [reflexivity|].
    destruct (rows_on d (db w)); [now elim Hrows | reflexivity].
  - rewrite Hrows.
    destruct (choose_employee_total emps i d Hne) as (k & Hk). rewrite Hk.
    unfold try_except, bind.
    assert (String.length k <= 36)%nat as Hklen.
    { destruct (choose_employee_in _ _ _ _ Hk) as (e & Hin & <-).
      unfold numbers_fit in Hfit. rewrite Forall_forall in Hfit. now apply Hfit. }
    destruct (create_schedule_steady d k w1) as (r & w2 & -> & H2 & Hn & Hcase);
      [lia | exact Hklen | exact H1 |].
    rewrite Hd1 in Hn, Hcase.
    destruct (Sql.has_employee k (db w)) eqn:Hhas.
    + destruct Hcase as [-> Hs]. exists w2.
      split; [reflexivity|]. split; [exact H2|]. split; [exact Hn|].
      assert (schedules (db w2) = (schedules (db w) ++ [mkSchedule d k])%list) as Hs'.
      { rewrite Hs. unfold upsert_schedule_rows.
        pose proof (rows_on_has d (db w)) as Hh. rewrite Hrows in Hh.
        unfold Sql.has_schedule in Hh. now rewrite Hh. }
      split.
      * intros d' Hd'. unfold rows_on. rewrite Hs', filter_app. simpl.
        rewrite (proj2 (String.eqb_neq d d')) by congruence.
        apply app_nil_r.
      * intros k' [= <-]. rewrite Hhas. unfold rows_on. rewrite Hs', filter_app.
        fold (rows_on d (db w)). rewrite Hrows. simpl.
        now rewrite String.eqb_refl.
    + destruct Hcase as [(e & ->) Hs]. exists w2.
      split; [reflexivity|]. split; [exact H2|]. split; [exact Hn|].
      split.
      * intros d' _. now apply rows_on_same.
      * intros k' [= <-]. rewrite Hhas. rewrite (rows_on_same d _ _ Hs). exact Hrows.
Qed.

(** The loop over a list of offsets whose dates are distinct. *)
Lemma front_fill_offsets today emps offsets :
  forall w,
    steady w -> emps <> [] -> numbers_fit emps ->
    NoDup (map (window_date today) offsets) ->
    exists w',
      for_each offsets (front_fill_day today emps) w = (Ok tt, w') /\ steady w'
      /\ same_numbers (db w) (db w')
      /\ (forall d, ~ In d (map (window_date today) offsets) ->
            rows_on d (db w') = rows_on d (db w))
      /\ (forall i, In i offsets -> day_filled emps today i (db w) (db w')).
Proof.
  induction offsets as [|i l IH]; intros w H Hne Hfit Hnd; simpl.
  - exists w. split; [reflexivity|]. split; [exact H|].
    split; [reflexivity|]. split; [reflexivity | intros i []].
  - inversion Hnd as [|? ? Hnot Hnd']; subst.
    destruct (front_fill_day_steady today emps i w H Hne Hfit)
      as (w1 & E1 & H1 & Hn1 & Hother1 & Hday1).
    destruct (IH w1 H1 Hne Hfit Hnd') as (w2 & E2 & H2 & Hn2 & Hother2 & Hday2).
    exists w2. unfold bind. rewrite E1. split; [exact E2|].
    split; [exact H2|]. split; [exact (same_numbers_trans _ _ _ Hn1 Hn2)|].
    split.
    + intros d Hd. rewrite Hother2, Hother1; trivial.
      * intros ->. apply Hd. now left.
      * intros Hin. apply Hd. now right.
    + intros j [<-|Hj].
      * unfold day_filled in *. rewrite (Hother2 _ Hnot). exact Hday1.
      * specialize (Hday2 j Hj). unfold day_filled in *.
        assert (window_date today j <> window_date today i) as Hji.
        { intros Heq. apply Hnot. rewrite <- Heq. now apply in_map. }
        rewrite (Hother1 _ Hji) in Hday2.
        destruct (rows_on (window_date today j) (db w)); [|exact Hday2].
        intros k Hk. rewrite (Hday2 k Hk). now rewrite (has_employee_numbers k _ _ Hn1).
Qed.

Lemma has_employee_tables k d d' :
  same_tables d d' -> Sql.has_employee k d' = Sql.has_employee k d.
Proof. intros [He _]. unfold Sql.has_employee. now rewrite He. Qed.

Lemma day_filled_before emps today i d0 d1 d2 :
  same_tables d0 d1 -> day_filled emps today i d1 d2 -> day_filled emps today i d0 d2.
Proof.
  intros Ht. unfold day_filled.
  rewrite (rows_on_same _ _ _ (proj2 Ht)).
  destruct (rows_on (window_date today i) d0); trivial.
  intros H k Hk. rewrite (H k Hk). now rewrite (has_employee_tables k _ _ Ht).
Qed.

Lemma get_schedule_reconnect d w w0 :
  connect_if_needed w = (Ok tt, w0) -> steady w0 ->
  get_schedule d w = get_schedule d w0.
Proof.
  intros E0 H0. unfold get_schedule, bind.
  now rewrite E0, (connect_if_needed_steady w0 H0).
Qed.

Lemma for_each_first {A} (x : A) l (body : A -> M unit) w w0 :
  body x w = body x w0 -> for_each (x :: l) body w = for_each (x :: l) body w0.
Proof. intros H. simpl. unfold bind. now rewrite H. Qed.

(** The loop on a world that is calm but may still have to connect: the
    first [get_schedule] connects, and the rest runs on a steady world. *)
Lemma front_fill_calm today emps w :
  calm w -> emps <> [] -> numbers_fit emps ->
  NoDup (map (window_date today) (seq 0 7)) ->
  exists w',
    front_fill today emps w = (Ok tt, w')
    /\ forall i, (i < 7)%nat -> day_filled emps today i (db w) (db w').
Proof.
  intros Hcalm Hne Hfit Hnd.
  destruct (connect_if_needed_calm w Hcalm) as (w0 & E0 & H0 & Ht).
  destruct (front_fill_offsets today emps (seq 0 7) w0 H0 Hne Hfit Hnd)
    as (w' & E & _ & _ & _ & Hdays).
  exists w'. split.
  - unfold front_fill. change (seq 0 7) with (0%nat :: seq 1 6).
    rewrite (for_each_first 0%nat (seq 1 6) (front_fill_day today emps) w w0).
    + exact E.
    + unfold front_fill_day, bind.
      now rewrite (get_schedule_reconnect _ w w0 E0 H0).
  - intros i Hi. apply (day_filled_before emps today i _ (db w0)); [exact Ht|].
    apply Hdays. apply in_seq. lia.
Qed.



Lemma nodup_fixed (l : list string) : nodup string_dec l = l -> NoDup l.
Proof. intros <-. apply NoDup_nodup. Qed.


Lemma default_numbers_fit today :
  numbers_fit (with_absences today default_employees).
Proof.
  unfold numbers_fit, with_absences. rewrite Forall_map.
  unfold default_employees. repeat constructor;
    (match goal with
     | |- context [pattern_of ?k absence_patterns] =>
         destruct (pattern_of k absence_patterns)
     end; simpl; lia).
Qed.


(** The scenario of the specification, run on an empty store on 2024-03-01:
    [EMP001] and [EMP002] are absent that day, and the day goes to
    [EMP003], the first of the three eligible employees. *)
Lemma bootstrap_on_march_1 :
  fst (init_default_data march_1 (fresh (mkDB [] [] None) [])) = Ok tt
  /\ map d_employee_number
       (eligible (with_absences march_1 default_employees) "2024-03-01")
     = ["EMP003"; "EMP004"; "EMP005"]
  /\ schedules (db (snd (init_default_data march_1 (fresh (mkDB [] [] None) []))))
     = [mkSchedule "2024-03-01" "EMP003"; mkSchedule "2024-03-02" "EMP002";
        mkSchedule "2024-03-03" "EMP003"; mkSchedule "2024-03-04" "EMP002";
        mkSchedule "2024-03-05" "EMP005"; mkSchedule "2024-03-06" "EMP003";
        mkSchedule "2024-03-07" "EMP004"].
Proof. repeat split; vm_compute; reflexivity. Qed.

(** * Further properties of the client *)

(** ** Two facts about lists of rows *)

Lemma has_employee_in n d :
  Sql.has_employee n d = true <-> In n (map employee_number (employees d)).
Proof.
  unfold Sql.has_employee. rewrite existsb_exists. split.
  - intros (e & Hin & He). apply String.eqb_eq in He. subst n. now apply in_map.
  - intros Hin. apply in_map_iff in Hin. destruct Hin as (e & <- & Hin).
    exists e. split; [exact Hin | apply String.eqb_refl].
Qed.

Lemma map_date_rewrite (f : Schedule -> Schedule) l :
  (forall s, date (f s) = date s) -> map date (map f l) = map date l.
Proof. intros H. rewrite map_map. apply map_ext. exact H. Qed.

(** ** Connecting and initialising *)

Lemma _init_default_rules_seeds w :
  steady w ->
  exists w', _init_default_rules w = (Ok tt, w') /\ steady w'
             /\ employees (db w') = employees (db w)
             /\ schedules (db w') = schedules (db w)
             /\ rules (db w') = seeded (rules (db w))
             /\ slept w' = slept w
             /\ _tables_created w' = _tables_created w.
Proof.
  intros H. unfold _init_default_rules, try_except, bind. run_steady.
  unfold ret. destruct (rules (db w)) eqn:Hr.
  - eexists; split; [reflexivity|]. simpl. rewrite Hr.
    split; [auto with steady | auto 10].
  - run_steady. unfold Sql.insert_rules, Sql.stored_as, Sql.insert_rules_row.
    simpl. rewrite Hr.
    eexists; split; [reflexivity|]. simpl.
    split; [auto 10 with steady | auto 10].
Qed.

Lemma init_tables_creates w :
  steady w -> _tables_created w = false ->
  exists w', init_tables w = (Ok tt, w') /\ steady w'
             /\ employees (db w') = employees (db w)
             /\ schedules (db w') = schedules (db w)
             /\ rules (db w') = seeded (rules (db w))
             /\ slept w' = slept w
             /\ _tables_created w' = true.
Proof.
  intros H Hc. unfold init_tables. rewrite Hc.
  unfold try_except, bind. run_steady.
  match goal with |- context [_init_default_rules ?x] =>
    destruct (_init_default_rules_seeds x)
      as (w' & -> & Hs & He & Hsch & Hr & Hsl & Htc); [auto 12 with steady|]
  end.
  exists w'. split; [reflexivity|]. split; [exact Hs|].
  simpl in *. auto 10.
Qed.

(** A successful attempt, when the store answers: the handle is live, the
    tables are marked created (by this call or before), and nothing was
    slept. *)
Lemma connect_calm_state mr i md w :
  calm w ->
  exists w', connect mr i md w = (Ok tt, w') /\ steady w'
             /\ same_tables (db w) (db w')
             /\ slept w' = slept w
             /\ _tables_created w' = true
             /\ rules (db w')
                = if _tables_created w then rules (db w) else seeded (rules (db w)).
Proof.
  intros H. unfold connect, try_except, bind, psycopg_connect, next_outcome.
  rewrite (calm_hd _ H).
  assert (steady (with_conn Open (pop w))) as Hs
    by (split; [reflexivity | apply calm_pop, H]).
  destruct (_tables_created w) eqn:Htc.
  - unfold init_tables. simpl. rewrite Htc.
    eexists. split; [reflexivity|]. split; [exact Hs|]. simpl.
    split; [apply same_tables_refl | auto].
  - destruct (init_tables_creates (with_conn Open (pop w)) Hs Htc)
      as (w' & -> & Hs' & He & Hsch & Hr & Hsl & Htc').
    exists w'. split; [reflexivity|]. split; [exact Hs'|]. simpl in *.
    split; [split; assumption | auto].
Qed.

Lemma init_loop_retries fails :
  forall mr md d0 w rest,
    conn w = NoConn ->
    outcomes w = (fails ++ rest)%list ->
    Forall (fun o => o <> Good) fails ->
    Forall (fun o => o = Good) rest ->
    (List.length fails < mr)%nat ->
    exists w', init_loop mr md d0 w = (Ok tt, w') /\ steady w'
               /\ same_tables (db w) (db w')
               /\ slept w' = (slept w ++ backoff md d0 (List.length fails))%list
               /\ _tables_created w' = true.
Proof.
  induction fails as [|f fails IH]; intros mr md d0 w rest Hc Ho Hbad Hgood Hlen.
  - simpl in *. destruct mr as [|mr]; [lia|]. simpl. rewrite Hc.
    unfold try_except.
    destruct (connect_calm_state 30 1 10 w) as (w' & E & Hs & Ht & Hsl & Htc & _).
    { unfold calm. now rewrite Ho. }
    unfold connect_default. rewrite E. exists w'.
    rewrite app_nil_r. auto.
  - simpl in Hlen. destruct mr as [|[|mr]]; try lia.
    inversion Hbad as [|? ? Hf Hbad']; subst.
    cbn [init_loop]. rewrite Hc. unfold try_except.
    assert (connect_default w = (Raise OperationalError, with_outcomes (fails ++ rest) w))
      as ->.
    { unfold connect_default, connect, try_except, bind, psycopg_connect,
        next_outcome, pop. rewrite Ho. simpl.
      destruct f; try congruence; reflexivity. }
    unfold bind, sleep.
    destruct (IH (S mr) md (next_delay md d0)
                (with_slept (slept (with_outcomes (fails ++ rest) w) ++ [d0])
                            (with_outcomes (fails ++ rest) w)) rest)
      as (w' & E & Hs & Ht & Hsl & Htc); trivial; [simpl; lia|].
    exists w'. split; [exact E|]. split; [exact Hs|]. split; [exact Ht|].
    split; [|exact Htc]. rewrite Hsl. simpl. now rewrite <- app_assoc.
Qed.

(** X3: [init] on a client without a connection: while attempts fail it sleeps
    and tries again, with the delays of the backoff; once an attempt
    succeeds within the budget it creates the tables and returns. *)
Theorem init_retries_until_connected mr d0 md w fails rest :
  conn w = NoConn ->
  outcomes w = (fails ++ rest)%list ->
  Forall (fun o => o <> Good) fails ->
  Forall (fun o => o = Good) rest ->
  (List.length fails < mr)%nat ->
  exists w',
    init mr d0 md w = (Ok tt, w')
    /\ conn w' = Open
    /\ _tables_created w' = true
    /\ slept w' = (slept w ++ backoff md d0 (List.length fails))%list
    /\ same_tables (db w) (db w').
Proof.
  intros Hc Ho Hbad Hgood Hlen.
  destruct (init_loop_retries fails mr md d0 w rest Hc Ho Hbad Hgood Hlen)
    as (w' & E & Hs & Ht & Hsl & Htc).
  exists w'. unfold init, bind. rewrite E. unfold init_tables. rewrite Htc.
  split; [reflexivity|]. split; [apply Hs|]. auto.
Qed.

Lemma init_retries_until_connected_witness :
  exists w',
    init 30 1 10 (fresh office [Fail; Drop; Fail]) = (Ok tt, w')
    /\ conn w' = Open
    /\ _tables_created w' = true
    /\ slept w' = [1%Q; (1 * (3 # 2))%Q; (1 * (3 # 2) * (3 # 2))%Q]
    /\ same_tables office (db w').
Proof.
  apply (init_retries_until_connected 30 1 10 (fresh office [Fail; Drop; Fail])
           [Fail; Drop; Fail] []).
  - reflexivity.
  - reflexivity.
  - repeat constructor; discriminate.
  - constructor.
  - simpl. lia.
Defined.

Lemma init_loop_exhausted fails :
  forall md d0 w rest,
    conn w = NoConn ->
    outcomes w = (fails ++ rest)%list ->
    Forall (fun o => o <> Good) fails ->
    fails <> [] ->
    exists w',
      init_loop (List.length fails) md d0 w = (Raise OperationalError, w')
      /\ conn w' = NoConn
      /\ outcomes w' = rest
      /\ slept w' = (slept w ++ backoff md d0 (List.length fails - 1))%list
      /\ db w' = db w.
Proof.
  induction fails as [|f fails IH]; intros md d0 w rest Hc Ho Hbad Hne;
    [now elim Hne|].
  inversion Hbad as [|? ? Hf Hbad']; subst.
  cbn [List.length init_loop]. rewrite Hc. unfold try_except.
  assert (connect_default w = (Raise OperationalError, with_outcomes (fails ++ rest) w))
    as ->.
  { unfold connect_default, connect, try_except, bind, psycopg_connect,
      next_outcome, pop. rewrite Ho. simpl.
    destruct f; try congruence; reflexivity. }
  destruct fails as [|f' fails].
  - simpl. eexists. split; [reflexivity|]. simpl. rewrite app_nil_r. auto.
  - unfold bind, sleep.
    destruct (IH md (next_delay md d0)
                (with_slept (slept (with_outcomes ((f' :: fails) ++ rest) w) ++ [d0])
                            (with_outcomes ((f' :: fails) ++ rest) w)) rest)
      as (w' & E & Hc' & Ho' & Hsl & Hd); trivial; [discriminate|].
    exists w'. cbn [List.length] in *. split; [exact E|].
    split; [exact Hc'|]. split; [exact Ho'|]. split; [|exact Hd].
    rewrite Hsl. simpl. rewrite <- app_assoc. simpl.
    now rewrite Nat.sub_0_r.
Qed.

(** X4: [init] on a client without a connection, when as many attempts fail as
    the budget allows: it raises the last failure, having slept between the
    attempts but not after the last one; it holds no connection and has not
    touched the store. *)
Theorem init_gives_up fails md d0 w rest :
  conn w = NoConn ->
  outcomes w = (fails ++ rest)%list ->
  Forall (fun o => o <> Good) fails ->
  fails <> [] ->
  exists w',
    init (List.length fails) d0 md w = (Raise OperationalError, w')
    /\ conn w' = NoConn
    /\ outcomes w' = rest
    /\ slept w' = (slept w ++ backoff md d0 (List.length fails - 1))%list
    /\ db w' = db w.
Proof.
  intros Hc Ho Hbad Hne.
  destruct (init_loop_exhausted fails md d0 w rest Hc Ho Hbad Hne)
    as (w' & E & H).
  exists w'. unfold init, bind. rewrite E. split; [reflexivity | exact H].
Qed.

Lemma init_gives_up_witness :
  exists w',
    init 3 1 10 (fresh office [Fail; Fail; Drop; Good]) = (Raise OperationalError, w')
    /\ conn w' = NoConn
    /\ outcomes w' = [Good]
    /\ slept w' = [1%Q; (1 * (3 # 2))%Q]
    /\ db w' = office.
Proof.
  apply (init_gives_up [Fail; Fail; Drop] 10 1
           (fresh office [Fail; Fail; Drop; Good]) [Good]).
  - reflexivity.
  - reflexivity.
  - repeat constructor; discriminate.
  - discriminate.
Defined.

(** ** Waiting for the store *)

Lemma await_loop_retries fails :
  forall mr md d0 w rest,
    conn w = Open ->
    outcomes w = (fails ++ rest)%list ->
    Forall (fun o => o = Fail) fails ->
    Forall (fun o => o = Good) rest ->
    (List.length fails < mr)%nat ->
    exists w', await_loop mr md d0 w = (Ok tt, w') /\ steady w'
               /\ _is_query_service_ready w' = true
               /\ slept w' = (slept w ++ backoff md d0 (List.length fails))%list
               /\ db w' = db w.
Proof.
  induction fails as [|f fails IH]; intros mr md d0 w rest Hc Ho Hbad Hgood Hlen.
  - simpl in *. destruct mr as [|mr]; [lia|].
    assert (steady w) as Hs by (split; [exact Hc | unfold calm; now rewrite Ho]).
    simpl. unfold try_except, bind. run_steady.
    eexists. split; [reflexivity|]. split; [auto 10 with steady|]. simpl.
    rewrite app_nil_r. auto.
  - simpl in Hlen. destruct mr as [|mr]; [lia|].
    inversion Hbad as [|? ? Hf Hbad']; subst f.
    destruct w as [d c rd tc os sl]. simpl in Hc, Ho. subst c os.
    cbn [await_loop]. unfold try_except, bind, execute, next_outcome, pop, sleep, ret.
    cbn -[await_loop].
    destruct (IH mr md (next_delay md d0)
                (mkWorld d Open rd tc (fails ++ rest) (sl ++ [d0])) rest)
      as (w' & E & Hs & Hr & Hsl & Hd); trivial; [lia|].
    exists w'. split; [exact E|]. split; [exact Hs|]. split; [exact Hr|].
    split; [|exact Hd]. rewrite Hsl. simpl. now rewrite <- app_assoc.
Qed.

(** Steps of a run, as equations. *)
Lemma bind_ok {A B} (m : M A) (k : A -> M B) w a w1 :
  m w = (Ok a, w1) -> bind m k w = k a w1.
Proof. intros H. unfold bind. now rewrite H. Qed.

Lemma bind_raise {A B} (m : M A) (k : A -> M B) w e w1 :
  m w = (Raise e, w1) -> bind m k w = (Raise e, w1).
Proof. intros H. unfold bind. now rewrite H. Qed.

Lemma try_ok {A} (m : M A) h w a w1 :
  m w = (Ok a, w1) -> try_except m h w = (Ok a, w1).
Proof. intros H. unfold try_except. now rewrite H. Qed.

Lemma try_raise {A} (m : M A) h w e w1 :
  m w = (Raise e, w1) -> try_except m h w = h e w1.
Proof. intros H. unfold try_except. now rewrite H. Qed.

Lemma await_loop_exhausted fails :
  forall md d0 w rest,
    conn w = Open ->
    outcomes w = (fails ++ rest)%list ->
    Forall (fun o => o = Fail) fails ->
    exists w',
      await_loop (List.length fails) md d0 w = (Raise NotAvailable, w')
      /\ outcomes w' = rest
      /\ _is_query_service_ready w' = _is_query_service_ready w
      /\ slept w' = (slept w ++ backoff md d0 (List.length fails))%list
      /\ db w' = db w.
Proof.
  induction fails as [|f fails IH]; intros md d0 w rest Hc Ho Hbad.
  - simpl in *. exists w. rewrite app_nil_r. auto.
  - inversion Hbad as [|? ? Hf Hbad']; subst f.
    destruct w as [d c rd tc os sl]. simpl in Hc, Ho. subst c os.
    cbn [List.length await_loop].
    unfold try_except, bind, execute, next_outcome, pop, sleep, ret.
    cbn -[await_loop].
    destruct (IH md (next_delay md d0)
                (mkWorld d Open rd tc (fails ++ rest) (sl ++ [d0])) rest)
      as (w' & E & Ho' & Hr & Hsl & Hd); trivial.
    exists w'. split; [exact E|]. split; [exact Ho'|]. split; [exact Hr|].
    split; [|exact Hd]. rewrite Hsl. simpl. now rewrite <- app_assoc.
Qed.

Lemma await_loop_S n md d :
  await_loop (S n) md d
  = try_except
      (execute Sql.select_1 ;; (fun w => (Ok tt, with_ready true w)))
      (fun _ =>
         sleep d ;;
         try_except
           (fun w => match conn w with
                     | Closed => connect_default w
                     | _ => (Ok tt, w)
                     end)
           (fun _ => ret tt) ;;
         await_loop n md (next_delay md d)).
Proof. reflexivity. Qed.

(** X6: [await_up] on a live connection that was not yet found ready: while the
    probe fails it sleeps with the delays of the backoff and probes again;
    once a probe within the budget is answered it records readiness and
    returns.  The store is not changed. *)
Theorem await_up_retries mr d0 md w fails rest :
  _is_query_service_ready w = false ->
  conn w = Open ->
  outcomes w = (fails ++ rest)%list ->
  Forall (fun o => o = Fail) fails ->
  Forall (fun o => o = Good) rest ->
  (List.length fails < mr)%nat ->
  exists w',
    await_up mr d0 md w = (Ok tt, w')
    /\ _is_query_service_ready w' = true
    /\ conn w' = Open
    /\ slept w' = (slept w ++ backoff md d0 (List.length fails))%list
    /\ db w' = db w.
Proof.
  intros Hr Hc Ho Hbad Hgood Hlen. unfold await_up, bind. rewrite Hr, Hc.
  destruct (await_loop_retries fails mr md d0 w rest Hc Ho Hbad Hgood Hlen)
    as (w' & E & Hs & Hr' & Hsl & Hd).
  exists w'. split; [exact E|]. split; [exact Hr'|]. split; [apply Hs|]. auto.
Qed.

Lemma await_up_retries_witness :
  exists w',
    await_up 30 1 10 (mkWorld office Open false true [Fail; Fail] [])
      = (Ok tt, w')
    /\ _is_query_service_ready w' = true
    /\ conn w' = Open
    /\ slept w' = [1%Q; (1 * (3 # 2))%Q]
    /\ db w' = office.
Proof.
  apply (await_up_retries 30 1 10 (mkWorld office Open false true [Fail; Fail] [])
           [Fail; Fail] []).
  - reflexivity.
  - reflexivity.
  - reflexivity.
  - repeat constructor.
  - constructor.
  - simpl. lia.
Defined.

(** X7: [await_up] when every probe of the budget fails: it raises the plain
    exception of its last line, after having slept once per probe, the last
    one included; readiness is not recorded. *)
Theorem await_up_gives_up d0 md w fails rest :
  _is_query_service_ready w = false ->
  conn w = Open ->
  outcomes w = (fails ++ rest)%list ->
  Forall (fun o => o = Fail) fails ->
  exists w',
    await_up (List.length fails) d0 md w = (Raise NotAvailable, w')
    /\ _is_query_service_ready w' = false
    /\ outcomes w' = rest
    /\ slept w' = (slept w ++ backoff md d0 (List.length fails))%list
    /\ db w' = db w.
Proof.
  intros Hr Hc Ho Hbad. unfold await_up, bind. rewrite Hr, Hc.
  destruct (await_loop_exhausted fails md d0 w rest Hc Ho Hbad)
    as (w' & E & Ho' & Hr' & Hsl & Hd).
  exists w'. split; [exact E|]. split; [congruence|]. auto.
Qed.

Lemma await_up_gives_up_witness :
  exists w',
    await_up 2 1 10 (mkWorld office Open false true [Fail; Fail; Good] [])
      = (Raise NotAvailable, w')
    /\ _is_query_service_ready w' = false
    /\ outcomes w' = [Good]
    /\ slept w' = [1%Q; (1 * (3 # 2))%Q]
    /\ db w' = office.
Proof.
  apply (await_up_gives_up 1 10 (mkWorld office Open false true [Fail; Fail; Good] [])
           [Fail; Fail] [Good]).
  - reflexivity.
  - reflexivity.
  - reflexivity.
  - repeat constructor.
Defined.

(** X8: A probe that finds the connection dropped: [await_up] sleeps, opens a
    new connection, and the next probe succeeds. *)
Theorem await_up_reconnects mr d0 md w rest :
  _is_query_service_ready w = false ->
  conn w = Open ->
  outcomes w = Drop :: rest ->
  Forall (fun o => o = Good) rest ->
  (2 <= mr)%nat ->
  exists w',
    await_up mr d0 md w = (Ok tt, w')
    /\ _is_query_service_ready w' = true
    /\ conn w' = Open
    /\ slept w' = (slept w ++ [d0])%list
    /\ same_tables (db w) (db w').
Proof.
  intros Hr Hc Ho Hgood Hmr. destruct mr as [|[|mr]]; try lia.
  unfold await_up. rewrite Hr. rewrite (bind_ok _ _ w tt w) by now rewrite Hc.
  rewrite (await_loop_S (S mr)).
  assert ((execute Sql.select_1 ;; (fun w0 => (Ok tt, with_ready true w0))) w
          = (Raise OperationalError, with_conn Closed (pop w))) as Hprobe.
  { unfold bind, execute, next_outcome. now rewrite Hc, Ho. }
  rewrite (try_raise _ _ _ _ _ Hprobe).
  rewrite (bind_ok _ _ _ tt (with_slept (slept w ++ [d0]) (with_conn Closed (pop w))))
    by reflexivity.
  destruct (connect_calm_state 30 1 10
              (with_slept (slept w ++ [d0]) (with_conn Closed (pop w))))
    as (w1 & E1 & H1 & Ht1 & Hsl1 & _).
  { unfold calm, pop. simpl. now rewrite Ho. }
  rewrite (bind_ok _ _ _ tt w1).
  2:{ unfold try_except. simpl conn. unfold connect_default. now rewrite E1. }
  destruct (await_loop_retries [] (S mr) md (next_delay md d0) w1 (outcomes w1))
    as (w' & E & Hs & Hr' & Hsl & Hd); trivial; try apply H1; [simpl; lia|].
  rewrite E. exists w'. split; [reflexivity|]. split; [exact Hr'|].
  split; [apply Hs|]. split.
  - rewrite Hsl, Hsl1. simpl. now rewrite app_nil_r.
  - rewrite Hd. exact Ht1.
Qed.

Lemma await_up_reconnects_witness :
  exists w',
    await_up 30 1 10 (mkWorld office Open false true [Drop] []) = (Ok tt, w')
    /\ _is_query_service_ready w' = true
    /\ conn w' = Open
    /\ slept w' = [1%Q]
    /\ same_tables office (db w').
Proof.
  apply (await_up_reconnects 30 1 10 (mkWorld office Open false true [Drop] []) []).
  - reflexivity.
  - reflexivity.
  - reflexivity.
  - constructor.
  - lia.
Defined.

(** ** Reads *)

(** Every store method starts with [connect_if_needed]; when that connects
    and leaves a steady world, the method runs as it would from there. *)
Lemma reconnect_first {A} (rest : M A) w w0 :
  connect_if_needed w = (Ok tt, w0) -> steady w0 ->
  (connect_if_needed ;; rest) w = (connect_if_needed ;; rest) w0.
Proof.
  intros E0 H0. unfold bind. now rewrite E0, (connect_if_needed_steady w0 H0).
Qed.

(** X9: The lookups of one entity on a live connection: an answered [SELECT]
    gives the first row under the key, or [None]; a failed one is logged and
    gives [None] as well, whether or not the row is stored.  Neither raises,
    neither changes the store. *)
Theorem single_lookups_degrade w :
  conn w = Open ->
  (forall n,
     fst (get_employee n w)
     = Ok (if match hd Good (outcomes w) with Good => true | _ => false end
           then stored n (db w) else None)
     /\ db (snd (get_employee n w)) = db w)
  /\ (forall d,
        fst (get_schedule d w)
        = Ok (if match hd Good (outcomes w) with Good => true | _ => false end
              then find (fun s => date s =? d)%string (schedules (db w)) else None)
        /\ db (snd (get_schedule d w)) = db w).
Proof.
  intros Hc. split; intros k.
  - unfold get_employee, bind, try_except, connect_if_needed, execute, next_outcome.
    rewrite Hc. simpl. rewrite Hc.
    destruct (hd Good (outcomes w)); simpl; split; reflexivity.
  - unfold get_schedule, bind, try_except, connect_if_needed, execute, next_outcome.
    rewrite Hc. simpl. rewrite Hc.
    destruct (hd Good (outcomes w)); simpl; split; reflexivity.
Qed.

Lemma single_lookups_degrade_witness :
  fst (get_employee "E1" (live office [Fail])) = Ok None
  /\ db (snd (get_employee "E1" (live office [Fail]))) = office.
Proof.
  exact (proj1 (single_lookups_degrade (live office [Fail]) eq_refl) "E1").
Defined.

(** X10: The two list reads on a live connection that was found ready: an
    answered [SELECT] gives the rows, a failed one is raised to the
    caller. *)
Theorem list_reads_propagate w :
  conn w = Open -> _is_query_service_ready w = true ->
  (hd Good (outcomes w) = Good ->
   fst (get_employees w) = Ok (employees (db w))
   /\ forall a b,
        fst (get_schedules a b w)
        = Ok (Sql.order_by_date (filter (in_range a b) (schedules (db w)))))
  /\ (hd Good (outcomes w) <> Good ->
      fst (get_employees w) = Raise OperationalError
      /\ (forall a b, fst (get_schedules a b w) = Raise OperationalError)
      /\ db (snd (get_employees w)) = db w).
Proof.
  intros Hc Hr. split.
  - intros Hg. split.
    + unfold get_employees, bind, try_except, connect_if_needed, await_up_default,
        await_up, execute, next_outcome. rewrite Hc, Hr. simpl. rewrite Hc, Hg.
      reflexivity.
    + intros a b. destruct (get_schedules a b w) as [r w'] eqn:E.
      assert (exists l, r = Ok l) as (l & ->).
      { revert E. unfold get_schedules, bind, try_except, connect_if_needed,
          await_up_default, await_up, execute, next_outcome.
        rewrite Hc, Hr. simpl. rewrite Hc, Hg. simpl. intros [= <- _]. eauto. }
      simpl. f_equal. exact (get_schedules_ok _ _ _ _ _ E).
  - intros Hb. split; [|split].
    + unfold get_employees, bind, try_except, connect_if_needed, await_up_default,
        await_up, execute, next_outcome. rewrite Hc, Hr. simpl. rewrite Hc.
      destruct (hd Good (outcomes w)); try congruence; reflexivity.
    + intros a b.
      unfold get_schedules, bind, try_except, connect_if_needed, await_up_default,
        await_up, execute, next_outcome. rewrite Hc, Hr. simpl. rewrite Hc.
      destruct (hd Good (outcomes w)); try congruence; reflexivity.
    + unfold get_employees, bind, try_except, connect_if_needed, await_up_default,
        await_up, execute, next_outcome. rewrite Hc, Hr. simpl. rewrite Hc.
      destruct (hd Good (outcomes w)); try congruence; reflexivity.
Qed.

Lemma list_reads_propagate_witness :
  fst (get_employees (live office [Drop])) = Raise OperationalError
  /\ (forall a b, fst (get_schedules a b (live office [Drop])) = Raise OperationalError)
  /\ db (snd (get_employees (live office [Drop]))) = office.
Proof.
  apply (proj2 (list_reads_propagate (live office [Drop]) eq_refl eq_refl)).
  discriminate.
Defined.

(** ** Rules *)

Lemma get_rules_steady w :
  steady w ->
  exists w', get_rules w = (Ok (or_else (rules (db w)) default_rules), w')
             /\ steady w'
             /\ same_tables (db w) (db w')
             /\ rules (db w') = seeded (rules (db w)).
Proof.
  intros H. unfold get_rules, bind, try_except. run_steady.
  destruct (rules (db w)) as [r|] eqn:Hr.
  - unfold ret. eexists. split; [reflexivity|]. split; [auto with steady|].
    simpl. rewrite Hr. split; [apply same_tables_refl | reflexivity].
  - match goal with |- context [_init_default_rules ?x] =>
      destruct (_init_default_rules_seeds x)
        as (w1 & -> & H1 & He & Hs & Hrl & _); [auto with steady|]
    end.
    simpl in He, Hs, Hrl. rewrite Hr in Hrl. simpl in Hrl.
    rewrite execute_steady by exact H1. unfold Sql.select_rules. rewrite Hrl.
    unfold ret. eexists. split; [reflexivity|]. split; [auto with steady|].
    simpl. split; [split; assumption | exact Hrl].
Qed.

(** An [except] clause that returns a value lets no exception through. *)
Lemma try_swallow {A} (m : M A) (x : A) w :
  exists r, fst (try_except m (fun _ => ret x) w) = Ok r.
Proof. unfold try_except. destruct (m w) as [[a|e] w1]; simpl; eauto. Qed.

(** X11: [get_rules] on a live connection never raises, whatever the store
    does.  When its first read fails it returns the hard-coded defaults,
    whatever row is stored, and leaves the store alone; when the store
    answers it returns the stored row, or seeds the defaults and returns
    them. *)
Theorem get_rules_defaults w :
  conn w = Open ->
  (exists r, fst (get_rules w) = Ok r)
  /\ (hd Good (outcomes w) <> Good ->
      fst (get_rules w) = Ok default_rules /\ db (snd (get_rules w)) = db w)
  /\ (calm w ->
      fst (get_rules w) = Ok (or_else (rules (db w)) default_rules)
      /\ rules (db (snd (get_rules w))) = seeded (rules (db w))
      /\ same_tables (db w) (db (snd (get_rules w)))).
Proof.
  intros Hc. split; [|split].
  - unfold get_rules.
    rewrite (bind_ok connect_if_needed _ w tt w)
      by (unfold connect_if_needed; now rewrite Hc).
    apply try_swallow.
  - intros Hb. unfold get_rules, bind, try_except, connect_if_needed, execute,
      next_outcome. rewrite Hc. simpl. rewrite Hc.
    destruct (hd Good (outcomes w)); try congruence; split; reflexivity.
  - intros Hk. destruct (get_rules_steady w (conj Hc Hk)) as (w' & -> & _ & Ht & Hr).
    simpl. auto.
Qed.

Lemma get_rules_defaults_witness :
  fst (get_rules (live (mkDB [] [] (Some (mkRules 5 (1 # 2)))) [Fail]))
    = Ok default_rules
  /\ db (snd (get_rules (live (mkDB [] [] (Some (mkRules 5 (1 # 2)))) [Fail])))
     = mkDB [] [] (Some (mkRules 5 (1 # 2))).
Proof.
  apply (proj1 (proj2 (get_rules_defaults
                         (live (mkDB [] [] (Some (mkRules 5 (1 # 2)))) [Fail])
                         eq_refl))).
  discriminate.
Defined.

Lemma connect_if_needed_rules w :
  calm w ->
  exists w', connect_if_needed w = (Ok tt, w') /\ steady w'
             /\ same_tables (db w) (db w')
             /\ or_else (rules (db w')) default_rules
                = or_else (rules (db w)) default_rules.
Proof.
  intros H. unfold connect_if_needed. destruct (conn w) eqn:Hc.
  2: { exists w. repeat split; try assumption; reflexivity. }
  all: destruct (connect_calm_state 30 1 10 w H) as (w' & E & Hs & Ht & _ & _ & Hr);
    exists w'; split; [exact E|]; split; [exact Hs|]; split; [exact Ht|];
    rewrite Hr; destruct (_tables_created w), (rules (db w)); reflexivity.
Qed.

(** The loop [for key, value in updates.items()] of [update_rules] leaves
    in each of the two columns the last value supplied for it. *)
Lemma merged_rules ups r : fold_left set_rule ups r = updated_rules ups r.
Proof.
  assert (forall r1 am ab,
            or_else am (max_days_per_week r) = max_days_per_week r1 ->
            or_else ab (preferred_balance r) = preferred_balance r1 ->
            fold_left set_rule ups r1
            = mkRules
                (or_else (fold_left (fun acc item =>
                                       match item with
                                       | Rule_max_days_per_week (Some v) => Some v
                                       | _ => acc
                                       end) ups am) (max_days_per_week r))
                (or_else (fold_left (fun acc item =>
                                       match item with
                                       | Rule_preferred_balance (Some v) => Some v
                                       | _ => acc
                                       end) ups ab) (preferred_balance r))) as H.
  { induction ups as [|item ups IH]; intros r1 am ab Hm Hb; simpl.
    - rewrite Hm, Hb. now destruct r1.
    - apply IH; destruct item as [[v|]|[v|]|k]; simpl; trivial. }
  apply H; reflexivity.
Qed.

(** X12: [update_rules] when the store answers, for a number of days that
    fits its [INT] column: [True] is returned, and each of the two columns
    of the rules holds the last value that [updates] carries for it (an
    entry whose value is [None] carries none), or else the value that was
    stored, or else the default. *)
Theorem update_rules_merges ups w :
  calm w ->
  in_int_range
    (or_else (supplied_max_days ups)
             (max_days_per_week (or_else (rules (db w)) default_rules))) ->
  exists w',
    update_rules ups w = (Ok true, w')
    /\ rules (db w')
       = Some (mkRules
                 (or_else (supplied_max_days ups)
                    (max_days_per_week (or_else (rules (db w)) default_rules)))
                 (or_else (supplied_balance ups)
                    (preferred_balance (or_else (rules (db w)) default_rules))))
    /\ employees (db w') = employees (db w)
    /\ schedules (db w') = schedules (db w).
Proof.
  intros Hcalm Hfit.
  destruct (connect_if_needed_rules w Hcalm) as (w0 & E0 & H0 & [He0 Hs0] & Hr0).
  unfold update_rules. unfold bind at 1. rewrite E0. unfold try_except, bind.
  destruct (get_rules_steady w0 H0) as (w1 & -> & H1 & [He1 Hs1] & Hr1).
  rewrite Hr0, merged_rules. unfold updated_rules.
  cbn [max_days_per_week preferred_balance].
  rewrite execute_steady by exact H1. unfold Sql.update_rules.
  rewrite (integer_fits _ Hfit). unfold Sql.stored_as, Sql.update_rules_row.
  assert (exists r1, rules (db w1) = Some r1) as (r1 & Hr1').
  { rewrite Hr1. destruct (rules (db w0)); simpl; eauto. }
  rewrite Hr1'. simpl. unfold ret.
  eexists. split; [reflexivity|]. simpl.
  split; [reflexivity | split; congruence].
Qed.

Lemma update_rules_merges_witness :
  exists w',
    update_rules [Rule_max_days_per_week (Some 4); Rule_preferred_balance None]
                 (fresh office []) = (Ok true, w')
    /\ rules (db w')
       = Some (mkRules
                 (or_else (supplied_max_days
                             [Rule_max_days_per_week (Some 4);
                              Rule_preferred_balance None])
                    (max_days_per_week
                       (or_else (rules (db (fresh office []))) default_rules)))
                 (or_else (supplied_balance
                             [Rule_max_days_per_week (Some 4);
                              Rule_preferred_balance None])
                    (preferred_balance
                       (or_else (rules (db (fresh office []))) default_rules))))
    /\ employees (db w') = employees (db (fresh office []))
    /\ schedules (db w') = schedules (db (fresh office [])).
Proof.
  apply (update_rules_merges
           [Rule_max_days_per_week (Some 4); Rule_preferred_balance None]
           (fresh office [])).
  - constructor.
  - unfold in_int_range. simpl. lia.
Defined.

(** X13: A lost update: when the read inside [update_rules] fails and the write
    that follows goes through, [True] is returned and the stored rules are
    replaced: each column holds the value that [updates] carries for it, or
    else the hard-coded default, not the value that was stored. *)
Theorem update_rules_overwrites_after_failed_read ups r d rest :
  rules d = Some r ->
  Forall (fun o => o = Good) rest ->
  in_int_range (or_else (supplied_max_days ups) 3) ->
  fst (update_rules ups (live d (Fail :: rest))) = Ok true
  /\ rules (db (snd (update_rules ups (live d (Fail :: rest)))))
     = Some (mkRules (or_else (supplied_max_days ups) 3)
                     (or_else (supplied_balance ups) (2 # 10))).
Proof.
  intros Hr Hrest Hfit.
  assert (steady (live d rest)) as Hs by (split; [reflexivity | exact Hrest]).
  assert (get_rules (live d (Fail :: rest)) = (Ok default_rules, live d rest)) as Eg
    by reflexivity.
  unfold update_rules.
  rewrite (bind_ok connect_if_needed _ (live d (Fail :: rest)) tt
             (live d (Fail :: rest)) eq_refl).
  unfold try_except. rewrite (bind_ok _ _ _ _ _ Eg).
  rewrite merged_rules. unfold updated_rules, default_rules.
  cbn [max_days_per_week preferred_balance].
  unfold bind. rewrite execute_steady by exact Hs. unfold Sql.update_rules.
  rewrite (integer_fits _ Hfit). unfold Sql.stored_as, Sql.update_rules_row.
  simpl. rewrite Hr. simpl. split; reflexivity.
Qed.

Lemma update_rules_overwrites_after_failed_read_witness :
  fst (update_rules [Rule_max_days_per_week (Some 4)]
         (live (mkDB [] [] (Some (mkRules 5 (1 # 2)))) [Fail])) = Ok true
  /\ rules (db (snd (update_rules [Rule_max_days_per_week (Some 4)]
                       (live (mkDB [] [] (Some (mkRules 5 (1 # 2)))) [Fail]))))
     = Some (mkRules (or_else (supplied_max_days [Rule_max_days_per_week (Some 4)]) 3)
                     (or_else (supplied_balance [Rule_max_days_per_week (Some 4)])
                              (2 # 10))).
Proof.
  apply (update_rules_overwrites_after_failed_read
           [Rule_max_days_per_week (Some 4)] (mkRules 5 (1 # 2))
           (mkDB [] [] (Some (mkRules 5 (1 # 2)))) []).
  - reflexivity.
  - constructor.
  - unfold in_int_range. simpl. lia.
Defined.

(** ** Schedule writes seen through the reads *)

Lemma find_date_none d (l : list Schedule) :
  existsb (fun s => date s =? d)%string l = false ->
  find (fun s => date s =? d)%string l = None
  /\ filter (fun s => negb (date s =? d)%string) l = l
  /\ filter (fun s => date s =? d)%string l = [].
Proof.
  induction l as [|s l IH]; simpl; [auto|].
  destruct (date s =? d)%string; simpl; [discriminate|].
  intros H. destruct (IH H) as (-> & -> & ->). auto.
Qed.

Lemma find_date_some d (l : list Schedule) :
  existsb (fun s => date s =? d)%string l = true ->
  (exists s, find (fun s => date s =? d)%string l = Some s)
  /\ (0 <? List.length (filter (fun s => date s =? d)%string l))%nat = true.
Proof.
  induction l as [|s l IH]; simpl; [discriminate|].
  destruct (date s =? d)%string; simpl; [eauto|]. exact IH.
Qed.

Lemma find_reassigned d k (l : list Schedule) :
  find (fun s => date s =? d)%string
       (map (fun s => if (date s =? d)%string then mkSchedule (date s) k else s) l)
  = option_map (fun _ => mkSchedule d k) (find (fun s => date s =? d)%string l).
Proof.
  induction l as [|s l IH]; simpl; [reflexivity|].
  destruct (date s =? d)%string eqn:E; simpl; rewrite E; [|exact IH].
  apply String.eqb_eq in E. now rewrite E.
Qed.

Lemma find_reassigned_other d d' k (l : list Schedule) :
  d' <> d ->
  find (fun s => date s =? d')%string
       (map (fun s => if (date s =? d)%string then mkSchedule (date s) k else s) l)
  = find (fun s => date s =? d')%string l.
Proof.
  intros Hne. induction l as [|s l IH]; simpl; [reflexivity|].
  destruct (date s =? d)%string eqn:E; simpl.
  - apply String.eqb_eq in E. rewrite E.
    destruct (String.eqb_spec d d'); [congruence | exact IH].
  - destruct (date s =? d')%string; [reflexivity | exact IH].
Qed.

Lemma find_app_schedule (f : Schedule -> bool) l1 l2 :
  find f (l1 ++ l2)%list
  = match find f l1 with Some s => Some s | None => find f l2 end.
Proof.
  induction l1 as [|s l IH]; simpl; [reflexivity|].
  destruct (f s); [reflexivity | exact IH].
Qed.

Lemma find_upsert_schedule_rows d k l :
  find (fun s => date s =? d)%string (upsert_schedule_rows d k l)
  = Some (mkSchedule d k).
Proof.
  unfold upsert_schedule_rows.
  destruct (existsb _ l) eqn:E.
  - rewrite find_reassigned. destruct (find_date_some d l E) as [(s & ->) _].
    reflexivity.
  - rewrite find_app_schedule. destruct (find_date_none d l E) as (-> & _).
    simpl. now rewrite String.eqb_refl.
Qed.

Lemma find_upsert_schedule_rows_other d d' k l :
  d' <> d ->
  find (fun s => date s =? d')%string (upsert_schedule_rows d k l)
  = find (fun s => date s =? d')%string l.
Proof.
  intros Hne. unfold upsert_schedule_rows.
  destruct (existsb _ l).
  - now apply find_reassigned_other.
  - rewrite find_app_schedule. simpl.
    destruct (String.eqb_spec d d'); [congruence|].
    now destruct (find _ l).
Qed.

Lemma find_removed d d' (l : list Schedule) :
  find (fun s => date s =? d')%string
       (filter (fun s => negb (date s =? d)%string) l)
  = if (d' =? d)%string then None
    else find (fun s => date s =? d')%string l.
Proof.
  induction l as [|s l IH]; simpl; [now destruct (d' =? d)%string|].
  destruct (String.eqb_spec (date s) d) as [E|E]; simpl.
  - rewrite IH. destruct (String.eqb_spec d' d) as [E'|E']; [reflexivity|].
    destruct (String.eqb_spec (date s) d'); [congruence | reflexivity].
  - destruct (String.eqb_spec (date s) d') as [E'|E'].
    + destruct (String.eqb_spec d' d); [congruence | reflexivity].
    + exact IH.
Qed.

(** X14: A schedule written by [create_schedule], for a date and an employee
    number that fit their columns ([VARCHAR(10)] and [VARCHAR(36)]), is the
    one [get_schedule] reads back; the schedules of the other dates read as
    before. *)
Theorem create_schedule_round_trip d k w :
  (String.length d <= 10)%nat ->
  (String.length k <= 36)%nat ->
  calm w ->
  Sql.has_employee k (db w) = true ->
  exists w',
    create_schedule d k w = (Ok d, w')
    /\ fst (get_schedule d w') = Ok (Some (mkSchedule d k))
    /\ forall d', d' <> d ->
         fst (get_schedule d' w')
         = Ok (find (fun s => date s =? d')%string (schedules (db w))).
Proof.
  intros Hdlen Hklen Hcalm Hk.
  destruct (connect_if_needed_calm w Hcalm) as (w0 & E0 & H0 & [He0 Hs0]).
  assert (create_schedule d k w = create_schedule d k w0) as ->.
  { exact (reconnect_first _ w w0 E0 H0). }
  destruct (create_schedule_steady d k w0 Hdlen Hklen H0)
    as (r & w' & E & H' & _ & Hc).
  assert (Sql.has_employee k (db w0) = true) as Hk0
    by (unfold Sql.has_employee in *; now rewrite He0).
  rewrite Hk0 in Hc. destruct Hc as [-> Hs].
  exists w'. split; [exact E|].
  split.
  - destruct (get_schedule_steady d w' H') as (w2 & -> & _). simpl.
    now rewrite Hs, find_upsert_schedule_rows.
  - intros d' Hne.
    destruct (get_schedule_steady d' w' H') as (w2 & -> & _). simpl.
    now rewrite Hs, find_upsert_schedule_rows_other, Hs0.
Qed.

Lemma create_schedule_round_trip_witness :
  exists w',
    create_schedule "2024-02-02" "E1" (fresh office []) = (Ok "2024-02-02", w')
    /\ fst (get_schedule "2024-02-02" w') = Ok (Some (mkSchedule "2024-02-02" "E1"))
    /\ forall d', d' <> "2024-02-02" ->
         fst (get_schedule d' w')
         = Ok (find (fun s => date s =? d')%string
                 (schedules (db (fresh office [])))).
Proof.
  apply (create_schedule_round_trip "2024-02-02" "E1" (fresh office [])).
  - simpl. lia.
  - simpl. lia.
  - constructor.
  - reflexivity.
Defined.

(** Outside the column.  A date of 13 characters that ends in three spaces
    is cut to 10 characters: the call returns the date as it was given,
    [get_schedule] finds nothing under it, and the schedule stored under
    the cut date is reassigned. *)
Lemma create_schedule_padded_date :
  fst (create_schedule "2024-02-02   " "E1" (live office [])) = Ok "2024-02-02   "
  /\ fst (get_schedule "2024-02-02   "
            (snd (create_schedule "2024-02-02   " "E1" (live office []))))
     = Ok None
  /\ fst (get_schedule "2024-02-02"
            (snd (create_schedule "2024-02-02   " "E1" (live office []))))
     = Ok (Some (mkSchedule "2024-02-02" "E1")).
Proof. repeat split; vm_compute; reflexivity. Qed.

Lemma update_schedule_read_as k k' d :
  Sql.varchar 36 k = Ok k' ->
  Sql.update_schedule k d = Sql.update_schedule_row k' d.
Proof. intros Hk. unfold Sql.update_schedule. rewrite Hk. reflexivity. Qed.

Lemma update_schedule_steady d k k' w :
  Sql.varchar 36 k = Ok k' ->
  steady w ->
  exists w',
    update_schedule d k w
    = (Ok (Sql.has_schedule d (db w) && Sql.has_employee k' (db w)), w')
    /\ steady w'
    /\ schedules (db w')
       = if Sql.has_schedule d (db w) && Sql.has_employee k' (db w)
         then map (fun s => if (date s =? d)%string
                            then mkSchedule (date s) k' else s) (schedules (db w))
         else schedules (db w).
Proof.
  intros Hklen H. unfold update_schedule.
  rewrite (update_schedule_read_as _ _ d Hklen). unfold bind at 1.
  rewrite connect_if_needed_steady by exact H. unfold try_except, bind.
  destruct (get_schedule_steady d w H) as (w1 & -> & H1 & Hd1).
  unfold Sql.has_schedule.
  destruct (existsb _ (schedules (db w))) eqn:Ex.
  - destruct (find_date_some d _ Ex) as [(s & ->) Hlen].
    rewrite execute_steady by exact H1. unfold Sql.update_schedule_row.
    rewrite Hd1.
    assert (Nat.eqb (List.length (filter (fun s => date s =? d)%string
                                    (schedules (db w)))) 0 = false) as ->.
    { destruct (List.length _); [discriminate | reflexivity]. }
    destruct (Sql.has_employee k' (db w)) eqn:Hk; simpl.
    + rewrite Hlen.
      match goal with |- context [_update_employee_counts ?x] =>
        destruct (_update_employee_counts_steady x) as (w2 & -> & H2 & _ & Hs2);
          [auto with steady|]
      end.
      unfold ret. eexists. split; [reflexivity|]. split; [exact H2|].
      rewrite Hs2. reflexivity.
    + unfold ret. eexists. split; [reflexivity|].
      split; [auto with steady|]. simpl. now rewrite Hd1.
  - destruct (find_date_none d _ Ex) as (-> & _). unfold ret. simpl.
    eexists. split; [reflexivity|]. split; [exact H1 | now rewrite Hd1].
Qed.

Lemma delete_schedule_steady d w :
  steady w ->
  exists w',
    delete_schedule d w = (Ok (Sql.has_schedule d (db w)), w')
    /\ steady w'
    /\ schedules (db w')
       = filter (fun s => negb (date s =? d)%string) (schedules (db w)).
Proof.
  intros H. unfold delete_schedule. unfold bind at 1.
  rewrite connect_if_needed_steady by exact H. unfold try_except, bind.
  destruct (get_schedule_steady d w H) as (w1 & -> & H1 & Hd1).
  unfold Sql.has_schedule.
  destruct (existsb _ (schedules (db w))) eqn:Ex.
  - destruct (find_date_some d _ Ex) as [(s & ->) Hlen].
    rewrite execute_steady by exact H1. unfold Sql.delete_schedule.
    rewrite Hd1. simpl. rewrite Hlen.
    match goal with |- context [_update_employee_counts ?x] =>
      destruct (_update_employee_counts_steady x) as (w2 & -> & H2 & _ & Hs2);
        [auto with steady|]
    end.
    unfold ret. eexists. split; [reflexivity|]. split; [exact H2|].
    rewrite Hs2. reflexivity.
  - destruct (find_date_none d _ Ex) as (-> & -> & _). unfold ret. simpl.
    eexists. split; [reflexivity|]. split; [exact H1 | now rewrite Hd1].
Qed.

(** X15: [update_schedule] when the store answers and takes the employee
    number into its column ([VARCHAR(36)]: a number of at most 36
    characters is taken as it is): it returns [True] exactly when the date
    has a schedule and the employee exists; then the date reads back with
    the new employee, and otherwise the schedules are as they were.  It
    never adds a row, and the other dates read as before. *)
Theorem update_schedule_reassigns d k k' w :
  Sql.varchar 36 k = Ok k' ->
  calm w ->
  exists w',
    update_schedule d k w
    = (Ok (Sql.has_schedule d (db w) && Sql.has_employee k' (db w)), w')
    /\ (Sql.has_schedule d (db w) && Sql.has_employee k' (db w) = true ->
        fst (get_schedule d w') = Ok (Some (mkSchedule d k')))
    /\ (Sql.has_schedule d (db w) && Sql.has_employee k' (db w) = false ->
        schedules (db w') = schedules (db w))
    /\ map date (schedules (db w')) = map date (schedules (db w))
    /\ forall d', d' <> d ->
         fst (get_schedule d' w')
         = Ok (find (fun s => date s =? d')%string (schedules (db w))).
Proof.
  intros Hklen Hcalm.
  destruct (connect_if_needed_calm w Hcalm) as (w0 & E0 & H0 & [He0 Hs0]).
  assert (update_schedule d k w = update_schedule d k w0) as ->
    by exact (reconnect_first _ w w0 E0 H0).
  destruct (update_schedule_steady d k k' w0 Hklen H0) as (w' & E & H' & Hs).
  unfold Sql.has_schedule, Sql.has_employee in *. rewrite He0, Hs0 in *.
  exists w'. split; [exact E|].
  destruct (existsb _ (schedules (db w)) && existsb _ (employees (db w)))%bool
    eqn:Hb.
  - split; [|split; [discriminate|split]].
    + intros _. destruct (get_schedule_steady d w' H') as (w2 & -> & _). simpl.
      rewrite Hs, find_reassigned.
      apply andb_prop in Hb. destruct Hb as [Hb _].
      destruct (find_date_some d _ Hb) as [(s & ->) _]. reflexivity.
    + rewrite Hs. apply map_date_rewrite.
      intros s. now destruct (date s =? d)%string.
    + intros d' Hne. destruct (get_schedule_steady d' w' H') as (w2 & -> & _).
      simpl. now rewrite Hs, find_reassigned_other.
  - split; [discriminate|]. split; [intros _; exact Hs|].
    split; [now rewrite Hs|].
    intros d' Hne. destruct (get_schedule_steady d' w' H') as (w2 & -> & _).
    simpl. now rewrite Hs.
Qed.

Lemma update_schedule_reassigns_witness :
  exists w',
    update_schedule "2024-02-02" "E1" (fresh office [])
    = (Ok (Sql.has_schedule "2024-02-02" (db (fresh office []))
           && Sql.has_employee "E1" (db (fresh office []))), w')
    /\ (Sql.has_schedule "2024-02-02" (db (fresh office []))
        && Sql.has_employee "E1" (db (fresh office [])) = true ->
        fst (get_schedule "2024-02-02" w')
        = Ok (Some (mkSchedule "2024-02-02" "E1")))
    /\ (Sql.has_schedule "2024-02-02" (db (fresh office []))
        && Sql.has_employee "E1" (db (fresh office [])) = false ->
        schedules (db w') = schedules (db (fresh office [])))
    /\ map date (schedules (db w')) = map date (schedules (db (fresh office [])))
    /\ forall d', d' <> "2024-02-02" ->
         fst (get_schedule d' w')
         = Ok (find (fun s => date s =? d')%string
                 (schedules (db (fresh office [])))).
Proof.
  apply (update_schedule_reassigns "2024-02-02" "E1" "E1" (fresh office [])).
  - reflexivity.
  - constructor.
Defined.

(** Beyond the column.  An employee is stored under a number of 36
    characters that ends in spaces; [update_schedule] is given that number
    with one more space.  No employee bears the number given, yet the store
    cuts it to the column, finds the employee, and the call returns
    [True].  A number of 37 characters that does not end in a space is
    refused, and the call returns [False]. *)
Lemma update_schedule_padded_number :
  Sql.has_employee "E1                                   "
    (mkDB [mkEmployee "E1                                  " "Ada" 0 [] []; bob]
          [mkSchedule "2024-02-02" "E2"] None) = false
  /\ fst (update_schedule "2024-02-02" "E1                                   "
            (live (mkDB [mkEmployee "E1                                  " "Ada"
                           0 [] []; bob]
                        [mkSchedule "2024-02-02" "E2"] None) []))
     = Ok true
  /\ fst (update_schedule "2024-02-02" "0123456789012345678901234567890123456"
            (live office []))
     = Ok false.
Proof. repeat split; vm_compute; reflexivity. Qed.

(** X16: [delete_schedule] when the store answers: it returns whether the date
    had a schedule; afterwards the date reads back as absent, whether it was
    there or not, and the other dates read as before. *)
Theorem delete_schedule_removes d w :
  calm w ->
  exists w',
    delete_schedule d w = (Ok (Sql.has_schedule d (db w)), w')
    /\ schedules (db w')
       = filter (fun s => negb (date s =? d)%string) (schedules (db w))
    /\ fst (get_schedule d w') = Ok None
    /\ forall d', d' <> d ->
         fst (get_schedule d' w')
         = Ok (find (fun s => date s =? d')%string (schedules (db w))).
Proof.
  intros Hcalm.
  destruct (connect_if_needed_calm w Hcalm) as (w0 & E0 & H0 & [He0 Hs0]).
  assert (delete_schedule d w = delete_schedule d w0) as ->
    by exact (reconnect_first _ w w0 E0 H0).
  destruct (delete_schedule_steady d w0 H0) as (w' & E & H' & Hs).
  unfold Sql.has_schedule in *. rewrite Hs0 in *.
  exists w'. split; [exact E|]. split; [exact Hs|]. split.
  - destruct (get_schedule_steady d w' H') as (w2 & -> & _). simpl.
    now rewrite Hs, find_removed, String.eqb_refl.
  - intros d' Hne. destruct (get_schedule_steady d' w' H') as (w2 & -> & _).
    simpl. rewrite Hs, find_removed.
    destruct (String.eqb_spec d' d); [congruence | reflexivity].
Qed.

Lemma delete_schedule_removes_witness :
  exists w',
    delete_schedule "2024-02-02" (fresh office [])
    = (Ok (Sql.has_schedule "2024-02-02" (db (fresh office []))), w')
    /\ schedules (db w')
       = filter (fun s => negb (date s =? "2024-02-02")%string)
           (schedules (db (fresh office [])))
    /\ fst (get_schedule "2024-02-02" w') = Ok None
    /\ forall d', d' <> "2024-02-02" ->
         fst (get_schedule d' w')
         = Ok (find (fun s => date s =? d')%string
                 (schedules (db (fresh office [])))).
Proof.
  apply (delete_schedule_removes "2024-02-02" (fresh office [])).
  constructor.
Defined.

(** ** Employee writes seen through the reads *)

Lemma create_employee_round_trip_aux nm n ka md w :
  (String.length n <= 36)%nat -> (String.length nm <= 255)%nat ->
  calm w ->
  exists w',
    create_employee nm n ka md w = (Ok n, w') /\ steady w'
    /\ employees (db w')
       = upsert_rows n nm (or_else ka []) (or_else md []) (employees (db w)).
Proof.
  intros Hn Hnm Hcalm.
  destruct (create_employee_calm nm n ka md w Hn Hnm Hcalm) as (w' & E & H').
  exists w'. split; [exact E|]. split; [exact H'|].
  now destruct (create_employee_ok _ _ _ _ _ _ _ Hn Hnm E) as (_ & He & _).
Qed.

(** X17: An employee written by [create_employee], under a number and a name
    that fit their columns ([VARCHAR(36)] and [VARCHAR(255)]), is the one
    [get_employee] reads back: the given name, absences and metadata (empty
    when omitted), and a duty count of 0 for a new number or the stored
    count for a known one.  The other employees read as before. *)
Theorem create_employee_round_trip nm n ka md w :
  (String.length n <= 36)%nat ->
  (String.length nm <= 255)%nat ->
  calm w ->
  exists w',
    create_employee nm n ka md w = (Ok n, w')
    /\ fst (get_employee n w')
       = Ok (Some (mkEmployee n nm
                     match stored n (db w) with
                     | Some e => first_line_support_count e
                     | None => 0
                     end (or_else ka []) (or_else md [])))
    /\ forall m, m <> n -> fst (get_employee m w') = Ok (stored m (db w)).
Proof.
  intros Hn Hnm Hcalm.
  destruct (create_employee_round_trip_aux nm n ka md w Hn Hnm Hcalm)
    as (w' & E & H' & He).
  exists w'. split; [exact E|]. split.
  - destruct (get_employee_steady n w' H') as (w2 & -> & _). simpl.
    unfold stored. rewrite He. f_equal. apply upsert_rows_stored.
  - intros m Hm. destruct (get_employee_steady m w' H') as (w2 & -> & _). simpl.
    unfold stored. rewrite He. f_equal. now apply upsert_rows_other.
Qed.

Lemma create_employee_round_trip_witness :
  exists w',
    create_employee "Ada L." "E1" None None (fresh office []) = (Ok "E1", w')
    /\ fst (get_employee "E1" w')
       = Ok (Some (mkEmployee "E1" "Ada L."
                     match stored "E1" (db (fresh office [])) with
                     | Some e => first_line_support_count e
                     | None => 0
                     end (or_else None []) (or_else None [])))
    /\ forall m, m <> "E1" ->
         fst (get_employee m w') = Ok (stored m (db (fresh office []))).
Proof.
  apply (create_employee_round_trip "Ada L." "E1" None None (fresh office [])).
  - simpl. lia.
  - simpl. lia.
  - constructor.
Defined.

Lemma overwrite_rows_numbers n m emps :
  map employee_number (overwrite_rows n m emps) = map employee_number emps.
Proof.
  unfold overwrite_rows. rewrite map_map. apply map_ext.
  intros e. now destruct (employee_number e =? n)%string.
Qed.

(** X18: [update_employee] on a known number, when the store answers and the
    name and the count that are to be written fit their columns
    ([VARCHAR(255)] and [INT]): it returns [True], and the record read back
    by [get_employee] holds, in each of the columns [name],
    [first_line_support_count], [known_absences] and [metadata], the value
    that [updates] carries under that key, or else the value that was
    stored; its number stays the one it was stored under, whatever
    [updates] carries under [employee_number].  The other employees read
    as before. *)
Theorem update_employee_round_trip n ups e0 w :
  calm w ->
  stored n (db w) = Some e0 ->
  (String.length (or_else (supplied_name ups) (name e0)) <= 255)%nat ->
  in_int_range (or_else (supplied_count ups) (first_line_support_count e0)) ->
  exists w',
    update_employee n ups w = (Ok true, w')
    /\ fst (get_employee n w')
       = Ok (Some (mkEmployee n
                     (or_else (supplied_name ups) (name e0))
                     (or_else (supplied_count ups) (first_line_support_count e0))
                     (or_else (supplied_absences ups) (known_absences e0))
                     (or_else (supplied_metadata ups) (metadata e0))))
    /\ forall k, k <> n -> fst (get_employee k w') = Ok (stored k (db w)).
Proof.
  intros Hcalm Hst Hnm Hc.
  destruct (update_employee_calm n ups w Hcalm) as (w' & E & H').
  { intros e1 He1. assert (e1 = e0) as -> by congruence.
    rewrite merged_name, merged_count. split; assumption. }
  assert (Sql.has_employee n (db w) = true) as Hhas by (eapply stored_has; eauto).
  rewrite Hhas in E.
  destruct (update_employee_stored _ _ _ _ _ Hst Hnm E) as (He & _ & _).
  exists w'. split; [exact E|]. split.
  - destruct (get_employee_steady n w' H') as (w2 & -> & _). simpl.
    unfold stored. rewrite He. f_equal.
    exact (overwrite_rows_stored _ _ _ _ Hst).
  - intros k Hk. destruct (get_employee_steady k w' H') as (w2 & -> & _). simpl.
    unfold stored. rewrite He. f_equal. now apply overwrite_rows_other.
Qed.

Lemma update_employee_round_trip_witness :
  exists w',
    update_employee "E1" [Item_name "Ada L."; Item_employee_number "E9"]
      (fresh office []) = (Ok true, w')
    /\ fst (get_employee "E1" w')
       = Ok (Some (mkEmployee "E1"
                     (or_else (supplied_name
                                 [Item_name "Ada L."; Item_employee_number "E9"])
                              (name (with_count 2 ada)))
                     (or_else (supplied_count
                                 [Item_name "Ada L."; Item_employee_number "E9"])
                              (first_line_support_count (with_count 2 ada)))
                     (or_else (supplied_absences
                                 [Item_name "Ada L."; Item_employee_number "E9"])
                              (known_absences (with_count 2 ada)))
                     (or_else (supplied_metadata
                                 [Item_name "Ada L."; Item_employee_number "E9"])
                              (metadata (with_count 2 ada)))))
    /\ forall k, k <> "E1" ->
         fst (get_employee k w') = Ok (stored k (db (fresh office []))).
Proof.
  apply (update_employee_round_trip "E1"
           [Item_name "Ada L."; Item_employee_number "E9"] (with_count 2 ada)
           (fresh office [])).
  - constructor.
  - reflexivity.
  - simpl. lia.
  - unfold in_int_range. simpl. lia.
Defined.

(** Outside the column.  A count beyond the range of [INT] is refused by
    the store; [update_employee] logs the failure, returns [False], and the
    row is as it was. *)
Lemma update_employee_count_out_of_range :
  fst (update_employee "E1" [Item_first_line_support_count 2147483648]
         (live office [])) = Ok false
  /\ db (snd (update_employee "E1" [Item_first_line_support_count 2147483648]
                (live office []))) = office.
Proof. split; vm_compute; reflexivity. Qed.

(** X19: Whatever the store does and whatever the [updates] dict holds,
    [update_employee] never adds, removes or renumbers an employee: the
    employee numbers of the table are the same, up to the order of the
    rows.  And it never touches a schedule. *)
Theorem update_employee_keeps_numbers n ups w :
  Permutation (map employee_number (employees (db (snd (update_employee n ups w)))))
              (map employee_number (employees (db w)))
  /\ schedules (db (snd (update_employee n ups w))) = schedules (db w).
Proof.
  destruct (update_employee n ups w) as [r w'] eqn:E. simpl.
  destruct (update_employee_cases _ _ _ _ _ E)
    as [Hs [(_ & e1 & nm' & _ & _ & _ & He) | (_ & He)]]; rewrite He;
    (split; [|exact Hs]).
  - rewrite overwrite_rows_numbers. apply Permutation_refl.
  - apply Permutation_refl.
Qed.

(** X20: An unknown employee number, when the store answers: [get_employee]
    returns [None], [update_employee] and [delete_employee] return [False],
    and neither changes a row. *)
Theorem unknown_employee_noop n w :
  calm w ->
  Sql.has_employee n (db w) = false ->
  fst (get_employee n w) = Ok None
  /\ (forall ups, fst (update_employee n ups w) = Ok false
                  /\ employees (db (snd (update_employee n ups w)))
                     = employees (db w))
  /\ fst (delete_employee n w) = Ok false
  /\ employees (db (snd (delete_employee n w))) = employees (db w)
  /\ schedules (db (snd (delete_employee n w))) = schedules (db w).
Proof.
  intros Hcalm Hno.
  split; [|split].
  - destruct (connect_if_needed_calm w Hcalm) as (w0 & E0 & H0 & [He0 _]).
    rewrite (reconnect_first _ w w0 E0 H0 : get_employee n w = get_employee n w0).
    destruct (get_employee_steady n w0 H0) as (w1 & -> & _). simpl.
    unfold stored. rewrite He0.
    destruct (find _ (employees (db w))) eqn:F; [|reflexivity].
    apply stored_has in F. congruence.
  - intros ups. destruct (update_employee_calm n ups w Hcalm) as (w' & E & _).
    { intros e0 He0. apply stored_has in He0. congruence. }
    rewrite Hno in E. rewrite E. simpl. split; [reflexivity|].
    destruct (update_employee_cases _ _ _ _ _ E)
      as [_ [(Hn & _) | (_ & He)]]; [discriminate | exact He].
  - destruct (delete_employee_calm n w Hcalm) as (w' & E & _).
    rewrite Hno in E. rewrite E. simpl. split; [reflexivity|].
    destruct (delete_employee_cases _ _ _ _ E)
      as [(Hn & _) | (_ & He & [Hs | (Hh & _)])];
      [discriminate | auto | congruence].
Qed.

Lemma unknown_employee_noop_witness :
  fst (get_employee "E7" (fresh office [])) = Ok None
  /\ (forall ups, fst (update_employee "E7" ups (fresh office [])) = Ok false
                  /\ employees (db (snd (update_employee "E7" ups (fresh office []))))
                     = employees (db (fresh office [])))
  /\ fst (delete_employee "E7" (fresh office [])) = Ok false
  /\ employees (db (snd (delete_employee "E7" (fresh office []))))
     = employees (db (fresh office []))
  /\ schedules (db (snd (delete_employee "E7" (fresh office []))))
     = schedules (db (fresh office [])).
Proof.
  apply (unknown_employee_noop "E7" (fresh office [])).
  - constructor.
  - reflexivity.
Defined.

(** X21: The two create methods re-raise: on a live connection whose next
    statement fails, [create_employee] and [create_schedule] raise the
    store's error and leave every row as it was. *)
Theorem create_methods_reraise w :
  conn w = Open ->
  hd Good (outcomes w) <> Good ->
  (forall nm n ka md,
     fst (create_employee nm n ka md w) = Raise OperationalError
     /\ db (snd (create_employee nm n ka md w)) = db w)
  /\ (forall d k,
        fst (create_schedule d k w) = Raise OperationalError
        /\ db (snd (create_schedule d k w)) = db w).
Proof.
  intros Hc Hb. split; intros.
  - unfold create_employee, bind, try_except, connect_if_needed, execute,
      next_outcome, raise. rewrite Hc. simpl. rewrite Hc.
    destruct (hd Good (outcomes w)); try congruence; split; reflexivity.
  - unfold create_schedule, bind, try_except, connect_if_needed, execute,
      next_outcome, raise. rewrite Hc. simpl. rewrite Hc.
    destruct (hd Good (outcomes w)); try congruence; split; reflexivity.
Qed.

Lemma create_methods_reraise_witness :
  (forall nm n ka md,
     fst (create_employee nm n ka md (live office [Drop])) = Raise OperationalError
     /\ db (snd (create_employee nm n ka md (live office [Drop])))
        = db (live office [Drop]))
  /\ (forall d k,
        fst (create_schedule d k (live office [Drop])) = Raise OperationalError
        /\ db (snd (create_schedule d k (live office [Drop])))
           = db (live office [Drop])).
Proof.
  apply (create_methods_reraise (live office [Drop])).
  - reflexivity.
  - discriminate.
Defined.

(** ** What the schedule methods leave alone *)

Lemma same_profiles_refl d : same_profiles d d.
Proof. apply Permutation_refl. Qed.

Lemma same_profiles_trans a b c :
  same_profiles a b -> same_profiles b c -> same_profiles a c.
Proof.
  unfold same_profiles. intros H1 H2. eapply Permutation_trans; eassumption.
Qed.

Lemma same_profiles_rows d d' :
  map profile (employees d') = map profile (employees d) -> same_profiles d d'.
Proof. unfold same_profiles. intros ->. apply Permutation_refl. Qed.

Lemma keeps_tables_profiles {A} (m : M A) :
  keeps same_tables m -> keeps same_profiles m.
Proof.
  intros H w r w' E. destruct (H _ _ _ E) as [He _].
  apply same_profiles_rows. now rewrite He.
Qed.

Lemma upsert_schedule_profiles d k : stmt_keeps same_profiles (Sql.upsert_schedule d k).
Proof.
  unfold Sql.upsert_schedule. stored d. stored k.
  intros db0 a db1. unfold Sql.upsert_schedule_row.
  destruct (negb _); [discriminate|].
  destruct (Sql.has_schedule d db0); intros [= _ <-];
    apply same_profiles_rows; reflexivity.
Qed.

Lemma update_schedule_profiles k d : stmt_keeps same_profiles (Sql.update_schedule k d).
Proof.
  unfold Sql.update_schedule. stored k.
  intros db0 a db1. unfold Sql.update_schedule_row.
  destruct (andb _ _); [discriminate|]. intros [= _ <-].
  apply same_profiles_rows. reflexivity.
Qed.

Lemma delete_schedule_profiles d : stmt_keeps same_profiles (Sql.delete_schedule d).
Proof.
  intros db0 a db1. unfold Sql.delete_schedule. intros [= _ <-].
  apply same_profiles_rows. reflexivity.
Qed.

Lemma reset_counts_profiles : stmt_keeps same_profiles Sql.reset_counts.
Proof.
  intros db0 a db1. unfold Sql.reset_counts. intros [= _ <-].
  apply same_profiles_rows. simpl. rewrite map_map. reflexivity.
Qed.

Lemma set_count_profiles c k : stmt_keeps same_profiles (Sql.set_count c k).
Proof.
  intros db0 a db1. unfold Sql.set_count. intros [= _ <-].
  apply same_profiles_rows. simpl. rewrite map_map. apply map_ext.
  intros e. now destruct (employee_number e =? k)%string.
Qed.

#[local] Hint Resolve keeps_tables_profiles upsert_schedule_profiles
  update_schedule_profiles delete_schedule_profiles reset_counts_profiles
  set_count_profiles : keeps.

Ltac keeps_profiles := repeat keeps_step same_profiles_refl same_profiles_trans.

Lemma _update_employee_counts_profiles : keeps same_profiles _update_employee_counts.
Proof.
  unfold _update_employee_counts, count_statements. keeps_profiles.
Qed.

#[local] Hint Resolve _update_employee_counts_profiles : keeps.

(** X22: Whatever the store does, the schedule methods and the reconciliation
    change nothing of an employee but the duty count: the numbers, names,
    absences and metadata of the rows of [employees] are the same after the
    call as before it, up to the order of the rows. *)
Theorem schedule_methods_keep_profiles w :
  (forall d k, same_profiles (db w) (db (snd (create_schedule d k w))))
  /\ (forall d k, same_profiles (db w) (db (snd (update_schedule d k w))))
  /\ (forall d, same_profiles (db w) (db (snd (delete_schedule d w))))
  /\ same_profiles (db w) (db (snd (_update_employee_counts w))).
Proof.
  repeat split; intros.
  - assert (keeps same_profiles (create_schedule d k)) as H
      by (unfold create_schedule; keeps_profiles).
    eapply H. apply surjective_pairing.
  - assert (keeps same_profiles (update_schedule d k)) as H
      by (unfold update_schedule; keeps_profiles).
    eapply H. apply surjective_pairing.
  - assert (keeps same_profiles (delete_schedule d)) as H
      by (unfold delete_schedule; keeps_profiles).
    eapply H. apply surjective_pairing.
  - eapply _update_employee_counts_profiles. apply surjective_pairing.
Qed.

(** ** The duty counts under the employee methods *)

Lemma create_employee_cases nm n ka md w r w' :
  create_employee nm n ka md w = (r, w') ->
  schedules (db w') = schedules (db w)
  /\ ((exists n' nm',
         employees (db w')
         = upsert_rows n' nm' (or_else ka []) (or_else md []) (employees (db w)))
      \/ employees (db w') = employees (db w)).
Proof.
  destruct r as [x|e].
  - intros E. destruct (create_employee_stored _ _ _ _ _ _ _ E)
      as (_ & n' & nm' & _ & _ & He & Hs). eauto.
  - unfold create_employee, bind, try_except.
    destruct (connect_if_needed w) as [[[]|e0] w0] eqn:E0;
      pose proof (connect_if_needed_tables _ _ _ E0) as [He0 Hs0].
    2: { intros [= _ <-]. auto. }
    match goal with |- context [execute ?q w0] =>
      destruct (execute q w0) as [[[]|e1] w1] eqn:E1
    end; [discriminate|].
    unfold raise. intros [= _ <-].
    apply execute_inv in E1.
    destruct E1 as [(x & _ & Hd) | (a & Ha & _)]; [|discriminate].
    rewrite Hd. auto.
Qed.

Lemma count_of_unknown n (d : DB) :
  references_resolve d -> Sql.has_employee n d = false ->
  Sql.count_of n (schedules d) = 0.
Proof.
  intros Hr Hn. apply count_of_unreferenced. intros Hin.
  apply in_map_iff in Hin. destruct Hin as (s & Hs & Hin).
  specialize (Hr s Hin). congruence.
Qed.

Lemma count_of_without_references k n l :
  k <> n ->
  Sql.count_of k (without_references n l) = Sql.count_of k l.
Proof.
  intros Hne. unfold Sql.count_of, without_references, Sql.references.
  f_equal. f_equal.
  induction l as [|s l IH]; simpl; [reflexivity|].
  destruct (String.eqb_spec (first_line_support s) n) as [E|E]; simpl.
  - destruct (String.eqb_spec (first_line_support s) k); [congruence | exact IH].
  - now rewrite IH.
Qed.

(** X23: The employee methods keep the duty counts right.  In a store whose
    counts are right and whose schedules reference stored employees,
    [create_employee] and an [update_employee] without the count key leave
    every count right, whatever the store does; so does a [delete_employee]
    that the store answers. *)
Theorem employee_methods_keep_counts w :
  counts_consistent (db w) ->
  references_resolve (db w) ->
  (forall nm n ka md,
     counts_consistent (db (snd (create_employee nm n ka md w))))
  /\ (forall n ups,
        supplied_count ups = None ->
        counts_consistent (db (snd (update_employee n ups w))))
  /\ (forall n,
        calm w -> counts_consistent (db (snd (delete_employee n w)))).
Proof.
  intros Hc Hr. unfold counts_consistent in *. split; [|split].
  - intros nm n ka md.
    destruct (create_employee nm n ka md w) as [r w'] eqn:E. simpl.
    destruct (create_employee_cases _ _ _ _ _ _ _ E)
      as [Hs [(n' & nm' & He)|He]]; rewrite He, Hs; [|exact Hc].
    unfold upsert_rows. destruct (existsb _ (employees (db w))) eqn:Ex.
    + rewrite Forall_forall in *. intros e Hin.
      apply in_map_iff in Hin. destruct Hin as (e0 & <- & Hin).
      specialize (Hc e0 Hin).
      destruct (employee_number e0 =? n')%string; simpl; exact Hc.
    + apply Forall_app. split; [exact Hc|]. constructor; [|constructor].
      simpl. symmetry. now apply count_of_unknown.
  - intros n ups Hsup.
    destruct (update_employee n ups w) as [r w'] eqn:E. simpl.
    destruct (update_employee_cases _ _ _ _ _ E)
      as [Hs [(_ & e0 & nm' & He0 & _ & _ & He) | (_ & He)]];
      rewrite He, Hs; [|exact Hc].
    unfold overwrite_rows. rewrite Forall_forall in *. intros e Hin.
    apply in_map_iff in Hin. destruct Hin as (e1 & <- & Hin).
    destruct (String.eqb_spec (employee_number e1) n) as [K|K]; simpl;
      [|exact (Hc e1 Hin)].
    rewrite merged_count, Hsup. simpl.
    unfold stored in He0. apply find_some in He0. destruct He0 as [Hin0 Hn0].
    apply String.eqb_eq in Hn0. rewrite (Hc e0 Hin0). congruence.
  - intros n Hcalm.
    destruct (delete_employee_calm n w Hcalm) as (w' & E & _). rewrite E. simpl.
    destruct (delete_employee_cases _ _ _ _ E)
      as [(_ & _ & He & Hs) | (Hn & He & [Hs | (Hh & _)])].
    + rewrite He, Hs. unfold without_employee.
      rewrite Forall_forall in *. intros e Hin.
      apply filter_In in Hin. destruct Hin as [Hin Hne].
      rewrite count_of_without_references; [exact (Hc e Hin)|].
      destruct (String.eqb_spec (employee_number e) n); [discriminate | assumption].
    + rewrite He, Hs. exact Hc.
    + rewrite Hh in Hn. congruence.
Qed.

Lemma employee_methods_keep_counts_witness :
  (forall nm n ka md,
     counts_consistent (db (snd (create_employee nm n ka md (live office [])))))
  /\ (forall n ups,
        supplied_count ups = None ->
        counts_consistent (db (snd (update_employee n ups (live office [])))))
  /\ (forall n,
        calm (live office []) ->
        counts_consistent (db (snd (delete_employee n (live office []))))).
Proof.
  apply (employee_methods_keep_counts (live office [])).
  - repeat constructor.
  - intros s Hin. simpl in Hin.
    destruct Hin as [<-|[<-|[<-|[]]]]; reflexivity.
Defined.

(** ** The bootstrap of [main.py] *)

Lemma with_absences_numbers today emps :
  map d_employee_number (with_absences today emps) = map d_employee_number emps.
Proof.
  unfold with_absences. rewrite map_map. apply map_ext. intros e.
  now destruct (pattern_of (d_employee_number e) absence_patterns).
Qed.

Lemma with_absences_unpatterned today emps e :
  In e emps -> pattern_of (d_employee_number e) absence_patterns = None ->
  In e (with_absences today emps).
Proof.
  intros Hin Hp. unfold with_absences. apply in_map_iff. exists e.
  cbv beta. rewrite Hp. auto.
Qed.

Lemma eligible_default_nonempty today d :
  eligible (with_absences today default_employees) d <> [].
Proof.
  assert (In (mkDefault "Karl-Gustav Karlgustavsson" "EMP003" [])
             (eligible (with_absences today default_employees) d)) as Hin.
  { unfold eligible. apply filter_In. split; [|reflexivity].
    apply with_absences_unpatterned; [|reflexivity].
    unfold default_employees. right. right. left. reflexivity. }
  intros E. rewrite E in Hin. exact Hin.
Qed.

(** X24: With the built-in staff someone is always available: two of the five
    default employees have no absence pattern.  So on every day, whatever
    the date of the run, the front-fill picks
    [available_employees[i % len(available_employees)]], one of the five
    default employees whose [known_absences] do not hold the date; its
    fallback branch is never taken and the choice never fails. *)
Theorem bootstrap_always_has_candidate today i d :
  exists e,
    nth_error (eligible (with_absences today default_employees) d)
              (i mod List.length (eligible (with_absences today default_employees) d))
    = Some e
    /\ choose_employee (with_absences today default_employees) i d
       = Ok (d_employee_number e)
    /\ ~ In d (d_known_absences e)
    /\ In (d_employee_number e) (map d_employee_number default_employees).
Proof.
  destruct (choose_employee_eligible _ i d (eligible_default_nonempty today d))
    as (e & Hnth & Hch & Hin & Habs).
  exists e. split; [exact Hnth|]. split; [exact Hch|]. split; [exact Habs|].
  rewrite <- (with_absences_numbers today). now apply in_map.
Qed.

Lemma pattern_absences_from today p l acc :
  fold_left
    (fun absences i =>
       let check_date := today + Z.of_nat i in
       let days_since_reference := check_date - reference_date in
       if days_since_reference mod p =? 0
       then (absences ++ [strftime_ymd check_date])%list
       else absences) l acc
  = (acc ++ map (window_date today)
              (filter (fun i => (today + Z.of_nat i - reference_date) mod p =? 0)
                      l))%list.
Proof.
  revert acc. induction l as [|x l IH]; intros acc; cbn [fold_left filter map].
  - now rewrite app_nil_r.
  - rewrite IH.
    destruct ((today + Z.of_nat x - reference_date) mod p =? 0);
      cbn [map]; [|reflexivity].
    rewrite <- app_assoc. reflexivity.
Qed.

Lemma pattern_absences_filter today p :
  pattern_absences today p
  = map (window_date today)
        (filter (fun i => (today + Z.of_nat i - reference_date) mod p =? 0)
                (seq 0 30)).
Proof. unfold pattern_absences. now rewrite pattern_absences_from. Qed.

Lemma NoDup_map_injective {A} (f : A -> string) l x y :
  NoDup (map f l) -> In x l -> In y l -> f x = f y -> x = y.
Proof.
  induction l as [|a l IH]; simpl; [intros _ []|].
  intros Hnd. inversion Hnd as [|? ? Hnot Hnd']; subst.
  intros [<-|Hx] [<-|Hy] E; trivial.
  - exfalso. apply Hnot. rewrite E. now apply in_map.
  - exfalso. apply Hnot. rewrite <- E. now apply in_map.
  - now apply IH.
Qed.

Lemma listed_iff_selected (P : nat -> bool) (f : nat -> string) l i :
  NoDup (map f l) -> In i l ->
  existsb (fun a => (a =? f i)%string) (map f (filter P l)) = P i.
Proof.
  intros Hnd Hin. destruct (P i) eqn:Hp.
  - apply existsb_exists. exists (f i). split; [|apply String.eqb_refl].
    apply in_map. apply filter_In. auto.
  - destruct (existsb _ _) eqn:Ex; [|reflexivity].
    apply existsb_exists in Ex. destruct Ex as (a & Ha & Heq).
    apply String.eqb_eq in Heq. apply in_map_iff in Ha.
    destruct Ha as (j & Hj & Hjin). apply filter_In in Hjin.
    destruct Hjin as [Hjin Hpj].
    assert (j = i) as -> by (eapply NoDup_map_injective; eauto; congruence).
    congruence.
Qed.

Lemma default_employees_no_absences e :
  In e default_employees -> d_known_absences e = [].
Proof.
  unfold default_employees. simpl.
  intros [<-|[<-|[<-|[<-|[<-|[]]]]]]; reflexivity.
Qed.

(** X25: The absences that the bootstrap generates follow the patterns: on a day
    of the 30-day window (whose dates print differently), a default
    employee with pattern [p] is listed as absent exactly when the day's
    distance from 2024-01-01 is a multiple of [p], and a default employee
    without a pattern is never listed. *)
Theorem absences_follow_pattern today i e :
  NoDup (map (window_date today) (seq 0 30)) ->
  (i < 30)%nat ->
  In e (with_absences today default_employees) ->
  absent_on (window_date today i) e
  = match pattern_of (d_employee_number e) absence_patterns with
    | Some p => (today + Z.of_nat i - reference_date) mod p =? 0
    | None => false
    end.
Proof.
  intros Hnd Hi Hin. unfold with_absences in Hin. apply in_map_iff in Hin.
  destruct Hin as (e0 & He & Hin0). cbv beta in He.
  destruct (pattern_of (d_employee_number e0) absence_patterns) as [p|] eqn:Hp.
  - subst e. unfold absent_on. cbv beta iota delta [d_employee_number d_known_absences].
    fold (d_employee_number e0). rewrite Hp, pattern_absences_filter.
    apply (listed_iff_selected
             (fun i => (today + Z.of_nat i - reference_date) mod p =? 0)
             (window_date today) (seq 0 30) i Hnd).
    apply in_seq. lia.
  - subst e. rewrite Hp. unfold absent_on.
    now rewrite (default_employees_no_absences _ Hin0).
Qed.

Lemma absences_follow_pattern_witness :
  absent_on (window_date march_1 0)
            (mkDefault "Lars Larsson" "EMP001" (pattern_absences march_1 3))
  = match pattern_of
            (d_employee_number
               (mkDefault "Lars Larsson" "EMP001" (pattern_absences march_1 3)))
            absence_patterns with
    | Some p => (march_1 + Z.of_nat 0 - reference_date) mod p =? 0
    | None => false
    end.
Proof.
  apply (absences_follow_pattern march_1 0
           (mkDefault "Lars Larsson" "EMP001" (pattern_absences march_1 3))).
  - apply nodup_fixed. vm_compute. reflexivity.
  - lia.
  - vm_compute. left. reflexivity.
Defined.

Lemma get_employees_calm w :
  calm w ->
  exists w', get_employees w = (Ok (employees (db w)), w') /\ steady w'
             /\ same_tables (db w) (db w').
Proof.
  intros Hcalm.
  destruct (connect_if_needed_calm w Hcalm) as (w0 & E0 & H0 & [He0 Hs0]).
  unfold get_employees, bind, try_except. rewrite E0.
  destruct (await_up_steady w0 H0) as (w1 & -> & H1 & Hd1).
  rewrite execute_steady by exact H1. unfold Sql.select_employees.
  cbv beta iota. rewrite Hd1, He0. eexists. split; [reflexivity|].
  split; [auto with steady|]. simpl. split; assumption.
Qed.

(** The loop that creates the default employees, on a store that knows none
    of them. *)
Lemma default_names_fit today :
  names_fit (with_absences today default_employees).
Proof.
  unfold names_fit, with_absences. rewrite Forall_map.
  unfold default_employees. repeat constructor;
    (match goal with
     | |- context [pattern_of ?k absence_patterns] =>
         destruct (pattern_of k absence_patterns)
     end; simpl; lia).
Qed.

Lemma create_defaults_steady emps :
  forall w,
    steady w ->
    numbers_fit emps -> names_fit emps ->
    NoDup (map d_employee_number emps) ->
    (forall e, In e emps -> Sql.has_employee (d_employee_number e) (db w) = false) ->
    exists w',
      for_each emps
        (fun emp =>
           try_except
             (create_employee (d_name emp) (d_employee_number emp)
                              (Some (d_known_absences emp)) None ;;
              ret tt)
             (fun _ => ret tt)) w = (Ok tt, w')
      /\ steady w'
      /\ employees (db w')
         = (employees (db w)
            ++ map (fun e => mkEmployee (d_employee_number e) (d_name e) 0
                               (d_known_absences e) []) emps)%list
      /\ schedules (db w') = schedules (db w).
Proof.
  induction emps as [|e l IH]; intros w H Hfit Hnames Hnd Hno.
  - exists w. simpl. rewrite app_nil_r. auto.
  - inversion Hnd as [|? ? Hnot Hnd']; subst.
    inversion Hfit as [|? ? Hn Hfit']; subst.
    inversion Hnames as [|? ? Hnm Hnames']; subst.
    destruct (create_employee_calm (d_name e) (d_employee_number e)
                (Some (d_known_absences e)) None w Hn Hnm (proj2 H))
      as (w1 & E1 & H1).
    destruct (create_employee_ok _ _ _ _ _ _ _ Hn Hnm E1) as (_ & He1 & Hs1).
    unfold upsert_rows in He1.
    pose proof (Hno e (or_introl eq_refl)) as Hnew.
    unfold Sql.has_employee in Hnew. rewrite Hnew in He1. simpl in He1.
    destruct (IH w1 H1 Hfit' Hnames' Hnd') as (w2 & E2 & H2 & He2 & Hs2).
    { intros e' Hin. unfold Sql.has_employee. rewrite He1, existsb_app.
      fold (Sql.has_employee (d_employee_number e') (db w)).
      rewrite (Hno e' (or_intror Hin)). simpl.
      destruct (String.eqb_spec (d_employee_number e) (d_employee_number e'))
        as [K|K]; [|reflexivity].
      exfalso. apply Hnot. rewrite K. now apply in_map. }
    exists w2. cbn [for_each].
    rewrite (bind_ok _ _ w tt w1).
    2: { apply try_ok. now rewrite (bind_ok _ _ _ _ _ E1). }
    split; [exact E2|]. split; [exact H2|].
    rewrite He2, Hs2, He1, Hs1, <- app_assoc. auto.
Qed.

Lemma create_schedule_profiles d k : keeps same_profiles (create_schedule d k).
Proof. unfold create_schedule. keeps_profiles. Qed.

Lemma front_fill_profiles today emps : keeps same_profiles (front_fill today emps).
Proof.
  pose proof create_schedule_profiles.
  unfold front_fill, front_fill_day. keeps_profiles.
Qed.

(** X26: The bootstrap on an empty store that answers, for a window of seven
    distinct dates: it creates the five default employees with their
    generated absences (the rows of [employees] are theirs, up to the order
    of the rows), and gives every day of the window exactly one schedule
    row, assigned to [available_employees[i % len(...)]], whose
    [known_absences] do not hold the date of that day. *)
Theorem bootstrap_fills_empty_store today w :
  calm w ->
  employees (db w) = [] ->
  schedules (db w) = [] ->
  NoDup (map (window_date today) (seq 0 7)) ->
  fst (init_default_data today w) = Ok tt
  /\ Permutation
       (map profile (employees (db (snd (init_default_data today w)))))
       (map (fun e => (d_employee_number e, d_name e, d_known_absences e, []))
            (with_absences today default_employees))
  /\ forall i, (i < 7)%nat ->
       exists e,
         nth_error (eligible (with_absences today default_employees)
                             (window_date today i))
                   (i mod List.length
                            (eligible (with_absences today default_employees)
                                      (window_date today i)))
         = Some e
         /\ ~ In (window_date today i) (d_known_absences e)
         /\ rows_on (window_date today i)
                    (db (snd (init_default_data today w)))
            = [mkSchedule (window_date today i) (d_employee_number e)].
Proof.
  intros Hcalm Hemp Hsch Hwin.
  destruct (get_employees_calm w Hcalm) as (w1 & E1 & H1 & He1 & Hs1).
  rewrite Hemp in E1, He1. rewrite Hsch in Hs1.
  assert (NoDup (map d_employee_number (with_absences today default_employees)))
    as Hnd.
  { rewrite with_absences_numbers. apply nodup_fixed. vm_compute. reflexivity. }
  destruct (create_defaults_steady _ w1 H1 (default_numbers_fit today)
              (default_names_fit today) Hnd) as (w2 & E2 & H2 & He2 & Hs2).
  { intros e _. unfold Sql.has_employee. now rewrite He1. }
  rewrite He1 in He2. rewrite Hs1 in Hs2. rewrite app_nil_l in He2.
  assert (with_absences today default_employees <> []) as Hne.
  { intros E. apply (f_equal (map d_employee_number)) in E.
    rewrite with_absences_numbers in E. discriminate E. }
  destruct (front_fill_calm today _ w2 (proj2 H2) Hne (default_numbers_fit today)
              Hwin) as (w3 & E3 & Hdays).
  assert (init_default_data today w = (Ok tt, w3)) as E.
  { unfold init_default_data. rewrite (bind_ok _ _ _ _ _ E1).
    cbv beta iota zeta. rewrite (bind_ok _ _ _ _ _ E2). exact E3. }
  rewrite E. cbn [fst snd]. split; [reflexivity|]. split.
  - pose proof (front_fill_profiles today _ _ _ _ E3) as Hp.
    unfold same_profiles in Hp. rewrite He2, map_map in Hp. exact Hp.
  - intros i Hi. specialize (Hdays i Hi). unfold day_filled in Hdays.
    assert (rows_on (window_date today i) (db w2) = []) as Hrows
      by (unfold rows_on; now rewrite Hs2).
    rewrite Hrows in Hdays.
    destruct (choose_employee_eligible _ i (window_date today i)
                (eligible_default_nonempty today (window_date today i)))
      as (e & Hnth & Hch & Hin & Habs).
    apply (in_map d_employee_number) in Hin.
    rewrite with_absences_numbers in Hin.
    exists e. split; [exact Hnth|]. split; [exact Habs|].
    rewrite (Hdays _ Hch).
    assert (Sql.has_employee (d_employee_number e) (db w2) = true) as ->;
      [|reflexivity].
    apply has_employee_in. rewrite He2, map_map. cbv beta.
    change (map (fun x => employee_number
                            (mkEmployee (d_employee_number x) (d_name x) 0
                               (d_known_absences x) [])))
      with (map d_employee_number).
    rewrite with_absences_numbers. exact Hin.
Qed.

Lemma bootstrap_fills_empty_store_witness :
  fst (init_default_data march_1 (fresh (mkDB [] [] None) [])) = Ok tt
  /\ Permutation
       (map profile
          (employees (db (snd (init_default_data march_1
                                 (fresh (mkDB [] [] None) []))))))
       (map (fun e => (d_employee_number e, d_name e, d_known_absences e, []))
            (with_absences march_1 default_employees))
  /\ forall i, (i < 7)%nat ->
       exists e,
         nth_error (eligible (with_absences march_1 default_employees)
                             (window_date march_1 i))
                   (i mod List.length
                            (eligible (with_absences march_1 default_employees)
                                      (window_date march_1 i)))
         = Some e
         /\ ~ In (window_date march_1 i) (d_known_absences e)
         /\ rows_on (window_date march_1 i)
                    (db (snd (init_default_data march_1
                                (fresh (mkDB [] [] None) []))))
            = [mkSchedule (window_date march_1 i) (d_employee_number e)].
Proof.
  apply (bootstrap_fills_empty_store march_1 (fresh (mkDB [] [] None) [])).
  - constructor.
  - reflexivity.
  - reflexivity.
  - apply nodup_fixed. vm_compute. reflexivity.
Defined.

(** ** A reconciliation that is interrupted *)

Lemma write_back_partial counts :
  forall w r w',
    (forall k c, In (k, c) counts -> c = Sql.count_of k (schedules (db w))) ->
    counts_zero_or_right (db w) ->
    for_each counts
      (fun '(emp_id, count) => execute (Sql.set_count count emp_id)) w = (r, w') ->
    counts_zero_or_right (db w') /\ schedules (db w') = schedules (db w).
Proof.
  induction counts as [|[k c] l IH]; intros w r w' Hc Hz; cbn [for_each].
  - intros [= _ <-]. auto.
  - unfold bind.
    destruct (execute (Sql.set_count c k) w) as [[[]|e] w1] eqn:E1;
      apply execute_inv in E1;
      destruct E1 as [(x & Hx & Hd) | (a & Ha & Hq & _)]; try discriminate.
    + unfold Sql.set_count in Hq. injection Hq as _ Hq.
      assert (schedules (db w1) = schedules (db w)) as Hs1
        by (rewrite <- Hq; reflexivity).
      intros E. apply IH in E.
      * destruct E as [Hz' Hs']. split; [exact Hz' | congruence].
      * intros k' c' Hin. rewrite Hs1. apply Hc. now right.
      * unfold counts_zero_or_right in *. rewrite Hs1. rewrite <- Hq. simpl.
        rewrite Forall_forall in *. intros e Hin.
        apply in_map_iff in Hin. destruct Hin as (e0 & <- & Hin0).
        destruct (String.eqb_spec (employee_number e0) k) as [K|K]; simpl.
        -- right. rewrite K. apply Hc. now left.
        -- exact (Hz e0 Hin0).
    + intros [= _ <-]. rewrite Hd. auto.
Qed.

Lemma count_statements_partial w r w' :
  count_statements w = (r, w') ->
  schedules (db w') = schedules (db w)
  /\ (employees (db w') = employees (db w) \/ counts_zero_or_right (db w')).
Proof.
  unfold count_statements, bind.
  destruct (execute Sql.reset_counts w) as [[[]|e] w1] eqn:E1;
    apply execute_inv in E1;
    destruct E1 as [(x & Hx & Hd1) | (a & Ha & Hq1 & _)]; try discriminate.
  2: { intros [= _ <-]. rewrite Hd1. auto. }
  unfold Sql.reset_counts in Hq1. injection Hq1 as _ Hq1.
  assert (schedules (db w1) = schedules (db w)) as Hs1
    by (rewrite <- Hq1; reflexivity).
  assert (counts_zero_or_right (db w1)) as Hz1.
  { unfold counts_zero_or_right. rewrite <- Hq1. simpl.
    rewrite Forall_forall. intros e Hin. apply in_map_iff in Hin.
    destruct Hin as (e0 & <- & _). left. reflexivity. }
  clear Ha.
  destruct (execute Sql.select_counts w1) as [[counts|e] w2] eqn:E2;
    apply execute_inv in E2;
    destruct E2 as [(x & Hx & Hd2) | (cs & Ha & Hq2 & _)]; try discriminate.
  2: { intros [= _ <-]. rewrite Hd2. split; [exact Hs1 | now right]. }
  injection Ha as Ha. subst cs. unfold Sql.select_counts in Hq2.
  injection Hq2 as Hcounts Hd2.
  intros E. apply write_back_partial in E.
  - destruct E as [Hz Hs]. split; [|now right].
    rewrite Hs, <- Hd2. exact Hs1.
  - intros k c Hin. rewrite <- Hcounts in Hin. apply in_map_iff in Hin.
    destruct Hin as (n & [= <- <-] & _). now rewrite <- Hd2.
  - now rewrite <- Hd2.
Qed.

(** X27: Whatever the store does, [_update_employee_counts] leaves the schedules
    alone, and either leaves every employee row as it was or leaves every
    duty count at 0 or at the number of schedule rows of the employee: a
    reconciliation that fails midway can zero counts, it never stores a
    wrong non-zero one.  On a connection that is set it does not raise. *)
Theorem reconciliation_interrupted w :
  schedules (db (snd (_update_employee_counts w))) = schedules (db w)
  /\ (employees (db (snd (_update_employee_counts w))) = employees (db w)
      \/ counts_zero_or_right (db (snd (_update_employee_counts w))))
  /\ (conn w = Open -> fst (_update_employee_counts w) = Ok tt).
Proof.
  unfold _update_employee_counts, bind, try_except.
  destruct (connect_if_needed w) as [[[]|e] w0] eqn:E0;
    pose proof (connect_if_needed_tables _ _ _ E0) as [He0 Hs0].
  - destruct (count_statements w0) as [[[]|e] w1] eqn:E1;
      destruct (count_statements_partial _ _ _ E1) as [Hs1 Hcase]; simpl;
      (split; [congruence|]; split; [|reflexivity]);
      (destruct Hcase as [He1|Hz]; [left; congruence | now right]).
  - simpl. split; [exact Hs0|]. split; [left; exact He0|].
    intros Hc. unfold connect_if_needed in E0. rewrite Hc in E0. discriminate.
Qed.

(** ** Connecting and closing *)

(** X28: [connect] drops a failure of [init]: when the connection is made and
    the first statement of the table set-up fails, [connect] still returns;
    the handle is set, the tables are not marked as created and the store
    is as it was. *)
Theorem connect_swallows_init_failure w :
  hd Good (outcomes w) = Good ->
  _tables_created w = false ->
  hd Good (tl (outcomes w)) <> Good ->
  fst (connect_default w) = Ok tt
  /\ _tables_created (snd (connect_default w)) = false
  /\ db (snd (connect_default w)) = db w
  /\ conn (snd (connect_default w)) <> NoConn.
Proof.
  intros H1 Ht H2.
  unfold connect_default, connect, try_except, bind, psycopg_connect,
    next_outcome, init_tables. rewrite H1. simpl. rewrite Ht.
  unfold try_except, bind, execute, next_outcome. simpl.
  destruct (hd Good (tl (outcomes w))); try congruence; simpl;
    (repeat split; [exact Ht | discriminate]).
Qed.

Lemma connect_swallows_init_failure_witness :
  fst (connect_default (fresh office [Good; Fail])) = Ok tt
  /\ _tables_created (snd (connect_default (fresh office [Good; Fail]))) = false
  /\ db (snd (connect_default (fresh office [Good; Fail])))
     = db (fresh office [Good; Fail])
  /\ conn (snd (connect_default (fresh office [Good; Fail]))) <> NoConn.
Proof.
  apply (connect_swallows_init_failure (fresh office [Good; Fail])).
  - reflexivity.
  - reflexivity.
  - discriminate.
Defined.

(** X29: [close] can be repeated and undone: a second [close] changes nothing,
    the store is untouched, and when the store answers the next method call
    reconnects, reads the stored rows and leaves the connection open. *)
Theorem close_then_reconnect w :
  snd (close (snd (close w))) = snd (close w)
  /\ db (snd (close w)) = db w
  /\ conn (snd (close w)) <> Open
  /\ (calm w ->
      forall n,
        fst (get_employee n (snd (close w))) = Ok (stored n (db w))
        /\ conn (snd (get_employee n (snd (close w)))) = Open).
Proof.
  assert (calm w -> calm (snd (close w))) as Hcalm.
  { unfold close, calm. now destruct (conn w). }
  assert (db (snd (close w)) = db w) as Hdb.
  { unfold close. now destruct (conn w). }
  split; [|split; [exact Hdb|split]].
  - unfold close. destruct (conn w) eqn:Hc; simpl; rewrite ?Hc; reflexivity.
  - unfold close. destruct (conn w) eqn:Hc; simpl; rewrite ?Hc; discriminate.
  - intros Hk n. specialize (Hcalm Hk).
    destruct (connect_if_needed_calm _ Hcalm) as (w0 & E0 & H0 & [He0 Hs0]).
    rewrite (reconnect_first _ _ w0 E0 H0
             : get_employee n (snd (close w)) = get_employee n w0).
    destruct (get_employee_steady n w0 H0) as (w1 & -> & H1 & Hd1). simpl.
    split; [|exact (proj1 H1)].
    unfold stored. now rewrite He0, Hdb.
Qed.

Lemma close_then_reconnect_witness :
  fst (get_employee "E1" (snd (close (live office []))))
  = Ok (stored "E1" (db (live office [])))
  /\ conn (snd (get_employee "E1" (snd (close (live office []))))) = Open.
Proof.
  apply (proj2 (proj2 (proj2 (close_then_reconnect (live office []))))).
  constructor.
Defined.
